(** * Contextual retrieval and reranking engine: a shallow embedding

    The development follows [src/retrieval/embeddings.py],
    [src/retrieval/vector_store.py] and [src/retrieval/retriever.py].

    Python strings are modelled as [string]s whose characters are code
    points below 256.  Python objects that are mutated in place (the
    passage dictionaries) live in an explicit store and are handled through
    locations; exceptions and calls to the external collaborators (embedding
    provider, nearest-neighbour index, encyclopedia client) are threaded
    through a small state-and-exception monad. *)

From Stdlib Require Import ZArith Lia Ascii String.
From Stdlib Require SpecFloat.
From stdpp Require Import base option list strings gmap fin_maps sorting.

Open Scope Z_scope.
Open Scope string_scope.

(** ** Python string primitives *)

Module PyStr.

Definition code (c : ascii) : nat := nat_of_ascii c.

Definition in_range (lo hi : nat) (c : ascii) : bool :=
  ((lo <=? code c) && (code c <=? hi))%nat.

(** [str.isspace] on one character, for code points below 256. *)
Definition is_space (c : ascii) : bool :=
  in_range 9 13 c || in_range 28 32 c
  || (code c =? 133)%nat || (code c =? 160)%nat.

Definition is_upper_char (c : ascii) : bool := in_range 65 90 c.
Definition is_lower_char (c : ascii) : bool := in_range 97 122 c.
Definition is_digit_char (c : ascii) : bool := in_range 48 57 c.
Definition is_cased (c : ascii) : bool := is_upper_char c || is_lower_char c.

(** The character class [[A-Za-z0-9]]. *)
Definition is_alnum (c : ascii) : bool :=
  is_upper_char c || is_lower_char c || is_digit_char c.

(** The character class [[A-Za-z0-9\-']]. *)
Definition is_token_char (c : ascii) : bool :=
  is_alnum c || (code c =? 45)%nat || (code c =? 39)%nat.

Definition to_lower_char (c : ascii) : ascii :=
  if is_upper_char c then ascii_of_nat (code c + 32) else c.
Definition to_upper_char (c : ascii) : ascii :=
  if is_lower_char c then ascii_of_nat (code c - 32) else c.

Fixpoint smap (f : ascii -> ascii) (s : string) : string :=
  match s with
  | EmptyString => EmptyString
  | String c r => String (f c) (smap f r)
  end.

Fixpoint sexists (p : ascii -> bool) (s : string) : bool :=
  match s with
  | EmptyString => false
  | String c r => p c || sexists p r
  end.

(** [s.lower()] *)
Definition lower (s : string) : string := smap to_lower_char s.

(** [s.isupper()]: at least one cased character and no lowercase one. *)
Definition isupper (s : string) : bool :=
  sexists is_cased s && negb (sexists is_lower_char s).

(** [any(c.isdigit() for c in s)] *)
Definition has_digit (s : string) : bool := sexists is_digit_char s.

(** [s.title()]: a cased character is upper-cased when the previous
    character is not cased and lower-cased otherwise. *)
Fixpoint title_from (prev_cased : bool) (s : string) : string :=
  match s with
  | EmptyString => EmptyString
  | String c r =>
      String (if prev_cased then to_lower_char c else to_upper_char c)
             (title_from (is_cased c) r)
  end.
Definition title (s : string) : string := title_from false s.

(** [bool(s.strip())]: stripping leaves something exactly when some
    character is not white space. *)
Definition strip_truthy (s : string) : bool :=
  sexists (fun c => negb (is_space c)) s.

Fixpoint lstrip (s : string) : string :=
  match s with
  | EmptyString => EmptyString
  | String c r => if is_space c then lstrip r else s
  end.

Fixpoint rstrip (s : string) : string :=
  match s with
  | EmptyString => EmptyString
  | String c r =>
      match rstrip r with
      | EmptyString => if is_space c then EmptyString else String c EmptyString
      | r' => String c r'
      end
  end.

(** [s.strip()] *)
Definition strip (s : string) : string := rstrip (lstrip s).

Definition newline : ascii := ascii_of_nat 10.

(** [s.split("\n")] *)
Fixpoint split_lines_from (cur : string) (s : string) : list string :=
  match s with
  | EmptyString => [cur]
  | String c r =>
      if (code c =? 10)%nat then cur :: split_lines_from EmptyString r
      else split_lines_from (cur ++ String c EmptyString) r
  end.
Definition split_lines (s : string) : list string :=
  split_lines_from EmptyString s.

(** [sep.join(parts)] *)
Fixpoint join (sep : string) (parts : list string) : string :=
  match parts with
  | [] => EmptyString
  | [p] => p
  | p :: rest => p ++ sep ++ join sep rest
  end.

(** [needle in hay] for strings. *)
Fixpoint contains (needle hay : string) : bool :=
  String.prefix needle hay ||
  match hay with
  | EmptyString => false
  | String _ r => contains needle r
  end.

End PyStr.

(** ** Python sequence primitives *)

(** [l[:n]] for a Python integer [n]: a negative bound counts from the end. *)
Definition py_slice_to {A} (n : Z) (l : list A) : list A :=
  if (0 <=? n)%Z then take (Z.to_nat n) l
  else take (List.length l - Z.to_nat (- n))%nat l.

(** ** Title extraction ([retriever.py]) *)

Definition _STOPWORDS : gset string :=
  list_to_set
    [ "what"; "which"; "that"; "this"; "these"; "those";
      "who"; "whom"; "whose"; "where"; "when"; "why"; "how";
      "does"; "do"; "did"; "is"; "are"; "was"; "were"; "be";
      "an"; "a"; "the"; "of"; "and"; "or"; "in"; "on"; "for";
      "to"; "from"; "with"; "as"; "by"; "about"; "describe"; "explain" ].

(** [re.findall(r"[A-Za-z0-9][A-Za-z0-9\-']*", text)]: leftmost, greedy,
    non-overlapping matches.  [cur] is the match being extended. *)
Fixpoint findall_tokens (cur : option string) (s : string) : list string :=
  match s with
  | EmptyString => match cur with Some t => [t] | None => [] end
  | String c r =>
      match cur with
      | Some t =>
          if PyStr.is_token_char c
          then findall_tokens (Some (t ++ String c EmptyString)) r
          else t :: findall_tokens None r
      | None =>
          if PyStr.is_alnum c
          then findall_tokens (Some (String c EmptyString)) r
          else findall_tokens None r
      end
  end.

Definition _tokenize_bio (text : string) : list string :=
  filter (fun t => PyStr.strip_truthy t = true) (findall_tokens None text).

(** The first loop: [for i in range(len(tokens) - 1)]. *)
Fixpoint bigrams (tokens : list string) : list string :=
  match tokens with
  | t1 :: ((t2 :: _) as rest) =>
      let bigram := t1 ++ " " ++ t2 in
      if (4 <? String.length bigram)%nat then bigram :: bigrams rest
      else bigrams rest
  | _ => []
  end.

(** The second loop: unigram candidates. *)
Definition keep_unigram (t : string) : bool :=
  if bool_decide (PyStr.lower t ∈ _STOPWORDS) then false
  else (4 <=? String.length t)%nat || PyStr.has_digit t || PyStr.isupper t.

Definition unigrams (tokens : list string) : list string :=
  filter (fun t => keep_unigram t = true) tokens.

Definition title_format (c : string) : string :=
  if negb (PyStr.isupper c) then PyStr.title c else c.

(** The third loop: formatting and order-preserving deduplication. *)
Fixpoint dedup_formatted (seen : gset string) (cands : list string)
  : list string :=
  match cands with
  | [] => []
  | c :: rest =>
      let c_fmt := title_format c in
      if bool_decide (c_fmt ∈ seen) then dedup_formatted seen rest
      else c_fmt :: dedup_formatted ({[ c_fmt ]} ∪ seen) rest
  end.

Definition extract_candidate_titles (query : string) (max_candidates : Z)
  : list string :=
  let tokens := _tokenize_bio query in
  match tokens with
  | [] => []
  | _ =>
      let candidates := (bigrams tokens ++ unigrams tokens)%list in
      let final_candidates := dedup_formatted ∅ candidates in
      py_slice_to max_candidates final_candidates
  end.

(** ** Numbers, values and the store *)

(** Floating-point arithmetic is a parameter of the development: the
    operations NumPy and Python perform on floats are the fields of
    [FloatOps]; nothing is assumed about rounding.  Two instances follow
    further down: IEEE binary32, the arithmetic the code runs on
    ([Binary32.F32]), and the integers, for small examples
    ([ZModel.ZFloat]). *)
Class FloatOps := {
  float : Type;
  fmul : float -> float -> float;        (* elementwise [*] *)
  fdiv : float -> float -> float;        (* elementwise [/] *)
  fsum : list float -> float;            (* [ndarray.sum()] *)
  fnorm : list float -> float;           (* [np.linalg.norm] of one row *)
  fclip_eps : float -> float;            (* [np.clip(x, 1e-12, None)] *)
  flt : float -> float -> bool;          (* [x < y] *)
  float_str : float -> string;           (* [str(x)] *)
}.

(** Float comparison is not an order on all floats: NaN is neither smaller
    nor greater than anything, itself included.  [strict_weak_on keys]
    checks the order laws among the values listed only: there [<] is
    irreflexive and transitive, and [x < z] gives [x < y] or [y < z]
    (being tied is transitive). *)
Definition strict_weak_on {F : FloatOps} (keys : list float) : bool :=
  forallb (fun x => negb (flt x x)) keys
  && forallb (fun x =>
       forallb (fun y =>
         forallb (fun z =>
           implb (flt x y && flt y z) (flt x z)
           && implb (flt x z) (flt x y || flt y z)) keys) keys) keys.

Section Engine.
Context {F : FloatOps}.

(** NumPy arrays of dimension 0, 1 and 2. *)
Inductive ndarray :=
| Arr0 (x : float)
| Arr1 (v : list float)
| Arr2 (ncols : nat) (rows : list (list float)).

(** Values held by passage dictionaries and metadata rows: strings,
    floats and [None]. *)
Inductive pyval :=
| VStr (s : string)
| VFloat (x : float)
| VNone.

Local Abbreviation dict := (gmap string pyval).
Local Abbreviation loc := nat.

Inductive exn :=
| IndexError
| TypeError
| AttributeError
| KeyError (key : string)
| ValueError
| DimensionError (index_d query_d : nat)   (* the [ValueError] of [FaissIndex.search] *)
| RemoteError (msg : string).              (* raised by an external collaborator *)

(** Calls that leave the process, and the error line [encode] prints. *)
Inductive event :=
| EvEmbedQuery (text : string)
| EvIndexSearch (queries : list (list float)) (k : Z)
| EvWikiExists (title : string)
| EvWikiText (title : string)
| EvPrintEmbeddingError (e : exn).

Record world := World {
  heap : list dict;       (* the dictionaries allocated so far *)
  trace : list event;     (* external calls, oldest first *)
}.

Inductive outcome (A : Type) :=
| Return (a : A)
| Raise (e : exn).
Global Arguments Return {A} a.
Global Arguments Raise {A} e.

Definition M (A : Type) : Type := world -> outcome A * world.

Definition ret {A} (a : A) : M A := fun w => (Return a, w).
Definition raise {A} (e : exn) : M A := fun w => (Raise e, w).
Definition bind {A B} (m : M A) (k : A -> M B) : M B :=
  fun w => match m w with
           | (Return a, w') => k a w'
           | (Raise e, w') => (Raise e, w')
           end.

(** [try: m  except Exception as e: handler e] *)
Definition try_except {A} (m : M A) (handler : exn -> M A) : M A :=
  fun w => match m w with
           | (Return a, w') => (Return a, w')
           | (Raise e, w') => handler e w'
           end.

Definition log (ev : event) : M unit :=
  fun w => (Return tt, World (heap w) (trace w ++ [ev])%list).

Definition lift {A} (r : exn + A) : M A :=
  match r with inl e => raise e | inr a => ret a end.

(** A location held by a Python list always points to a live object;
    reading outside the store is unreachable and yields the empty dict. *)
Definition deref (l : loc) : M dict :=
  fun w => (Return (default ∅ (heap w !! l)), w).

Definition alloc (d : dict) : M loc :=
  fun w => (Return (List.length (heap w)),
            World (heap w ++ [d])%list (trace w)).

(** [obj[key] = v] *)
Definition setitem (l : loc) (key : string) (v : pyval) : M unit :=
  fun w => (Return tt,
            World (alter (fun d => <[key := v]> d) l (heap w)) (trace w)).

(** [obj[key]] *)
Definition getitem (l : loc) (key : string) : M pyval :=
  bind (deref l) (fun d =>
    match d !! key with
    | Some v => ret v
    | None => raise (KeyError key)
    end).

(** [obj.get(key, dflt)] *)
Definition dict_get (l : loc) (key : string) (dflt : pyval) : M pyval :=
  bind (deref l) (fun d => ret (default dflt (d !! key))).

Fixpoint mapM {A B} (f : A -> M B) (l : list A) : M (list B) :=
  match l with
  | [] => ret []
  | x :: rest =>
      bind (f x) (fun y => bind (mapM f rest) (fun ys => ret (y :: ys)))
  end.

End Engine.

(** Passage dictionaries and metadata rows, and locations in the store. *)
Abbreviation dict := (gmap string pyval).
Abbreviation loc := nat.

#[global] Instance M_ret {F : FloatOps} : MRet M := @ret F.
#[global] Instance M_bind {F : FloatOps} : MBind M :=
  fun A B k m => bind m k.

(** ** The embedding provider ([embeddings.py]) *)

Section Embeddings.
Context {F : FloatOps}.

(** [self.model.embed_query]: the remote call either raises or yields a
    vector. *)
Record SolarEmbedder := {
  embed_query : string -> exn + list float;
}.

(** The argument of [encode]: [Union[str, List[str]]]. *)
Inductive texts_arg :=
| Text (s : string)
| Texts (l : list string).

Definition call_embed_query (self : SolarEmbedder) (t : string)
  : M (list float) :=
  log (EvEmbedQuery t) ;; lift (embed_query self t).

(** [np.array(vectors, dtype="float32")] on a non-empty list of rows;
    rows of different lengths are refused. *)
Definition np_array (vectors : list (list float)) : M ndarray :=
  match vectors with
  | [] => ret (Arr1 [])
  | v :: rest =>
      if forallb (fun r => (List.length r =? List.length v)%nat) rest
      then ret (Arr2 (List.length v) vectors)
      else raise ValueError
  end.

(** One row of [arr / np.clip(norms, 1e-12, None)]. *)
Definition normalize_row (row : list float) : list float :=
  let norm := fnorm row in
  (fun x => fdiv x (fclip_eps norm)) <$> row.

Definition normalize (arr : ndarray) : ndarray :=
  match arr with
  | Arr2 n rows => Arr2 n (normalize_row <$> rows)
  | a => a
  end.

Definition encode (self : SolarEmbedder) (texts : texts_arg) : M ndarray :=
  let texts := match texts with Text s => [s] | Texts l => l end in
  let valid_texts := filter (fun t => PyStr.strip_truthy t = true) texts in
  match valid_texts with
  | [] => ret (Arr1 [])
  | _ =>
      try_except
        (vectors ← mapM (call_embed_query self) valid_texts;
         arr ← np_array vectors;
         ret (normalize arr))
        (fun e => log (EvPrintEmbeddingError e) ;; ret (Arr1 []))
  end.

(** [encode] applied to a value read from a dictionary: a value that is
    not a string is iterated over, which floats and [None] refuse. *)
Definition encode_value (self : SolarEmbedder) (v : pyval) : M ndarray :=
  match v with
  | VStr s => encode self (Text s)
  | _ => raise TypeError
  end.

(** [a[0]] *)
Definition getitem0 (a : ndarray) : M ndarray :=
  match a with
  | Arr0 _ => raise IndexError
  | Arr1 [] => raise IndexError
  | Arr1 (x :: _) => ret (Arr0 x)
  | Arr2 _ [] => raise IndexError
  | Arr2 _ (r :: _) => ret (Arr1 r)
  end.

End Embeddings.

(** ** The vector index reader ([vector_store.py]) *)

(** [l[i]] for a Python integer [i]. *)
Definition py_getitem {A} (l : list A) (i : Z) : option A :=
  let n := Z.of_nat (List.length l) in
  let j := if (i <? 0)%Z then (i + n)%Z else i in
  if ((j <? 0) || (n <=? j))%Z then None else l !! Z.to_nat j.

Section VectorStore.
Context {F : FloatOps}.

(** A loaded index: [self.index.d], [self.index.search] (which yields the
    arrays [scores] and [idxs], one row per query) and [self.metadata]. *)
Record FaissIndex := {
  index_d : nat;
  index_search :
    list (list float) -> Z -> exn + (list (list float) * list (list Z));
  metadata : list dict;
}.

Definition call_index_search (self : FaissIndex)
    (queries : list (list float)) (k : Z)
  : M (list (list float) * list (list Z)) :=
  log (EvIndexSearch queries k) ;; lift (index_search self queries k).

(** [rows[0]] on the rows of a result array. *)
Definition row0 {A} (rows : list (list A)) : M (list A) :=
  match rows with
  | [] => raise IndexError
  | r :: _ => ret r
  end.

(** The dictionary
    [{"score": float(score), "text": meta.get("text", ""), **meta}]:
    the keys of [meta] win. *)
Definition hit_dict (score : float) (meta : dict) : dict :=
  meta ∪ <["text" := default (VStr "") (meta !! "text")]>
           {["score" := VFloat score]}.

(** The loop over [zip(scores[0], idxs[0])]. *)
Fixpoint search_loop (self : FaissIndex) (hits : list (float * Z))
    (results : list loc) : M (list loc) :=
  match hits with
  | [] => ret results
  | (score, idx) :: rest =>
      if ((idx =? -1) || (Z.of_nat (List.length (metadata self)) <=? idx))%Z
      then search_loop self rest results
      else
        match py_getitem (metadata self) idx with
        | None => raise IndexError
        | Some meta =>
            r ← alloc (hit_dict score meta);
            search_loop self rest (results ++ [r])%list
        end
  end.

Definition FaissIndex_search (self : FaissIndex) (query_emb : ndarray)
    (top_k : Z) : M (list loc) :=
  (* 1-D -> 2-D *)
  let query_emb :=
    match query_emb with
    | Arr1 v => Arr2 (List.length v) [v]
    | a => a
    end in
  match query_emb with
  | Arr2 ncols rows =>
      if negb (ncols =? index_d self)%nat
      then raise (DimensionError (index_d self) ncols)
      else
        '(scores, idxs) ← call_index_search self rows top_k;
        s0 ← row0 scores;
        i0 ← row0 idxs;
        search_loop self (zip s0 i0) []
  | _ => raise IndexError       (* [shape[1]] of a 0-d array *)
  end.

End VectorStore.

(** ** Retrieval, reranking and context assembly ([retriever.py]) *)

Section Retriever.
Context {F : FloatOps}.

(** The encyclopedia client: [page.exists()] and [page.text] are the
    calls that reach the network; either may raise. *)
Record Wikipedia := {
  page_exists : string -> exn + bool;
  page_text : string -> exn + string;
}.

Definition call_page_exists (wiki : Wikipedia) (title : string) : M bool :=
  log (EvWikiExists title) ;; lift (page_exists wiki title).
Definition call_page_text (wiki : Wikipedia) (title : string) : M string :=
  log (EvWikiText title) ;; lift (page_text wiki title).

(** [for r in results: r["source"] = source_tag] *)
Fixpoint tag_all (results : list loc) (source_tag : string) : M unit :=
  match results with
  | [] => ret tt
  | r :: rest =>
      setitem r "source" (VStr source_tag) ;; tag_all rest source_tag
  end.

Definition search_faiss_index (query : string) (embedder : SolarEmbedder)
    (index : FaissIndex) (top_k : Z) (source_tag : string) : M (list loc) :=
  q ← encode embedder (Text query);
  q_emb ← getitem0 q;
  results ← FaissIndex_search index q_emb top_k;
  tag_all results source_tag ;;
  ret results.

Definition wiki_chunk (p title : string) : dict :=
  <["text" := VStr p]>
    (<["source" := VStr ("Wikipedia (" ++ title ++ ")")]>
       {["title" := VStr title]}).

(** [for p in paragraphs[:3]: chunks.append({...})] *)
Fixpoint append_chunks (paragraphs : list string) (title : string)
    (chunks : list loc) : M (list loc) :=
  match paragraphs with
  | [] => ret chunks
  | p :: rest =>
      c ← alloc (wiki_chunk p title);
      append_chunks rest title (chunks ++ [c])%list
  end.

(** [for title in candidates: ...] *)
Fixpoint wiki_loop (wiki : Wikipedia) (candidates : list string)
    (chunks : list loc) : M (list loc) :=
  match candidates with
  | [] => ret chunks
  | title :: rest =>
      ex ← call_page_exists wiki title;
      if negb ex then wiki_loop wiki rest chunks
      else
        text ← call_page_text wiki title;
        let paragraphs :=
          filter (fun p => (50 < String.length (PyStr.strip p))%nat)
                 (PyStr.split_lines text) in
        chunks' ← append_chunks (take 3 paragraphs) title chunks;
        wiki_loop wiki rest chunks'
  end.

Definition search_wikipedia_chunks (wiki : Wikipedia) (query : string)
    (max_pages : Z) : M (list loc) :=
  let candidates := extract_candidate_titles query max_pages in
  match candidates with
  | [] => ret []
  | _ => wiki_loop wiki candidates []
  end.

(** [a * b] with NumPy broadcasting.  Both operands are results of
    [x[0]] on arrays of dimension at most 2, hence of dimension at most
    1; 2-d operands are outside the model. *)
Definition np_mul (a b : ndarray) : M ndarray :=
  match a, b with
  | Arr0 x, Arr0 y => ret (Arr0 (fmul x y))
  | Arr0 x, Arr1 v => ret (Arr1 (fmul x <$> v))
  | Arr1 u, Arr0 y => ret (Arr1 ((fun x => fmul x y) <$> u))
  | Arr1 u, Arr1 v =>
      if (List.length u =? List.length v)%nat
      then ret (Arr1 (zip_with fmul u v))
      else match u, v with
           | [x], _ => ret (Arr1 (fmul x <$> v))
           | _, [y] => ret (Arr1 ((fun x => fmul x y) <$> u))
           | _, _ => raise ValueError
           end
  | _, _ => raise ValueError
  end.

(** [float(a.sum())] *)
Definition np_sum (a : ndarray) : float :=
  match a with
  | Arr0 x => x
  | Arr1 v => fsum v
  | Arr2 _ rows => fsum (concat rows)
  end.

(** The scoring loop of [rerank_results]. *)
Fixpoint rerank_loop (embedder : SolarEmbedder) (q_emb : ndarray)
    (candidates : list loc) (scored_items : list loc) : M (list loc) :=
  match candidates with
  | [] => ret scored_items
  | item :: rest =>
      c_text ← dict_get item "text" (VStr "");
      c ← encode_value embedder c_text;
      c_emb ← getitem0 c;
      prod ← np_mul q_emb c_emb;
      let score := np_sum prod in
      setitem item "score" (VFloat score) ;;
      rerank_loop embedder q_emb rest (scored_items ++ [item])%list
  end.

(** [list.sort(key=..., reverse=True)] is a stable sort into descending
    key order: an element moves in front of the elements whose key is
    strictly smaller, never in front of an equal one that preceded it. *)
Fixpoint insert_desc (x : float * loc) (l : list (float * loc))
  : list (float * loc) :=
  match l with
  | [] => [x]
  | y :: l' => if flt x.1 y.1 then y :: insert_desc x l' else x :: l
  end.

Definition sort_desc (l : list (float * loc)) : list (float * loc) :=
  foldr insert_desc [] l.

(** The key function [lambda x: x["score"]]; keys that are not floats do
    not occur, every item having been given a float score by the loop. *)
Definition sort_key (x : loc) : M float :=
  v ← getitem x "score";
  match v with
  | VFloat s => ret s
  | _ => raise TypeError
  end.

Definition sort_by_score_reverse (items : list loc) : M (list loc) :=
  keys ← mapM sort_key items;
  ret ((sort_desc (zip keys items)).*2).

Definition rerank_results (query : string) (candidates : list loc)
    (embedder : SolarEmbedder) (top_k : Z) : M (list loc) :=
  match candidates with
  | [] => ret []
  | _ =>
      q ← encode embedder (Text query);
      q_emb ← getitem0 q;
      scored_items ← rerank_loop embedder q_emb candidates [];
      sorted ← sort_by_score_reverse scored_items;
      ret (py_slice_to top_k sorted)
  end.

(** [str(v)] inside an f-string. *)
Definition py_str (v : pyval) : string :=
  match v with
  | VStr s => s
  | VFloat x => float_str x
  | VNone => "None"
  end.

(** [v.strip()] *)
Definition val_strip (v : pyval) : M string :=
  match v with
  | VStr s => ret (PyStr.strip s)
  | _ => raise AttributeError
  end.

Definition nl : string := String PyStr.newline EmptyString.

Definition format_chunk (chunk : loc) : M string :=
  source ← dict_get chunk "source" (VStr "Unknown");
  t ← dict_get chunk "text" (VStr "");
  text ← val_strip t;
  ret ("[" ++ py_str source ++ "]" ++ nl ++ text).

Definition no_documents : string := "No relevant documents found.".

(** Steps 1 and 2 of [get_relevant_context]: pooling the sources. *)
Definition collect_chunks (wiki : Wikipedia) (query : string)
    (embedder : SolarEmbedder) (vector_db : option FaissIndex)
    (use_wiki : bool) : M (list loc) :=
  guideline_chunks ←
    match vector_db with
    | Some db => search_faiss_index query embedder db 4 "Paper_DB"
    | None => ret []
    end;
  wiki_chunks ←
    (if use_wiki then search_wikipedia_chunks wiki query 2 else ret []);
  ret (guideline_chunks ++ wiki_chunks)%list.

(** Step 4 of [get_relevant_context]: rendering the surviving passages. *)
Definition format_context (best_chunks : list loc) : M string :=
  formatted_context ← mapM format_chunk best_chunks;
  match formatted_context with
  | [] => ret no_documents
  | _ => ret (PyStr.join (nl ++ nl) formatted_context)
  end.

Definition get_relevant_context (wiki : Wikipedia) (query : string)
    (embedder : SolarEmbedder) (vector_db : option FaissIndex)
    (use_wiki : bool) : M string :=
  all_chunks ← collect_chunks wiki query embedder vector_db use_wiki;
  best_chunks ← rerank_results query all_chunks embedder 6;
  format_context best_chunks.

End Retriever.

(** ** Vocabulary of the statements *)

Section Vocabulary.
Context {F : FloatOps}.

(** The dimension [search] compares with [index.d]: the length of a 1-d
    query, the number of columns of a 2-d one. *)
Definition query_dim (q : ndarray) : option nat :=
  match q with
  | Arr0 _ => None
  | Arr1 v => Some (List.length v)
  | Arr2 n _ => Some n
  end.

(** The rows handed to the underlying index. *)
Definition query_rows (q : ndarray) : list (list float) :=
  match q with
  | Arr0 _ => []
  | Arr1 v => [v]
  | Arr2 _ rows => rows
  end.

(** A slot id that is neither the "no match" sentinel nor at or beyond
    the end of the metadata. *)
Definition slot_ok (self : FaissIndex) (idx : Z) : bool :=
  negb ((idx =? -1) || (Z.of_nat (List.length (metadata self)) <=? idx))%Z.

Definition kept_hits (self : FaissIndex) (hits : list (float * Z))
  : list (float * Z) :=
  filter (fun h => slot_ok self h.2 = true) hits.

(** What [log] does to the world. *)
Definition logged (ev : event) (w : world) : world :=
  World (heap w) (trace w ++ [ev])%list.

(** The fields of a stored passage. *)
Definition field_in (w : world) (r : loc) (key : string) : option pyval :=
  heap w !! r ≫= fun d : dict => d !! key.

Definition score_in (w : world) (r : loc) : option float :=
  match field_in w r "score" with
  | Some (VFloat x) => Some x
  | _ => None
  end.

(** [item.get("text", "")] *)
Definition text_in (w : world) (r : loc) : pyval :=
  default (VStr "") (field_in w r "text").

(** The provider embeds [s]: the text is not blank and the remote call
    yields the vector [v]. *)
Definition embeds (embedder : SolarEmbedder) (s : string) (v : list float)
  : Prop :=
  PyStr.strip_truthy s = true /\ embed_query embedder s = inr v.

(** What [item["score"] = x] does to the world. *)
Definition set_score (item : loc) (x : float) (w : world) : world :=
  World (alter (fun d : dict => <["score" := VFloat x]> d) item (heap w))
        (trace w).

(** The score the reranker computes for the passage at [r], for a query
    whose raw embedding is [vq]: defined when the passage has a text that is
    not blank and that the provider embeds in the query's dimension. *)
Definition passage_score (embedder : SolarEmbedder) (vq : list float)
    (w : world) (r : loc) : option float :=
  match text_in w r with
  | VStr s =>
      if PyStr.strip_truthy s then
        match embed_query embedder s with
        | inr v =>
            if (List.length v =? List.length vq)%nat
            then Some (fsum (zip_with fmul (normalize_row vq) (normalize_row v)))
            else None
        | inl _ => None
        end
      else None
  | _ => None
  end.

(** Two scores are tied when neither is smaller than the other. *)
Definition tied (x y : float) : bool := negb (flt x y) && negb (flt y x).

(** The scores of a pool, in pool order. *)
Definition pool_scores (embedder : SolarEmbedder) (vq : list float)
    (w : world) (pool : list loc) : list float :=
  omap (passage_score embedder vq w) pool.

(** [float((q * c).sum())] for two 1-d arrays: the product is taken
    elementwise, a one-element array being broadcast against the other;
    other shapes do not multiply. *)
Definition dot_score (q c : list float) : option float :=
  if (List.length q =? List.length c)%nat
  then Some (fsum (zip_with fmul q c))
  else match q, c with
       | [x], _ => Some (fsum (fmul x <$> c))
       | _, [y] => Some (fsum ((fun x => fmul x y) <$> q))
       | _, _ => None
       end.

(** The score a call of [rerank_results] on [query] computes for the
    passage at [r], from the store as the call finds it: the provider's
    vectors for the query and for the passage text, normalized, multiplied
    and summed.  It is defined when both texts are not blank, both remote
    calls succeed and the two vectors multiply. *)
Definition rerank_score (embedder : SolarEmbedder) (query : string)
    (w : world) (r : loc) : option float :=
  match text_in w r with
  | VStr s =>
      if PyStr.strip_truthy query && PyStr.strip_truthy s then
        match embed_query embedder query, embed_query embedder s with
        | inr vq, inr v => dot_score (normalize_row vq) (normalize_row v)
        | _, _ => None
        end
      else None
  | _ => None
  end.

End Vocabulary.

(** ** A concrete arithmetic, to run the model on examples

    Integers stand for floats: the norm is the integer square root of the
    sum of squares and the clamp is at 1. *)

Module ZModel.

#[export] Instance ZFloat : FloatOps := {|
  float := Z;
  fmul := Z.mul;
  fdiv := Z.div;
  fsum := fun l => foldr Z.add 0%Z l;
  fnorm := fun l => Z.sqrt (foldr Z.add 0%Z ((fun x => x * x)%Z <$> l));
  fclip_eps := fun x => Z.max x 1;
  flt := Z.ltb;
  float_str := fun _ => "<float>";
|}.

Definition w0 : world := World [] [].

(** A query of the toy index's dimension, and one of another dimension. *)
Definition query_2d : ndarray := @Arr1 ZFloat [1; 0]%Z.
Definition query_3d : ndarray := @Arr1 ZFloat [1; 2; 3]%Z.

(** An embedder that knows three texts and fails on everything else. *)
Definition toy_embedder : SolarEmbedder := {|
  embed_query := fun t =>
    if String.eqb t "q" then inr [3; 0]%Z
    else if String.eqb t "alpha" then inr [5; 0]%Z
    else if String.eqb t "beta" then inr [0; 7]%Z
    else if String.eqb t "gamma" then inr [2; 0]%Z
    else inl (RemoteError "unavailable")
|}.

Definition toy_index : FaissIndex := {|
  index_d := 2;
  index_search := fun _ k =>
    inr ([[9; 8; 7; 0]%Z], [[1; 0; 5; -1]%Z]);
  metadata := [ {["text" := VStr "alpha"]}; {["text" := VStr "beta"]} ];
|}.

Definition egfr_text : string :=
  "The epidermal growth factor receptor is a transmembrane protein.".

(** The first title fails on the network, the second exists. *)
Definition toy_wiki : Wikipedia := {|
  page_exists := fun t =>
    if String.eqb t "Egfr Mutation" then inl (RemoteError "timeout")
    else if String.eqb t "EGFR" then inr true
    else inr false;
  page_text := fun _ => inr egfr_text;
|}.

(** The first title does not exist, the second does. *)
Definition toy_wiki_missing : Wikipedia := {|
  page_exists := fun t => if String.eqb t "EGFR" then inr true else inr false;
  page_text := fun _ => inr egfr_text;
|}.

(** A store of three passages, and one holding a passage without text. *)
Definition w3 : world :=
  World [ {["text" := VStr "gamma"]}; {["text" := VStr "beta"]};
          {["text" := VStr "alpha"]} ] [].
Definition w_blank : world :=
  World [ {["text" := VStr "alpha"]}; {["title" := VStr "untitled"]} ] [].

End ZModel.

(** ** IEEE 754 binary32, the arithmetic of [embeddings.py]

    [np.array(vectors, dtype="float32")] makes every operation of [encode]
    and of the reranker an operation on binary32 numbers, rounded to
    nearest even: the squares, sum and square root of
    [np.linalg.norm(arr, axis=1)], the [np.clip] at [1e-12], the division,
    the products and sum of a score.  The comparisons of the sort are made
    on the same values widened to Python floats, which changes no order.
    The operations are those of the Standard Library's [SpecFloat] at
    precision 24 and maximal exponent 128.  The vectors of the provider
    are taken as [np.array] holds them, rounded to binary32.

    NumPy chooses the order in which the elements of a row are added;
    [b32_sum] adds from left to right, which is the same thing for the rows
    of one and two elements of the examples.  The decimal rendering of a
    float by [str] is not modelled. *)

Module Binary32.
Import SpecFloat.

Definition prec : Z := 24.
Definition emax : Z := 128.

(** [float32(1e-12)], the lower bound of the clip: 9223372 * 2^-63. *)
Definition eps32 : spec_float := S754_finite false 9223372 (-63).

Definition b32_sum (l : list spec_float) : spec_float :=
  match l with
  | [] => S754_zero false
  | x :: rest => foldl (SFadd prec emax) x rest
  end.

(** [sqrt(add.reduce(x * x))] *)
Definition b32_norm (row : list spec_float) : spec_float :=
  SFsqrt prec emax (b32_sum ((fun x => SFmul prec emax x x) <$> row)).

(** [np.clip(x, eps, None)] is [np.maximum(x, eps)], which hands NaN on. *)
Definition b32_clip (x : spec_float) : spec_float :=
  if SFltb x eps32 then eps32 else x.

Definition F32 : FloatOps := {|
  float := spec_float;
  fmul := SFmul prec emax;
  fdiv := SFdiv prec emax;
  fsum := b32_sum;
  fnorm := b32_norm;
  fclip_eps := b32_clip;
  flt := SFltb;
  float_str := fun _ => "<float>";
|}.
#[local] Existing Instance F32.

(** The binary32 number equal to a small integer. *)
Definition b32_int (n : Z) : spec_float := binary_normalize prec emax n 0 false.

(** [float32(1e-13)] and [float32(3e38)]. *)
Definition tiny : spec_float := S754_finite false 14757395 (-67).
Definition huge : spec_float := S754_finite false 14791142 104.
(** [float32(0.5)] and [float32(1.0)]. *)
Definition half : spec_float := S754_finite false 8388608 (-24).
Definition one : spec_float := S754_finite false 8388608 (-23).


Definition is_nan (x : spec_float) : bool :=
  match x with S754_nan => true | _ => false end.

(** The place of a number that is not NaN on the line: sign class, then
    exponent, then mantissa, as the comparison reads them. *)
Definition rank (x : spec_float) : Z * Z * Z :=
  match x with
  | S754_nan => (0, 0, 0)
  | S754_infinity true => (-2, 0, 0)
  | S754_infinity false => (2, 0, 0)
  | S754_zero _ => (0, 0, 0)
  | S754_finite true m e => (-1, - e, - Zpos m)
  | S754_finite false m e => (1, e, Zpos m)
  end%Z.
Definition rank_lt (a b : Z * Z * Z) : Prop :=
  (a.1.1 < b.1.1
   \/ (a.1.1 = b.1.1
       /\ (a.1.2 < b.1.2 \/ (a.1.2 = b.1.2 /\ a.2 < b.2))))%Z.

Definition w0 : world := World [] [].

(** The embedder of the integer examples, in binary32, with two texts
    whose vectors are very short and very long. *)
Definition toy_embedder : SolarEmbedder := {|
  embed_query := fun t =>
    if String.eqb t "q" then inr [b32_int 3; b32_int 0]
    else if String.eqb t "alpha" then inr [b32_int 5; b32_int 0]
    else if String.eqb t "beta" then inr [b32_int 0; b32_int 7]
    else if String.eqb t "gamma" then inr [b32_int 2; b32_int 0]
    else if String.eqb t "delta" then inr [b32_int 3; b32_int 4]
    else if String.eqb t "tiny" then inr [tiny]
    else if String.eqb t "huge" then inr [huge]
    else inl (RemoteError "unavailable")
|}.

(** A store of three passages; the first carries a score from an earlier
    ranking. *)
Definition w3 : world :=
  World [ <["score" := VFloat (b32_int 7)]> {["text" := VStr "gamma"]};
          {["text" := VStr "beta"]};
          {["text" := VStr "alpha"]} ] [].

End Binary32.

(** ** Further vocabulary: tokens and titles *)

(** Every character of [s] satisfies [p]. *)
Definition sall (p : ascii -> bool) (s : string) : bool :=
  negb (PyStr.sexists (fun c => negb (p c)) s).

(** The shape the token pattern accepts: an alphanumeric character
    followed by alphanumerics, hyphens and apostrophes. *)
Definition token_ok (t : string) : bool :=
  match t with
  | EmptyString => false
  | String c r => PyStr.is_alnum c && sall PyStr.is_token_char r
  end.

Definition is_blank_char (c : ascii) : bool := (PyStr.code c =? 32)%nat.

(** ** Further vocabulary: the encyclopedia *)

Section WikiVocabulary.
Context {F : FloatOps}.

(** The calls one candidate title costs: the existence probe, and the text
    fetch when the topic exists. *)
Definition wiki_events (wiki : Wikipedia) (title : string) : list event :=
  match page_exists wiki title with
  | inr true => [EvWikiExists title; EvWikiText title]
  | _ => [EvWikiExists title]
  end.

(** A passage cut from the page of [title]: one of the first three lines
    of the page text that are longer than 50 characters once stripped. *)
Definition wiki_passage (wiki : Wikipedia) (title : string) (d : dict)
  : Prop :=
  exists text p,
    page_exists wiki title = inr true
    /\ page_text wiki title = inr text
    /\ p ∈ PyStr.split_lines text
    /\ (50 < String.length (PyStr.strip p))%nat
    /\ d = wiki_chunk p title.

(** The passages the lookup cuts from the page of [title]: one per line
    among the first three lines longer than 50 characters once stripped;
    none when the topic does not exist. *)
Definition page_passages (wiki : Wikipedia) (title : string) : list dict :=
  match page_exists wiki title, page_text wiki title with
  | inr true, inr text =>
      (fun p => wiki_chunk p title)
        <$> take 3 (filter (fun p => (50 < String.length (PyStr.strip p))%nat)
                           (PyStr.split_lines text))
  | _, _ => []
  end.

End WikiVocabulary.

(** ** Further vocabulary: the reranker *)

Section RerankVocabulary.
Context {F : FloatOps}.

(** The string the reranker sends to the provider for the passage at [r]. *)
Definition passage_text (w : world) (r : loc) : string :=
  match text_in w r with
  | VStr s => s
  | _ => EmptyString
  end.

(** The length of [l[:n]] for a list of length [len]. *)
Definition py_slice_length (n : Z) (len : nat) : nat :=
  if (0 <=? n)%Z then (len `min` Z.to_nat n)%nat
  else (len - Z.to_nat (- n))%nat.

End RerankVocabulary.

(** ** Loading the index ([vector_store.py], [FaissIndex.__init__]) *)

(** [for line in f] on a file opened in text mode: the lines of the
    content, each with its line end, which universal-newline reading turns
    into a single newline character whether it was LF, CR LF or CR; a last
    line without line end is kept as it is. *)
Fixpoint file_lines_from (cur : string) (s : string) : list string :=
  match s with
  | EmptyString =>
      match cur with EmptyString => [] | _ => [cur] end
  | String c r =>
      if (PyStr.code c =? 10)%nat
      then (cur ++ String PyStr.newline EmptyString) :: file_lines_from EmptyString r
      else if (PyStr.code c =? 13)%nat
      then match r with
           | String c2 r2 =>
               if (PyStr.code c2 =? 10)%nat
               then (cur ++ String PyStr.newline EmptyString)
                      :: file_lines_from EmptyString r2
               else (cur ++ String PyStr.newline EmptyString)
                      :: file_lines_from EmptyString r
           | EmptyString => [cur ++ String PyStr.newline EmptyString]
           end
      else file_lines_from (cur ++ String c EmptyString) r
  end.

Definition file_lines (content : string) : list string :=
  file_lines_from EmptyString content.

Section Loader.
Context {F : FloatOps}.

Inductive load_exn :=
| FileNotFoundError (index_path meta_path : string)
| LoadError (msg : string).   (* raised by [faiss.read_index], [open] or [json.loads] *)

(** What loading depends on: [os.path.exists], [faiss.read_index] (the
    dimension and the search function of the index it reads), the decoded
    content of a text file, and [json.loads] on one line (rows are JSON
    objects). *)
Record Disk := {
  path_exists : string -> bool;
  read_index :
    string ->
    load_exn
    + (nat * (list (list float) -> Z ->
              exn + (list (list float) * list (list Z))));
  read_text : string -> load_exn + string;
  json_loads : string -> load_exn + dict;
}.

(** The loop over the lines of the metadata file. *)
Fixpoint load_metadata (disk : Disk) (lines : list string)
    (metadata : list dict) : load_exn + list dict :=
  match lines with
  | [] => inr metadata
  | line :: rest =>
      if PyStr.strip_truthy line then
        match json_loads disk line with
        | inl e => inl e
        | inr row => load_metadata disk rest (metadata ++ [row])%list
        end
      else load_metadata disk rest metadata
  end.

(** [FaissIndex(index_path, meta_path)]; the two status lines it prints
    are not modelled. *)
Definition FaissIndex_init (disk : Disk) (index_path meta_path : string)
  : load_exn + FaissIndex :=
  if negb (path_exists disk index_path) || negb (path_exists disk meta_path)
  then inl (FileNotFoundError index_path meta_path)
  else
    match read_index disk index_path with
    | inl e => inl e
    | inr (d, search) =>
        match read_text disk meta_path with
        | inl e => inl e
        | inr content =>
            match load_metadata disk (file_lines content) [] with
            | inl e => inl e
            | inr rows =>
                inr {| index_d := d; index_search := search;
                       metadata := rows |}
            end
        end
    end.

(** The lines of the metadata file that hold a row. *)
Definition row_lines (content : string) : list string :=
  filter (fun line => PyStr.strip_truthy line = true) (file_lines content).

End Loader.

(** ** The debate ([llm/solver.py]) *)

(** A decimal literal such as [0.1]: mantissa and power of ten. *)
Record decimal := Decimal { mantissa : Z; exponent10 : Z }.

Inductive solver_exn :=
| RuntimeError (msg : string)
| FormatError (msg : string).      (* raised by [str.format] *)

(** Console lines and requests to the chat service. *)
Inductive solver_event :=
| SPrint (line : string)
| SPost (prompt : string) (temperature : decimal) (max_tokens : Z).

(** The chat service as the module sees it: the API key read at import
    time, and the POST with its status check, JSON decoding and extraction
    of the message content; whatever fails in there is an exception, given
    here by its [str(e)]. *)
Record Upstage := {
  UPSTAGE_API_KEY : option string;
  post_chat : string -> decimal -> Z -> string + string;
}.

Definition S (A : Type) : Type :=
  list solver_event -> (solver_exn + A) * list solver_event.

Definition sret {A} (a : A) : S A := fun tr => (inr a, tr).
Definition sraise {A} (e : solver_exn) : S A := fun tr => (inl e, tr).
Definition sbind {A B} (m : S A) (k : A -> S B) : S B :=
  fun tr => match m tr with
            | (inr a, tr') => k a tr'
            | (inl e, tr') => (inl e, tr')
            end.
Definition slog (ev : solver_event) : S unit :=
  fun tr => (inr tt, (tr ++ [ev])%list).
Definition slift {A} (r : solver_exn + A) : S A :=
  match r with inl e => sraise e | inr a => sret a end.

#[global] Instance S_ret : MRet S := @sret.
#[global] Instance S_bind : MBind S := fun A B k m => sbind m k.

Definition call_solar (api : Upstage) (prompt : string)
    (temperature : decimal) (max_tokens : Z) : S string :=
  match UPSTAGE_API_KEY api with
  | None =>
      sraise (RuntimeError "UPSTAGE_API_KEY is not set. Check your .env file.")
  | Some _ =>
      slog (SPost prompt temperature max_tokens) ;;
      match post_chat api prompt temperature max_tokens with
      | inr content => sret content
      | inl msg => sret ("[API Error] " ++ msg)
      end
  end.

(** [s.capitalize()] *)
Definition py_capitalize (s : string) : string :=
  match s with
  | EmptyString => EmptyString
  | String c r => String (PyStr.to_upper_char c) (PyStr.lower r)
  end.

Section Debate.
(** The prompt templates of [prompts.py] and Python's [str.format] (which
    raises on a template it cannot fill) are taken as given. *)
Variable AGENT_PROMPTS : gmap string string.
Variable str_format : string -> list (string * string) -> solver_exn + string.

(** [AGENT_PROMPTS.get(role)], if it is there and not empty. *)
Definition usable_template (role : string) : option string :=
  match AGENT_PROMPTS !! role with
  | Some EmptyString => None
  | Some t => Some t
  | None => None
  end.

Definition tenth : decimal := Decimal 1 (-1).

(** The loop over the three specialists. *)
Fixpoint consult (api : Upstage) (query context : string)
    (roles : list string) (reports : gmap string string)
  : S (gmap string string) :=
  match roles with
  | [] => sret reports
  | role :: rest =>
      slog (SPrint ("   [Debate] Consulting " ++ py_capitalize role
                    ++ " Specialist...")) ;;
      match usable_template role with
      | None =>
          consult api query context rest
            (<[role := "Error: Prompt template not found."]> reports)
      | Some prompt_template =>
          final_prompt ←
            slift (str_format prompt_template
                     [("context", context); ("question", query)]);
          response ← call_solar api final_prompt tenth 1000;
          consult api query context rest (<[role := response]> reports)
      end
  end.

(** [reports.get(role, "")] *)
Definition report_of (reports : gmap string string) (role : string) : string :=
  default EmptyString (reports !! role).

Definition moderator_args (query : string) (reports : gmap string string)
  : list (string * string) :=
  [ ("question", query);
    ("mechanism_report", report_of reports "mechanism");
    ("clinical_report", report_of reports "clinical");
    ("safety_report", report_of reports "safety") ].

Definition run_multidisciplinary_debate (api : Upstage)
    (query context : string) : S (gmap string string) :=
  slog (SPrint (nl ++ "   [Debate] Convening Tumor Board for: '" ++ query
                ++ "'")) ;;
  reports ← consult api query context ["mechanism"; "clinical"; "safety"] ∅;
  slog (SPrint
    "   [Debate] Chief Oncologist is synthesizing the final verdict...") ;;
  final_verdict ←
    match usable_template "moderator" with
    | Some moderator_template =>
        moderator_prompt ←
          slift (str_format moderator_template (moderator_args query reports));
        call_solar api moderator_prompt tenth 1500
    | None => sret "Error: Moderator prompt not found."
    end;
  sret (<["mechanism" := report_of reports "mechanism"]>
          (<["clinical" := report_of reports "clinical"]>
             (<["safety" := report_of reports "safety"]>
                {["final_verdict" := final_verdict]}))).

End Debate.

(** What a returned debate holds for a specialist: the fixed message when
    the role has no usable template, otherwise what [call_solar] handed back
    for the filled template. *)
Definition expected_report (AGENT_PROMPTS : gmap string string)
    (str_format : string -> list (string * string) -> solver_exn + string)
    (api : Upstage) (query context role : string) : option string :=
  match usable_template AGENT_PROMPTS role with
  | None => Some "Error: Prompt template not found."
  | Some t =>
      match str_format t [("context", context); ("question", query)] with
      | inr p =>
          Some (match post_chat api p (Decimal 1 (-1)) 1000 with
                | inr content => content
                | inl msg => "[API Error] " ++ msg
                end)
      | inl _ => None
      end
  end.

(** The requests among some events, oldest first. *)
Definition posts (evs : list solver_event) : list (string * Z) :=
  omap (fun ev => match ev with
                  | SPost prompt _ max_tokens => Some (prompt, max_tokens)
                  | SPrint _ => None
                  end) evs.

(** What [call_solar] hands back for a request. *)
Definition reply (api : Upstage) (prompt : string) (max_tokens : Z) : string :=
  match post_chat api prompt (Decimal 1 (-1)) max_tokens with
  | inr content => content
  | inl msg => "[API Error] " ++ msg
  end.

(** ** Further example data *)

Module ZExamples.
Import ZModel.

(** An index whose raw search yields slot ids below the sentinel, and whose
    second metadata row brings its own score and source. *)
Definition toy_index_low : FaissIndex := {|
  index_d := 2;
  index_search := fun _ k => inr ([[9; 8]%Z], [[-2; -5]%Z]);
  metadata :=
    [ {["text" := VStr "alpha"]};
      <["score" := VStr "stale"]> (<["source" := VStr "PubMed"]>
         {["text" := VStr "beta"]}) ];
|}.

Definition toy_index_own_fields : FaissIndex := {|
  index_d := 2;
  index_search := fun _ k => inr ([[9; 8]%Z], [[1; 0]%Z]);
  metadata := metadata toy_index_low;
|}.

(** A metadata file of two rows around a blank line, then a file whose
    second row is malformed. *)
Definition meta_text : string :=
  "{alpha}" ++ nl ++ "   " ++ nl ++ "{beta}" ++ nl.
Definition meta_text_bad : string :=
  "{alpha}" ++ nl ++ "oops" ++ nl ++ "{beta}" ++ nl.

Definition toy_disk : Disk := {|
  path_exists := fun p => String.eqb p "db.faiss" || String.eqb p "db.jsonl"
                          || String.eqb p "bad.jsonl";
  read_index := fun _ => inr (2%nat, index_search toy_index);
  read_text := fun p => if String.eqb p "db.jsonl" then inr meta_text
                        else inr meta_text_bad;
  json_loads := fun line =>
    if String.eqb line ("{alpha}" ++ nl) then inr {["text" := VStr "alpha"]}
    else if String.eqb line ("{beta}" ++ nl) then inr {["text" := VStr "beta"]}
    else inl (LoadError "JSONDecodeError");
|}.


(** A chat service that fails on one prompt, templates and a stand-in for
    [str.format] that appends the arguments to the template. *)
Definition toy_api : Upstage := {|
  UPSTAGE_API_KEY := Some "key";
  post_chat := fun prompt _ _ =>
    if String.prefix "C" prompt then inl "timeout" else inr ("re " ++ prompt);
|}.
Definition toy_api_no_key : Upstage := {|
  UPSTAGE_API_KEY := None;
  post_chat := post_chat toy_api;
|}.
Definition toy_prompts : gmap string string :=
  <["mechanism" := "M"]> (<["clinical" := "C"]> (<["safety" := "S"]>
     {["moderator" := "V"]})).
Definition toy_format (t : string) (args : list (string * string))
  : solver_exn + string :=
  inr (foldl (fun acc a => acc ++ "|" ++ a.2) t args).

(** A stand-in that, as [str.format] does, refuses some templates: here
    those with a brace. *)
Definition picky_format (t : string) (args : list (string * string))
  : solver_exn + string :=
  if PyStr.contains "{" t then inl (FormatError "KeyError")
  else toy_format t args.

End ZExamples.

Import ZModel.

(** * Properties *)

(** ** Reasoning about the monad *)

Ltac munfold :=
  unfold mbind, M_bind, mret, M_ret, bind, ret, raise, lift, log in *.

Section MonadLemmas.
Context {F : FloatOps}.

Lemma bind_return {A B} (m : M A) (k : A -> M B) w a w1 :
  m w = (Return a, w1) -> (m ≫= k) w = k a w1.
Proof. intros Hm. munfold. by rewrite Hm. Qed.

Lemma bind_raise {A B} (m : M A) (k : A -> M B) w e w1 :
  m w = (Raise e, w1) -> (m ≫= k) w = (Raise e, w1).
Proof. intros Hm. munfold. by rewrite Hm. Qed.

Lemma bind_inv {A B} (m : M A) (k : A -> M B) w b w' :
  (m ≫= k) w = (Return b, w') ->
  exists a w1, m w = (Return a, w1) /\ k a w1 = (Return b, w').
Proof.
  munfold. destruct (m w) as [[a|e] w1]; intros Hk; [eauto | discriminate].
Qed.

Lemma mapM_length {A B} (f : A -> M B) l w ys w' :
  mapM f l w = (Return ys, w') -> List.length ys = List.length l.
Proof.
  revert w ys w'. induction l as [|x l IH]; intros w ys w' H; simpl in H.
  - munfold. by inversion H.
  - apply (bind_inv (f x)) in H as (y & w1 & _ & H).
    apply (bind_inv (mapM f l)) in H as (ys' & w2 & Hl & H).
    munfold. inversion H; subst. simpl. f_equal. eauto.
Qed.

End MonadLemmas.

(** ** Title extraction *)

Example extract_EGFR_value :
  extract_candidate_titles "EGFR mutation analysis" 5
  = ["Egfr Mutation"; "Mutation Analysis"; "EGFR"; "Mutation"; "Analysis"].
Proof. vm_compute. reflexivity. Qed.

(** C5: on the query "EGFR mutation analysis" with at most 5 candidates the
    extracted titles include the fully-uppercase token "EGFR" unchanged and
    a bigram (a candidate with a space) containing "Mutation Analysis", and
    no candidate is a stop word: "of" is absent and no candidate lower-cases
    to a member of the stop-word set. *)
Theorem C5_extract_EGFR_mutation_analysis :
  let titles := extract_candidate_titles "EGFR mutation analysis" 5 in
  "EGFR" ∈ titles
  /\ PyStr.isupper "EGFR" = true
  /\ (exists c, c ∈ titles
               /\ PyStr.contains " " c = true
               /\ PyStr.contains "Mutation Analysis" c = true)
  /\ ("of" ∉ titles)
  /\ (forall c, c ∈ titles -> PyStr.lower c ∉ _STOPWORDS).
Proof.
  cbv zeta. rewrite extract_EGFR_value.
  split; [by apply (bool_decide_unpack _); vm_compute|].
  split; [reflexivity|].
  split.
  { exists "Mutation Analysis".
    split; [by apply (bool_decide_unpack _); vm_compute|]. split; reflexivity. }
  split; [by apply (bool_decide_unpack _); vm_compute|].
  apply Forall_forall.
  by apply (bool_decide_unpack _); vm_compute.
Qed.

(** ** Reranking an empty pool *)

(** C8: for every query and every top-k, reranking an empty candidate list
    returns the empty list at once; the world is unchanged, so the embedding
    provider has not been called (nothing was added to the trace). *)
Theorem C8_rerank_empty_no_embedding {F : FloatOps}
    (query : string) (embedder : SolarEmbedder) (top_k : Z) (w : world) :
  rerank_results query [] embedder top_k w = (Return [], w).
Proof. reflexivity. Qed.

(** ** The context builder and its sentinel *)

Section ContextLemmas.
Context {F : FloatOps}.

Lemma format_chunk_nonempty chunk w s w' :
  format_chunk chunk w = (Return s, w') -> s <> "".
Proof.
  unfold format_chunk. intros H.
  apply bind_inv in H as (src & w1 & _ & H).
  apply bind_inv in H as (t & w2 & _ & H).
  apply bind_inv in H as (text & w3 & _ & H).
  munfold. inversion H. discriminate.
Qed.

Lemma join_nonempty sep x xs : x <> "" -> PyStr.join sep (x :: xs) <> "".
Proof.
  intros Hx. destruct x as [|c x]; [done|]. simpl. by destruct xs.
Qed.

Lemma format_context_empty w :
  format_context [] w = (Return no_documents, w).
Proof. reflexivity. Qed.

Lemma format_context_nonempty best w s w' :
  format_context best w = (Return s, w') -> s <> "".
Proof.
  unfold format_context. intros H.
  apply bind_inv in H as (fs & w1 & Hfs & H).
  destruct fs as [|f fs].
  - munfold. inversion H. discriminate.
  - munfold. inversion H; subst. apply join_nonempty.
    destruct best as [|b best]; simpl in Hfs.
    + munfold. discriminate.
    + apply (bind_inv (format_chunk b)) in Hfs as (y & w2 & Hy & Hfs).
      apply (bind_inv (mapM format_chunk best)) in Hfs as (ys & w3 & _ & Hfs).
      munfold. inversion Hfs; subst. by eapply format_chunk_nonempty.
Qed.

End ContextLemmas.

(** C7: when the pooled and reranked passage set is empty the context
    builder returns the fixed sentinel "No relevant documents found."; this
    is the case for every query when no index is loaded and the
    encyclopedia is switched off (and then no collaborator is called at
    all); and no run of the builder ever returns the empty string. *)
Theorem C7_empty_result_sentinel {F : FloatOps} :
  no_documents = "No relevant documents found."
  /\ (forall wiki query embedder w,
        get_relevant_context wiki query embedder None false w
        = (Return no_documents, w))
  /\ (forall wiki query embedder vector_db use_wiki w pool w1 w2,
        collect_chunks wiki query embedder vector_db use_wiki w
          = (Return pool, w1) ->
        rerank_results query pool embedder 6 w1 = (Return [], w2) ->
        get_relevant_context wiki query embedder vector_db use_wiki w
          = (Return no_documents, w2))
  /\ (forall wiki query embedder vector_db use_wiki w s w',
        get_relevant_context wiki query embedder vector_db use_wiki w
          = (Return s, w') ->
        s <> "").
Proof.
  split; [reflexivity|]. split; [reflexivity|]. split.
  - intros wiki query embedder vector_db use_wiki w pool w1 w2 Hc Hr.
    unfold get_relevant_context.
    rewrite (bind_return _ _ _ _ _ Hc), (bind_return _ _ _ _ _ Hr).
    apply format_context_empty.
  - intros wiki query embedder vector_db use_wiki w s w' H.
    unfold get_relevant_context in H.
    apply bind_inv in H as (pool & w1 & _ & H).
    apply bind_inv in H as (best & w2 & _ & H).
    by eapply format_context_nonempty.
Qed.

(** ** The vector index reader *)

Section SearchLemmas.
Context {F : FloatOps}.

Lemma kept_hits_cons self score idx hits :
  kept_hits self ((score, idx) :: hits)
  = if slot_ok self idx then (score, idx) :: kept_hits self hits
    else kept_hits self hits.
Proof.
  unfold kept_hits. rewrite filter_cons. simpl.
  destruct (slot_ok self idx); by case_decide.
Qed.

Lemma search_loop_cons self score idx hits acc :
  search_loop self ((score, idx) :: hits) acc
  = if slot_ok self idx
    then match py_getitem (metadata self) idx with
         | None => raise IndexError
         | Some meta =>
             r ← alloc (hit_dict score meta);
             search_loop self hits (acc ++ [r])%list
         end
    else search_loop self hits acc.
Proof. simpl. unfold slot_ok. by destruct ((idx =? -1) || _)%Z. Qed.

Lemma search_loop_kept self hits acc w :
  search_loop self hits acc w = search_loop self (kept_hits self hits) acc w.
Proof.
  revert acc w. induction hits as [|[score idx] hits IH]; intros acc w.
  - reflexivity.
  - rewrite kept_hits_cons, search_loop_cons.
    destruct (slot_ok self idx) eqn:E; [|apply IH].
    rewrite search_loop_cons, E.
    destruct (py_getitem (metadata self) idx) as [meta|]; [|reflexivity].
    munfold. unfold alloc. apply IH.
Qed.

(** A location in the result is a fresh dictionary built from a kept hit. *)
Lemma search_loop_return self hits acc w res w' :
  search_loop self hits acc w = (Return res, w') ->
  exists dicts,
    heap w' = (heap w ++ dicts)%list
    /\ trace w' = trace w
    /\ res = (acc ++ seq (List.length (heap w)) (List.length dicts))%list
    /\ Forall2 (fun (d : dict) (h : float * Z) =>
                  exists meta, py_getitem (metadata self) h.2 = Some meta
                               /\ d = hit_dict h.1 meta)
               dicts (kept_hits self hits).
Proof.
  revert acc w. induction hits as [|[score idx] hits IH]; intros acc w H.
  - simpl in H. munfold. inversion H; subst. exists [].
    rewrite !app_nil_r. repeat split. constructor.
  - rewrite kept_hits_cons. rewrite search_loop_cons in H.
    destruct (slot_ok self idx) eqn:E; [|by apply IH].
    destruct (py_getitem (metadata self) idx) as [meta|] eqn:Hm;
      [|munfold; discriminate].
    munfold. unfold alloc in H. apply IH in H as (dicts & Hh & Ht & Hr & Hf).
    simpl in Hh, Ht, Hr. exists (hit_dict score meta :: dicts).
    rewrite Hh, <- app_assoc. split; [done|]. split; [done|]. split.
    + rewrite Hr, <- app_assoc. simpl. rewrite length_app. simpl.
      by rewrite Nat.add_1_r.
    + constructor; [|done]. by exists meta.
Qed.

(** A kept slot id that is not below the sentinel is a position of the
    metadata list. *)
Lemma py_getitem_kept self idx :
  slot_ok self idx = true -> (-1 <= idx)%Z ->
  is_Some (py_getitem (metadata self) idx).
Proof.
  unfold slot_ok, py_getitem. intros Hok Hge.
  apply negb_true_iff, orb_false_iff in Hok as [H1 H2].
  apply Z.eqb_neq in H1. apply Z.leb_gt in H2.
  assert (Hlt : (idx <? 0)%Z = false) by (apply Z.ltb_ge; lia).
  rewrite Hlt. cbv zeta.
  assert (Hin : ((idx <? 0) || (Z.of_nat (List.length (metadata self)) <=? idx))%Z = false).
  { apply orb_false_iff. split; [done|]. apply Z.leb_gt. lia. }
  rewrite Hin. apply lookup_lt_is_Some. lia.
Qed.

Lemma search_loop_total self hits acc w :
  Forall (fun h : float * Z => (-1 <= h.2)%Z) hits ->
  exists res w', search_loop self hits acc w = (Return res, w').
Proof.
  intros Hall. revert acc w.
  induction Hall as [|[score idx] hits Hge _ IH]; intros acc w.
  - simpl. munfold. eauto.
  - rewrite search_loop_cons. destruct (slot_ok self idx) eqn:E; [|apply IH].
    destruct (py_getitem_kept self idx) as [meta Hm]; [done..|].
    rewrite Hm. munfold. unfold alloc. apply IH.
Qed.

Lemma search_unfold self query_emb top_k w scores idxs s0 i0 :
  query_dim query_emb = Some (index_d self) ->
  index_search self (query_rows query_emb) top_k
    = inr (s0 :: scores, i0 :: idxs) ->
  FaissIndex_search self query_emb top_k w
  = search_loop self (zip s0 i0) []
      (logged (EvIndexSearch (query_rows query_emb) top_k) w).
Proof.
  intros Hd Hs. unfold FaissIndex_search.
  destruct query_emb as [x|v|n rows]; simpl in Hd, Hs; [done| |];
    inversion Hd as [Hd']; rewrite Nat.eqb_refl; simpl;
    unfold call_index_search; munfold; rewrite Hs; reflexivity.
Qed.

End SearchLemmas.

(** C2: for a query of the index's dimension and any k, the hits whose slot
    id is the sentinel -1 or is at or beyond the metadata length have no
    part in the search: the run equals the run over the remaining hits
    alone (the metadata list is never indexed with an excluded id), every
    returned passage is a fresh dictionary built from a remaining hit, so
    the result has as many entries as there are remaining hits, at most the
    number of raw hits and strictly fewer when some raw hit is excluded.
    When no raw id lies below -1 the search returns. *)
Theorem C2_search_excludes_invalid_slots {F : FloatOps}
    (self : FaissIndex) (query_emb : ndarray) (top_k : Z) (w : world)
    (scores : list (list float)) (idxs : list (list Z))
    (s0 : list float) (i0 : list Z) :
  query_dim query_emb = Some (index_d self) ->
  index_search self (query_rows query_emb) top_k
    = inr (s0 :: scores, i0 :: idxs) ->
  let hits := zip s0 i0 in
  let kept := kept_hits self hits in
  let w1 := logged (EvIndexSearch (query_rows query_emb) top_k) w in
  FaissIndex_search self query_emb top_k w = search_loop self kept [] w1
  /\ (forall h, h ∈ kept -> h.2 <> (-1)%Z
                /\ (h.2 < Z.of_nat (List.length (metadata self)))%Z)
  /\ (forall res w',
        FaissIndex_search self query_emb top_k w = (Return res, w') ->
        exists dicts,
          heap w' = (heap w ++ dicts)%list
          /\ res = seq (List.length (heap w)) (List.length dicts)
          /\ Forall2 (fun (d : dict) (h : float * Z) =>
                        exists meta,
                          py_getitem (metadata self) h.2 = Some meta
                          /\ d = hit_dict h.1 meta)
                     dicts kept
          /\ List.length res = List.length kept
          /\ (List.length res <= List.length hits)%nat
          /\ (kept <> hits -> (List.length res < List.length hits)%nat))
  /\ (Forall (fun i => (-1 <= i)%Z) i0 ->
      exists res w',
        FaissIndex_search self query_emb top_k w = (Return res, w')).
Proof.
  intros Hd Hs hits kept w1.
  pose proof (search_unfold self query_emb top_k w _ _ _ _ Hd Hs) as Hu.
  fold hits w1 in Hu. split; [|split; [|split]].
  - rewrite Hu. apply search_loop_kept.
  - intros h Hh. apply list_elem_of_filter in Hh as [Hok _].
    unfold slot_ok in Hok.
    apply negb_true_iff, orb_false_iff in Hok as [H1 H2].
    apply Z.eqb_neq in H1. apply Z.leb_gt in H2. done.
  - intros res w' Hr. rewrite Hu in Hr.
    apply search_loop_return in Hr as (dicts & Hh & _ & Hres & Hf).
    exists dicts. simpl in Hh, Hres. fold kept in Hf.
    assert (Hlen : List.length res = List.length kept).
    { rewrite Hres, length_seq. by eapply Forall2_length. }
    pose proof (length_filter (fun h : float * Z => slot_ok self h.2 = true) hits)
      as Hle.
    fold (kept_hits self hits) in Hle. fold kept in Hle.
    repeat split; try done; [lia|].
    intros Hne. destruct (decide (List.length kept = List.length hits)) as [E|]; [|lia].
    exfalso. apply Hne. unfold kept, kept_hits.
    clear -E. unfold kept, kept_hits in E.
    induction hits as [|h hits IH]; [done|].
    rewrite filter_cons in E |- *. case_decide; simpl in E.
    + f_equal. apply IH. lia.
    + pose proof (length_filter (fun h : float * Z => slot_ok self h.2 = true) hits).
      lia.
  - intros Hall. rewrite Hu. apply search_loop_total.
    unfold hits. clear -Hall. revert s0.
    induction Hall as [|i i0 Hi _ IH]; intros [|s s0]; simpl; constructor; eauto.
Qed.

Lemma C2_search_excludes_invalid_slots_witness :
  query_dim ZModel.query_2d = Some (index_d ZModel.toy_index)
  /\ FaissIndex_search ZModel.toy_index ZModel.query_2d 4 ZModel.w0
     = search_loop ZModel.toy_index [(9, 1); (8, 0)]%Z []
         (logged (EvIndexSearch (F:=ZModel.ZFloat) [[1; 0]%Z] 4) ZModel.w0)
  /\ exists res w',
       FaissIndex_search ZModel.toy_index ZModel.query_2d 4 ZModel.w0
       = (Return res, w')
       /\ (List.length res < 4)%nat.
Proof.
  destruct (C2_search_excludes_invalid_slots (F:=ZModel.ZFloat)
              ZModel.toy_index ZModel.query_2d
              4 ZModel.w0 [] [] [9; 8; 7; 0]%Z [1; 0; 5; -1]%Z
              eq_refl eq_refl) as (H1 & _ & H3 & H4).
  split; [reflexivity|]. split; [exact H1|].
  destruct H4 as (res & w' & Hr).
  { repeat constructor; vm_compute; discriminate. }
  exists res, w'. split; [exact Hr|].
  destruct (H3 res w' Hr) as (dicts & _ & _ & _ & _ & _ & Hlt).
  apply Hlt. vm_compute. discriminate.
Defined.

(** C3: a query whose dimension differs from the index's dimension makes
    [search] raise the dimension error, which is not a returned (possibly
    empty) result, and the world is left as it was: the underlying index has
    not been called and nothing has been allocated. *)
Theorem C3_dimension_mismatch_reported {F : FloatOps}
    (self : FaissIndex) (query_emb : ndarray) (top_k : Z) (w : world)
    (d : nat) :
  query_dim query_emb = Some d ->
  d <> index_d self ->
  FaissIndex_search self query_emb top_k w
    = (Raise (DimensionError (index_d self) d), w)
  /\ (forall res w',
        FaissIndex_search self query_emb top_k w <> (Return res, w'))
  /\ trace (FaissIndex_search self query_emb top_k w).2 = trace w.
Proof.
  intros Hd Hne.
  assert (H : FaissIndex_search self query_emb top_k w
              = (Raise (DimensionError (index_d self) d), w)).
  { unfold FaissIndex_search.
    destruct query_emb as [x|v|n rows]; simpl in Hd; [done| |];
      inversion Hd; subst d; apply Nat.eqb_neq in Hne; rewrite Hne;
      reflexivity. }
  rewrite H. repeat split. intros res w'. discriminate.
Qed.

Lemma C3_dimension_mismatch_reported_witness :
  query_dim ZModel.query_3d = Some 3%nat
  /\ 3%nat <> index_d ZModel.toy_index
  /\ FaissIndex_search ZModel.toy_index ZModel.query_3d 4 ZModel.w0
     = (Raise (DimensionError 2 3), ZModel.w0).
Proof.
  split; [reflexivity|]. split; [discriminate|].
  apply (C3_dimension_mismatch_reported (F:=ZModel.ZFloat)
           ZModel.toy_index ZModel.query_3d
           4 ZModel.w0 3); [reflexivity | discriminate].
Defined.

Lemma C7_empty_result_sentinel_witness :
  get_relevant_context ZModel.toy_wiki "q" ZModel.toy_embedder None false
    ZModel.w0 = (Return "No relevant documents found.", ZModel.w0)
  /\ "No relevant documents found." <> "".
Proof.
  destruct (@C7_empty_result_sentinel ZModel.ZFloat) as (_ & _ & H3 & H4).
  pose proof (H3 ZModel.toy_wiki "q" ZModel.toy_embedder None false
                ZModel.w0 [] ZModel.w0 ZModel.w0 eq_refl eq_refl) as H.
  split; [exact H|].
  exact (H4 ZModel.toy_wiki "q" ZModel.toy_embedder None false
            ZModel.w0 _ ZModel.w0 H).
Defined.

(** ** Failure of the embedding provider *)

Section EncodeLemmas.
Context {F : FloatOps}.

(** A text that is blank yields the empty array without any remote call. *)
Lemma encode_blank self s w :
  PyStr.strip_truthy s = false ->
  encode self (Text s) w = (Return (Arr1 []), w).
Proof.
  intros Hs. unfold encode. rewrite filter_cons, decide_False; [done|].
  by rewrite Hs.
Qed.

(** A failing remote call is caught: the error is printed and the empty
    array returned. *)
Lemma encode_failure self s e w :
  PyStr.strip_truthy s = true ->
  embed_query self s = inl e ->
  encode self (Text s) w
  = (Return (Arr1 []),
     logged (EvPrintEmbeddingError e) (logged (EvEmbedQuery s) w)).
Proof.
  intros Hs He. unfold encode. rewrite filter_cons, decide_True by done.
  simpl. unfold try_except, call_embed_query. munfold. by rewrite He.
Qed.

(** A successful remote call yields the one-row array of the normalized
    vector. *)
Lemma encode_success self s v w :
  embeds self s v ->
  encode self (Text s) w
  = (Return (Arr2 (List.length v) [normalize_row v]),
     logged (EvEmbedQuery s) w).
Proof.
  intros [Hs He]. unfold encode. rewrite filter_cons, decide_True by done.
  simpl. unfold try_except, call_embed_query. munfold. by rewrite He.
Qed.

(** When [encode(s)[0]] is defined, the provider has embedded [s]: the
    row is the provider's vector, normalized. *)
Lemma encode_first_inv self s w q w1 q_emb w2 :
  encode self (Text s) w = (Return q, w1) ->
  getitem0 q w1 = (Return q_emb, w2) ->
  exists v,
    embeds self s v
    /\ q = Arr2 (List.length v) [normalize_row v]
    /\ q_emb = Arr1 (normalize_row v)
    /\ w1 = logged (EvEmbedQuery s) w
    /\ w2 = w1.
Proof.
  intros Henc Hget.
  destruct (PyStr.strip_truthy s) eqn:Hs.
  - destruct (embed_query self s) as [e|v] eqn:He.
    + rewrite (encode_failure self s e w Hs He) in Henc.
      injection Henc as <- <-. discriminate.
    + rewrite (encode_success self s v w (conj Hs He)) in Henc.
      injection Henc as <- <-. simpl in Hget. munfold.
      injection Hget as <- <-. exists v. by repeat split.
  - rewrite (encode_blank self s w Hs) in Henc.
    injection Henc as <- <-. discriminate.
Qed.

(** The search driver indexes the empty array. *)
Lemma search_faiss_index_empty_embedding query embedder index top_k tag w w1 :
  encode embedder (Text query) w = (Return (Arr1 []), w1) ->
  search_faiss_index query embedder index top_k tag w = (Raise IndexError, w1).
Proof.
  intros He. unfold search_faiss_index. by rewrite (bind_return _ _ _ _ _ He).
Qed.

(** So does the reranker, on the query. *)
Lemma rerank_results_empty_embedding query item pool embedder top_k w w1 :
  encode embedder (Text query) w = (Return (Arr1 []), w1) ->
  rerank_results query (item :: pool) embedder top_k w
  = (Raise IndexError, w1).
Proof.
  intros He. unfold rerank_results. by rewrite (bind_return _ _ _ _ _ He).
Qed.

End EncodeLemmas.

(** C1: the provider does report a failure, or an input left empty by the
    blank filter, as an empty array; the callers index that array at 0.
    With a failing provider the search driver, the reranker and the context
    builder all end in [IndexError]; so does the reranker on a pool holding
    a passage without text. *)
Theorem C1_callers_index_empty_embedding :
  encode ZModel.toy_embedder (Text "zzz") ZModel.w0
    = (Return (Arr1 []),
       World [] [EvEmbedQuery "zzz";
                 EvPrintEmbeddingError (RemoteError "unavailable")])
  /\ encode ZModel.toy_embedder (Texts [""; "  "]) ZModel.w0
     = (Return (Arr1 []), ZModel.w0)
  /\ search_faiss_index "zzz" ZModel.toy_embedder ZModel.toy_index 4
       "Paper_DB" ZModel.w0
     = (Raise IndexError,
        World [] [EvEmbedQuery "zzz";
                  EvPrintEmbeddingError (RemoteError "unavailable")])
  /\ (get_relevant_context ZModel.toy_wiki "zzz" ZModel.toy_embedder
        (Some ZModel.toy_index) false ZModel.w0).1
     = Raise IndexError
  /\ (rerank_results "zzz" [0; 1]%nat ZModel.toy_embedder 8 ZModel.w_blank).1
     = Raise IndexError
  /\ (rerank_results "q" [0; 1]%nat ZModel.toy_embedder 8 ZModel.w_blank).1
     = Raise IndexError.
Proof. repeat split; vm_compute; reflexivity. Qed.

(** ** Encyclopedia lookup *)




(** ** The store under the reranker *)

Section StoreLemmas.
Context {F : FloatOps}.

Lemma dict_get_spec r key dflt w :
  dict_get r key dflt w = (Return (default dflt (field_in w r key)), w).
Proof.
  unfold dict_get, deref, field_in. munfold.
  by destruct (heap w !! r).
Qed.

Lemma getitem_spec r key w :
  getitem r key w
  = (match field_in w r key with
     | Some v => Return v
     | None => Raise (KeyError key)
     end, w).
Proof.
  unfold getitem, deref, field_in. munfold.
  destruct (heap w !! r) as [d|]; simpl; [by destruct (d !! key)|].
  by rewrite lookup_empty.
Qed.

Lemma setitem_score item x w :
  setitem item "score" (VFloat x) w = (Return tt, set_score item x w).
Proof. reflexivity. Qed.

Lemma field_in_set_score_other item x w r key :
  key <> "score" ->
  field_in (set_score item x w) r key = field_in w r key.
Proof.
  intros Hk. unfold field_in, set_score. simpl.
  destruct (decide (item = r)) as [->|Hne].
  - rewrite list_lookup_alter_eq. destruct (heap w !! r) as [d|]; simpl; [|done].
    by rewrite lookup_insert_ne.
  - by rewrite list_lookup_alter_ne.
Qed.

Lemma score_in_set_score item x w :
  (item < List.length (heap w))%nat ->
  score_in (set_score item x w) item = Some x.
Proof.
  intros Hlt. unfold score_in, field_in, set_score. simpl.
  rewrite list_lookup_alter_eq.
  destruct (lookup_lt_is_Some_2 _ _ Hlt) as [d Hd]. rewrite Hd. simpl.
  by rewrite lookup_insert_eq.
Qed.

Lemma lookup_set_score_ne item x w r :
  item <> r -> heap (set_score item x w) !! r = heap w !! r.
Proof. intros Hne. unfold set_score. simpl. by rewrite list_lookup_alter_ne. Qed.

Lemma length_set_score item x w :
  List.length (heap (set_score item x w)) = List.length (heap w).
Proof. unfold set_score. simpl. apply length_alter. Qed.

Lemma score_in_set_score_is_Some item x w r :
  is_Some (score_in w r) -> is_Some (score_in (set_score item x w) r).
Proof.
  intros Hs. destruct (decide (item = r)) as [->|Hne].
  - rewrite score_in_set_score; [done|].
    unfold score_in, field_in in Hs. apply lookup_lt_is_Some.
    destruct (heap w !! r); [done|]. simpl in Hs. by destruct Hs.
  - unfold score_in, field_in in *. by rewrite lookup_set_score_ne.
Qed.

(** The embedding provider never touches the store. *)
Lemma mapM_call_embed_heap self l w :
  heap (mapM (call_embed_query self) l w).2 = heap w.
Proof.
  revert w. induction l as [|t l IH]; intros w; [done|].
  simpl. unfold call_embed_query at 1. munfold.
  destruct (embed_query self t) as [e|v]; simpl; [done|].
  specialize (IH (World (heap w) (trace w ++ [EvEmbedQuery t]))).
  destruct (mapM _ l _) as [[ys|e] w1]; simpl in *; done.
Qed.

Lemma encode_heap self texts w : heap (encode self texts w).2 = heap w.
Proof.
  unfold encode.
  destruct (filter _ _) as [|t l] eqn:E; [done|].
  unfold try_except. munfold.
  pose proof (mapM_call_embed_heap self (t :: l) w) as Hh.
  destruct (mapM _ (t :: l) w) as [[vs|e] w1]; simpl in Hh; [|done].
  unfold np_array. munfold. destruct vs as [|v vs]; [done|].
  by destruct (forallb _ vs).
Qed.

Lemma encode_value_heap self v w : heap (encode_value self v w).2 = heap w.
Proof. destruct v; simpl; [apply encode_heap | done..]. Qed.

Lemma getitem0_world a w : (getitem0 a w).2 = w.
Proof. by destruct a as [x|[|x v]|n [|r rows]]. Qed.

Lemma np_mul_world a b w : (np_mul a b w).2 = w.
Proof.
  destruct a as [x|u|n rows], b as [y|v|m rows']; simpl; try done.
  destruct (_ =? _)%nat; [done|].
  destruct u as [|x [|x' u]], v as [|y [|y' v]]; done.
Qed.

(** The product computed by the loop is the one [dot_score] describes. *)
Lemma np_mul_dot_score q c w prod w' :
  np_mul (Arr1 q) (Arr1 c) w = (Return prod, w') ->
  dot_score q c = Some (np_sum prod).
Proof.
  unfold np_mul, dot_score.
  destruct (_ =? _)%nat; [munfold; by intros [= <- <-]|].
  destruct q as [|x [|x' q]], c as [|y [|y' c]]; munfold;
    by intros [= <- <-].
Qed.

(** A passage whose text is not blank is in the store. *)
Lemma text_in_live w r s :
  text_in w r = VStr s -> PyStr.strip_truthy s = true ->
  (r < List.length (heap w))%nat.
Proof.
  unfold text_in, field_in. intros Ht Hs.
  destruct (heap w !! r) as [d|] eqn:Hd; [by eapply lookup_lt_Some|].
  simpl in Ht. injection Ht as <-. discriminate.
Qed.

End StoreLemmas.

(** ** The scoring loop and the sort *)

Section RerankLemmas.
Context {F : FloatOps}.

Lemma field_in_heap_eq w1 w r key :
  heap w1 = heap w -> field_in w1 r key = field_in w r key.
Proof. unfold field_in. by intros ->. Qed.

Lemma score_in_heap_eq w1 w r :
  heap w1 = heap w -> score_in w1 r = score_in w r.
Proof. intros H. unfold score_in. by rewrite (field_in_heap_eq _ _ _ _ H). Qed.

(** One round of the loop that does not raise scores the item in place. *)
Lemma rerank_loop_step_inv embedder q_emb item rest acc w out w' :
  rerank_loop embedder q_emb (item :: rest) acc w = (Return out, w') ->
  exists x w1,
    heap w1 = heap w
    /\ rerank_loop embedder q_emb rest (acc ++ [item])%list
         (set_score item x w1) = (Return out, w').
Proof.
  simpl. intros H.
  apply bind_inv in H as (c_text & w1 & Hget & H).
  rewrite dict_get_spec in Hget. inversion Hget; subst w1. clear Hget.
  apply bind_inv in H as (c & w2 & Henc & H).
  pose proof (encode_value_heap embedder c_text w) as Hh2.
  rewrite Henc in Hh2. simpl in Hh2.
  apply bind_inv in H as (c_emb & w3 & Hg0 & H).
  pose proof (getitem0_world c w2) as Hw3. rewrite Hg0 in Hw3.
  simpl in Hw3. subst w3.
  apply bind_inv in H as (prod & w4 & Hmul & H).
  pose proof (np_mul_world q_emb c_emb w2) as Hw4. rewrite Hmul in Hw4.
  simpl in Hw4. subst w4.
  apply bind_inv in H as ([] & w5 & Hset & H).
  rewrite setitem_score in Hset. inversion Hset; subst w5.
  eauto.
Qed.

Lemma rerank_loop_return embedder q_emb cands acc w out w' :
  rerank_loop embedder q_emb cands acc w = (Return out, w') ->
  out = (acc ++ cands)%list
  /\ List.length (heap w') = List.length (heap w)
  /\ (forall r key, key <> "score" -> field_in w' r key = field_in w r key)
  /\ (forall r, r ∉ cands -> heap w' !! r = heap w !! r)
  /\ (forall r, (r ∈ cands /\ (r < List.length (heap w))%nat)
                \/ is_Some (score_in w r) ->
                is_Some (score_in w' r)).
Proof.
  revert acc w. induction cands as [|item rest IH]; intros acc w H.
  - simpl in H. munfold. inversion H; subst. rewrite app_nil_r.
    repeat split; try done. intros r [[Hr _]|Hr]; [|done].
    by apply elem_of_nil in Hr.
  - apply rerank_loop_step_inv in H as (x & w1 & Hh & H).
    apply IH in H as (Hout & Hlen & Hfld & Hoth & Hsc).
    rewrite length_set_score, Hh in Hlen.
    split; [by rewrite Hout, <- app_assoc|]. split; [done|].
    split; [|split].
    + intros r key Hk. rewrite Hfld, field_in_set_score_other by done.
      by apply field_in_heap_eq.
    + intros r Hr. apply not_elem_of_cons in Hr as [Hne Hr].
      rewrite Hoth, lookup_set_score_ne by done. by rewrite Hh.
    + intros r Hr. apply Hsc.
      destruct Hr as [[Hr Hlt]|Hr].
      * apply elem_of_cons in Hr as [->|Hr].
        -- right. rewrite score_in_set_score; [done|]. by rewrite Hh.
        -- left. by rewrite length_set_score, Hh.
      * right. apply score_in_set_score_is_Some.
        by rewrite (score_in_heap_eq _ _ _ Hh).
Qed.

Lemma sort_key_spec r w :
  sort_key r w
  = (match field_in w r "score" with
     | Some (VFloat s) => Return s
     | Some _ => Raise TypeError
     | None => Raise (KeyError "score")
     end, w).
Proof.
  unfold sort_key. munfold. rewrite getitem_spec.
  by destruct (field_in w r "score") as [[]|].
Qed.

Lemma mapM_sort_key_return items w keys w' :
  mapM sort_key items w = (Return keys, w') ->
  w' = w /\ Forall2 (fun r k => score_in w r = Some k) items keys.
Proof.
  revert keys w'. induction items as [|r items IH]; intros keys w' H; simpl in H.
  - munfold. inversion H. split; [done|constructor].
  - apply (bind_inv (sort_key r)) in H as (k & w1 & Hk & H).
    rewrite sort_key_spec in Hk.
    apply (bind_inv (mapM sort_key items)) in H as (ks & w2 & Hks & H).
    assert (w1 = w) as -> by (by inversion Hk).
    apply IH in Hks as [-> Hks]. munfold. injection H as <- <-.
    split; [done|]. constructor; [|done].
    unfold score_in. destruct (field_in w r "score") as [[]|]; by inversion Hk.
Qed.

Lemma mapM_sort_key_total items w keys :
  Forall2 (fun r k => score_in w r = Some k) items keys ->
  mapM sort_key items w = (Return keys, w).
Proof.
  induction 1 as [|r k items keys Hk _ IH]; [done|].
  simpl. munfold. rewrite sort_key_spec.
  unfold score_in in Hk. destruct (field_in w r "score") as [[]|]; try done.
  inversion Hk; subst. by rewrite IH.
Qed.

Lemma insert_desc_perm x l : insert_desc x l ≡ₚ x :: l.
Proof.
  induction l as [|y l IH]; simpl; [done|].
  destruct (flt x.1 y.1); [|done]. rewrite IH. apply Permutation_swap.
Qed.

Lemma sort_desc_perm l : sort_desc l ≡ₚ l.
Proof.
  induction l as [|x l IH]; simpl; [done|].
  fold (sort_desc l). by rewrite insert_desc_perm, IH.
Qed.

Lemma sorted_items_perm (keys : list float) (items : list loc) :
  List.length keys = List.length items ->
  (sort_desc (zip keys items)).*2 ≡ₚ items.
Proof.
  intros Hlen. rewrite sort_desc_perm. rewrite snd_zip; [done|lia].
Qed.

Lemma py_slice_to_subseteq {A} (n : Z) (l : list A) : py_slice_to n l ⊆ l.
Proof.
  unfold py_slice_to. destruct (0 <=? n)%Z;
    apply sublist_subseteq, sublist_take.
Qed.

(** One round of the loop that does not raise: the passage has a text the
    provider embeds, and the score written is the sum of the products. *)
Lemma rerank_loop_step_score embedder qn item rest acc w out w' :
  rerank_loop embedder (Arr1 qn) (item :: rest) acc w = (Return out, w') ->
  exists s v x,
    text_in w item = VStr s
    /\ embeds embedder s v
    /\ dot_score qn (normalize_row v) = Some x
    /\ rerank_loop embedder (Arr1 qn) rest (acc ++ [item])%list
         (set_score item x (logged (EvEmbedQuery s) w)) = (Return out, w').
Proof.
  simpl. intros H.
  apply bind_inv in H as (c_text & w1 & Hget & H).
  rewrite dict_get_spec in Hget. injection Hget as <- <-.
  fold (text_in w item) in H.
  apply bind_inv in H as (c & w2 & Henc & H).
  destruct (text_in w item) as [s| |] eqn:Ht; simpl in Henc;
    [|munfold; discriminate..].
  apply bind_inv in H as (c_emb & w3 & Hg0 & H).
  destruct (encode_first_inv _ _ _ _ _ _ _ Henc Hg0)
    as (v & Hv & -> & -> & -> & ->).
  apply bind_inv in H as (prod & w4 & Hmul & H).
  change (np_mul (Arr1 qn) (Arr1 (normalize_row v))
            (logged (EvEmbedQuery s) w) = (Return prod, w4)) in Hmul.
  pose proof (np_mul_world (Arr1 qn) (Arr1 (normalize_row v))
                (logged (EvEmbedQuery s) w)) as Hw4.
  rewrite Hmul in Hw4. simpl in Hw4. subst w4.
  apply np_mul_dot_score in Hmul.
  apply bind_inv in H as ([] & w5 & Hset & H).
  rewrite setitem_score in Hset. injection Hset as <-.
  exists s, v, (np_sum prod).
  split; [done|]. split; [done|]. split; [done|]. exact H.
Qed.

(** A loop that returns has given every candidate the score computed from
    its text. *)
Lemma rerank_loop_scores embedder qn cands acc w out w' :
  rerank_loop embedder (Arr1 qn) cands acc w = (Return out, w') ->
  forall r, r ∈ cands ->
    exists s v x,
      text_in w r = VStr s
      /\ embeds embedder s v
      /\ dot_score qn (normalize_row v) = Some x
      /\ score_in w' r = Some x.
Proof.
  revert acc w. induction cands as [|item rest IH]; intros acc w H r Hr.
  { by apply elem_of_nil in Hr. }
  apply rerank_loop_step_score in H as (s & v & x & Ht & Hv & Hx & H).
  set (w1 := set_score item x (logged (EvEmbedQuery s) w)) in *.
  assert (Htext : forall r', text_in w1 r' = text_in w r').
  { intros r'. unfold text_in, w1.
    by rewrite field_in_set_score_other. }
  destruct (decide (r ∈ rest)) as [Hin|Hnin].
  - destruct (IH _ _ H r Hin) as (s' & v' & x' & Ht' & Hv' & Hx' & Hs').
    rewrite Htext in Ht'. by exists s', v', x'.
  - apply elem_of_cons in Hr as [->|Hr]; [|done].
    exists s, v, x. repeat split; try done; [apply Hv..|].
    apply rerank_loop_return in H as (_ & _ & _ & Hoth & _).
    unfold score_in, field_in. rewrite (Hoth _ Hnin).
    fold (field_in w1 item "score"). fold (score_in w1 item).
    unfold w1. apply score_in_set_score. simpl.
    destruct Hv as [Hs _]. by apply (text_in_live w item s).
Qed.

(** A call that returns has given every passage of the pool the score it
    computes for it. *)
Lemma rerank_results_scores query pool embedder top_k w res w' :
  rerank_results query pool embedder top_k w = (Return res, w') ->
  forall r, r ∈ pool ->
    exists x, rerank_score embedder query w r = Some x
              /\ score_in w' r = Some x.
Proof.
  intros H r Hr. unfold rerank_results in H.
  destruct pool as [|item pool]; [by apply elem_of_nil in Hr|].
  set (cands := item :: pool) in *.
  apply bind_inv in H as (q & w1 & Hq & H).
  apply bind_inv in H as (q_emb & w2 & Hq0 & H).
  destruct (encode_first_inv _ _ _ _ _ _ _ Hq Hq0)
    as (vq & [Hsq Hvq] & -> & -> & -> & ->).
  apply bind_inv in H as (scored & w3 & Hloop & H).
  destruct (rerank_loop_scores _ _ _ _ _ _ _ Hloop r Hr)
    as (s & v & x & Ht & [Hs Hv] & Hx & Hsc).
  apply bind_inv in H as (sorted & w4 & Hsort & H).
  unfold sort_by_score_reverse in Hsort.
  apply bind_inv in Hsort as (keys & w5 & Hkeys & Hsort).
  apply mapM_sort_key_return in Hkeys as [-> _].
  munfold. injection Hsort as <- <-. injection H as <- <-.
  exists x. split; [|done].
  unfold rerank_score.
  replace (text_in w r) with (VStr s). by rewrite Hsq, Hs, Hvq, Hv.
Qed.

End RerankLemmas.



(** ** Order and stability of the sort *)

Section SortLemmas.
Context {F : FloatOps}.

Lemma strict_weak_on_spec (keys : list float) :
  strict_weak_on keys = true <->
  (forall x, x ∈ keys -> flt x x = false)
  /\ (forall x y z, x ∈ keys -> y ∈ keys -> z ∈ keys ->
        (flt x y = true -> flt y z = true -> flt x z = true)
        /\ (flt x z = true -> flt x y = true \/ flt y z = true)).
Proof.
  unfold strict_weak_on. rewrite andb_true_iff, !forallb_forall. split.
  - intros [H1 H2]. split.
    + intros x Hx. apply negb_true_iff, H1. by apply list_elem_of_In.
    + intros x y z Hx Hy Hz.
      apply list_elem_of_In in Hx, Hy, Hz.
      specialize (H2 x Hx). rewrite forallb_forall in H2.
      specialize (H2 y Hy). rewrite forallb_forall in H2.
      specialize (H2 z Hz). apply andb_true_iff in H2 as [Ht Hn].
      split.
      * intros Hxy Hyz. rewrite Hxy, Hyz in Ht. simpl in Ht.
        by destruct (flt x z).
      * intros Hxz. rewrite Hxz in Hn. simpl in Hn.
        by apply orb_true_iff in Hn.
  - intros [H1 H2]. split.
    + intros x Hx. apply negb_true_iff, H1. by apply list_elem_of_In.
    + intros x Hx. apply forallb_forall. intros y Hy.
      apply forallb_forall. intros z Hz.
      apply list_elem_of_In in Hx, Hy, Hz.
      destruct (H2 x y z Hx Hy Hz) as [Ht Hn].
      apply andb_true_iff. split.
      * destruct (flt x y); [|done]. destruct (flt y z); [|done].
        simpl. by rewrite Ht.
      * destruct (flt x z); [|done]. simpl.
        apply orb_true_iff. by apply Hn.
Qed.

Context (keys : list float) (Hord : strict_weak_on keys = true).

Lemma flt_irrefl (x : float) : x ∈ keys -> flt x x = false.
Proof. apply strict_weak_on_spec in Hord as [H _]. apply H. Qed.

Lemma flt_trans (x y z : float) :
  x ∈ keys -> y ∈ keys -> z ∈ keys ->
  flt x y = true -> flt y z = true -> flt x z = true.
Proof.
  intros Hx Hy Hz. apply strict_weak_on_spec in Hord as [_ H].
  by apply (H x y z).
Qed.

Lemma flt_neg_trans (x y z : float) :
  x ∈ keys -> y ∈ keys -> z ∈ keys ->
  flt x z = true -> flt x y = true \/ flt y z = true.
Proof.
  intros Hx Hy Hz. apply strict_weak_on_spec in Hord as [_ H].
  by apply (H x y z).
Qed.

Lemma flt_asym (x y : float) :
  x ∈ keys -> y ∈ keys -> flt x y = true -> flt y x = false.
Proof.
  intros Hx Hy Hxy. destruct (flt y x) eqn:Hyx; [|done].
  pose proof (flt_trans x y x Hx Hy Hx Hxy Hyx) as Hxx.
  by rewrite flt_irrefl in Hxx.
Qed.

(** "Not smaller than" is transitive. *)
Lemma flt_ge_trans (x y z : float) :
  x ∈ keys -> y ∈ keys -> z ∈ keys ->
  flt x y = false -> flt y z = false -> flt x z = false.
Proof.
  intros Hx Hy Hz Hxy Hyz. destruct (flt x z) eqn:Hxz; [|done].
  destruct (flt_neg_trans x y z Hx Hy Hz Hxz) as [H|H]; congruence.
Qed.

(** Two scores tied with a third are not strictly ordered. *)
Lemma tied_not_flt (x y k : float) :
  x ∈ keys -> y ∈ keys -> k ∈ keys ->
  tied x k = true -> tied y k = true -> flt x y = false.
Proof.
  unfold tied. intros Hxin Hyin Hkin Hx Hy.
  apply andb_true_iff in Hx as [Hxk Hkx]. apply andb_true_iff in Hy as [Hyk Hky].
  apply negb_true_iff in Hxk, Hkx, Hyk, Hky.
  destruct (flt x y) eqn:Hxy; [|done].
  destruct (flt_neg_trans x k y Hxin Hkin Hyin Hxy) as [H|H]; congruence.
Qed.

Lemma insert_desc_sorted (x : float * loc) l :
  x.1 ∈ keys ->
  Forall (fun p : float * loc => p.1 ∈ keys) l ->
  StronglySorted (fun a b : float * loc => flt a.1 b.1 = false) l ->
  StronglySorted (fun a b : float * loc => flt a.1 b.1 = false)
                 (insert_desc x l).
Proof.
  intros Hx Hl Hs.
  induction Hs as [|y l Hs IH Hy]; simpl; [by repeat constructor|].
  apply Forall_cons in Hl as [Hyk Hl].
  destruct (flt x.1 y.1) eqn:Hxy.
  - constructor; [by apply IH|]. rewrite insert_desc_perm.
    constructor; [by apply flt_asym | done].
  - constructor; [by constructor|]. constructor; [done|].
    apply Forall_forall. intros z Hz.
    rewrite Forall_forall in Hy, Hl.
    apply (flt_ge_trans x.1 y.1 z.1); auto.
Qed.

Lemma sort_desc_sorted (l : list (float * loc)) :
  Forall (fun p : float * loc => p.1 ∈ keys) l ->
  StronglySorted (fun a b : float * loc => flt a.1 b.1 = false) (sort_desc l).
Proof.
  induction 1 as [|x l Hx Hl IH]; simpl; [constructor|].
  apply insert_desc_sorted; [done| |done].
  fold (sort_desc l). by rewrite sort_desc_perm.
Qed.

(** Stability: among the elements tied with a given score, the sort keeps
    the order of the input. *)
Lemma insert_desc_stable (k : float) (x : float * loc) l :
  k ∈ keys -> x.1 ∈ keys ->
  Forall (fun p : float * loc => p.1 ∈ keys) l ->
  filter (fun p : float * loc => tied p.1 k = true) (insert_desc x l)
  = filter (fun p : float * loc => tied p.1 k = true) (x :: l).
Proof.
  intros Hk Hx Hl. induction Hl as [|y l Hy Hl IH]; simpl; [done|].
  destruct (flt x.1 y.1) eqn:Hxy; [|done].
  rewrite filter_cons, IH, !filter_cons.
  destruct (decide (tied y.1 k = true)) as [Hyt|Hyt];
    destruct (decide (tied x.1 k = true)) as [Hxt|Hxt]; try done.
  pose proof (tied_not_flt _ _ _ Hx Hy Hk Hxt Hyt). congruence.
Qed.

Lemma sort_desc_stable (k : float) (l : list (float * loc)) :
  k ∈ keys ->
  Forall (fun p : float * loc => p.1 ∈ keys) l ->
  filter (fun p : float * loc => tied p.1 k = true) (sort_desc l)
  = filter (fun p : float * loc => tied p.1 k = true) l.
Proof.
  intros Hk. induction 1 as [|x l Hx Hl IH]; simpl; [done|].
  fold (sort_desc l). rewrite insert_desc_stable, !filter_cons, IH; [done..|].
  by rewrite sort_desc_perm.
Qed.

End SortLemmas.

(** The keys of a ranking are the scores of the pool. *)
Lemma omap_Forall2 {A B} (f : A -> option B) (l : list A) (ks : list B) :
  Forall2 (fun r k => f r = Some k) l ks -> omap f l = ks.
Proof.
  induction 1 as [|r k l ks Hk _ IH]; [done|].
  simpl. rewrite Hk. simpl. f_equal. exact IH.
Qed.

Lemma zip_keys_in {A B} (ks : list A) (rs : list B) :
  Forall (fun p : A * B => p.1 ∈ ks) (zip ks rs).
Proof.
  revert rs. induction ks as [|k ks IH]; intros [|r rs]; simpl;
    try constructor; [by left|].
  eapply Forall_impl; [apply IH|]. intros p Hp. by right.
Qed.

(** ** The reranker on a pool the provider embeds *)

Section RerankTotal.
Context {F : FloatOps}.

Lemma length_normalize_row (v : list float) :
  List.length (normalize_row v) = List.length v.
Proof. unfold normalize_row. apply length_fmap. Qed.

Lemma passage_score_ext embedder vq w1 w r :
  field_in w1 r "text" = field_in w r "text" ->
  passage_score embedder vq w1 r = passage_score embedder vq w r.
Proof. unfold passage_score, text_in. by intros ->. Qed.

(** One round of the loop on a passage with a score. *)
Lemma rerank_loop_step embedder vq item rest acc w x :
  passage_score embedder vq w item = Some x ->
  exists w1,
    heap w1 = heap w
    /\ rerank_loop embedder (Arr1 (normalize_row vq)) (item :: rest) acc w
       = rerank_loop embedder (Arr1 (normalize_row vq)) rest
           (acc ++ [item])%list (set_score item x w1).
Proof.
  unfold passage_score. intros Hx.
  destruct (text_in w item) as [s| |] eqn:Ht; try done.
  destruct (PyStr.strip_truthy s) eqn:Hs; [|done].
  destruct (embed_query embedder s) as [e|v] eqn:He; [done|].
  destruct (List.length v =? List.length vq)%nat eqn:Hlen; [|done].
  injection Hx as <-. apply Nat.eqb_eq in Hlen.
  exists (logged (EvEmbedQuery s) w). split; [done|].
  simpl.
  rewrite (bind_return _ _ _ _ _ (dict_get_spec item "text" (VStr "") w)).
  fold (text_in w item). rewrite Ht. simpl.
  rewrite (bind_return _ _ _ _ _ (encode_success embedder s v w (conj Hs He))).
  unfold getitem0 at 1. munfold. unfold np_mul.
  rewrite !length_normalize_row, Hlen, Nat.eqb_refl. reflexivity.
Qed.

Lemma rerank_loop_total embedder vq cands acc w :
  Forall (fun r => (r < List.length (heap w))%nat
                   /\ is_Some (passage_score embedder vq w r)) cands ->
  exists w',
    rerank_loop embedder (Arr1 (normalize_row vq)) cands acc w
    = (Return (acc ++ cands)%list, w')
    /\ (forall r, r ∈ cands ->
                  score_in w' r = passage_score embedder vq w r).
Proof.
  revert acc w. induction cands as [|item rest IH]; intros acc w Hall.
  - exists w. rewrite app_nil_r. split; [done|].
    intros r Hr. by apply elem_of_nil in Hr.
  - apply Forall_cons in Hall as [[Hlt [x Hx]] Hall].
    destruct (rerank_loop_step embedder vq item rest acc w x Hx)
      as (w1 & Hh & Hstep).
    assert (Hps : forall r, passage_score embedder vq (set_score item x w1) r
                            = passage_score embedder vq w r).
    { intros r. apply passage_score_ext.
      rewrite field_in_set_score_other by done. by apply field_in_heap_eq. }
    destruct (IH (acc ++ [item])%list (set_score item x w1)) as (w' & Hloop & Hsc).
    { eapply Forall_impl; [exact Hall|]. intros r [Hr Hp].
      by rewrite length_set_score, Hh, Hps. }
    exists w'. rewrite Hstep, Hloop, <- app_assoc. split; [done|].
    intros r Hr. destruct (decide (r ∈ rest)) as [Hin|Hnin].
    + by rewrite Hsc, Hps.
    + apply elem_of_cons in Hr as [->|Hr]; [|done].
      apply rerank_loop_return in Hloop as (_ & _ & _ & Hoth & _).
      unfold score_in, field_in. rewrite (Hoth _ Hnin).
      fold (field_in (set_score item x w1) item "score").
      fold (score_in (set_score item x w1) item).
      rewrite score_in_set_score; [done|]. by rewrite Hh.
Qed.

Lemma rerank_results_cons query item pool embedder top_k :
  rerank_results query (item :: pool) embedder top_k
  = (q ← encode embedder (Text query);
     q_emb ← getitem0 q;
     scored_items ← rerank_loop embedder q_emb (item :: pool) [];
     sorted ← sort_by_score_reverse scored_items;
     ret (py_slice_to top_k sorted)).
Proof. reflexivity. Qed.

Lemma keys_exist (P Q : loc -> option float) (l : list loc) :
  (forall r, r ∈ l -> is_Some (P r)) ->
  (forall r, r ∈ l -> Q r = P r) ->
  exists keys, Forall2 (fun r k => P r = Some k /\ Q r = Some k) l keys.
Proof.
  induction l as [|r l IH]; intros HP HQ.
  - exists []. constructor.
  - destruct IH as [ks Hks].
    { intros r' Hr'. apply HP. by right. }
    { intros r' Hr'. apply HQ. by right. }
    destruct (HP r) as [k Hk]; [by left|].
    exists (k :: ks). constructor; [|done]. split; [done|].
    rewrite HQ; [done|by left].
Qed.

Lemma py_slice_to_nonneg {A} (n : Z) (l : list A) :
  (0 <= n)%Z -> py_slice_to n l = take (Z.to_nat n) l.
Proof.
  intros Hn. unfold py_slice_to.
  by destruct (Z.leb_spec 0 n); [|lia].
Qed.

End RerankTotal.

(** The claim fails on the code in two ways.  A pool holding a passage
    without text makes the call raise instead of returning min(N, topK)
    passages; and with topK = -1 a pool of three yields two passages, while
    no list has min(3, -1) elements. *)
Lemma C4_rerank_top_k_counterexample :
  (rerank_results "q" [0; 1]%nat ZModel.toy_embedder 8 ZModel.w_blank).1
    = Raise IndexError
  /\ (rerank_results "q" [0; 1; 2]%nat ZModel.toy_embedder (-1) ZModel.w3).1
     = Return [0; 2]%nat
  /\ ~ (exists res w',
          rerank_results "q" [0; 1]%nat ZModel.toy_embedder 8 ZModel.w_blank
          = (Return res, w')
          /\ Z.of_nat (List.length res) = Z.min 2 8)
  /\ ~ (exists res w',
          rerank_results "q" [0; 1; 2]%nat ZModel.toy_embedder (-1) ZModel.w3
          = (Return res, w')
          /\ Z.of_nat (List.length res) = Z.min 3 (-1)).
Proof.
  assert (H1 : (rerank_results "q" [0; 1]%nat ZModel.toy_embedder 8
                  ZModel.w_blank).1 = Raise IndexError)
    by (vm_compute; reflexivity).
  split; [exact H1|]. split; [vm_compute; reflexivity|]. split.
  - intros (res & w' & Hr & _). rewrite Hr in H1. discriminate.
  - intros (res & w' & _ & Hlen). simpl in Hlen. lia.
Qed.

(** C4 (amended): when the provider embeds the query and the text of every
    candidate (texts not blank, remote calls successful, vectors of the
    query's dimension), the scores of the pool compare among themselves as
    a strict weak order (as binary32 numbers do when none of them is NaN),
    and topK is not negative, rerank returns the first min(N, topK) passages
    of the pool sorted by score descending, ties keeping pool order: the
    ranking is a permutation of the scored pool, no element is smaller than
    a later one, and for every score of the pool the passages tied with it
    appear in the order they have in the pool.  The scores are those written
    into the store. *)
Theorem C4_rerank_sorted_stable_top_k {F : FloatOps}
    (query : string) (pool : list loc) (embedder : SolarEmbedder)
    (top_k : Z) (w : world) (vq : list float) :
  (0 <= top_k)%Z ->
  embeds embedder query vq ->
  Forall (fun r => (r < List.length (heap w))%nat
                   /\ is_Some (passage_score embedder vq w r)) pool ->
  strict_weak_on (pool_scores embedder vq w pool) = true ->
  exists keys w',
    let ranked := sort_desc (zip keys pool) in
    let res := take (Z.to_nat top_k) (ranked.*2) in
    rerank_results query pool embedder top_k w = (Return res, w')
    /\ List.length res = (List.length pool `min` Z.to_nat top_k)%nat
    /\ keys = pool_scores embedder vq w pool
    /\ Forall2 (fun r k => passage_score embedder vq w r = Some k
                           /\ score_in w' r = Some k) pool keys
    /\ ranked ≡ₚ zip keys pool
    /\ StronglySorted (fun a b : float * loc => flt a.1 b.1 = false) ranked
    /\ (forall k, k ∈ keys ->
          filter (fun p : float * loc => tied p.1 k = true) ranked
          = filter (fun p : float * loc => tied p.1 k = true)
                   (zip keys pool)).
Proof.
  intros Hk Hq Hall Hord.
  destruct pool as [|item pool].
  { exists [], w. simpl. rewrite take_nil.
    repeat split; try done; constructor. }
  set (cands := item :: pool) in *.
  pose proof (encode_success embedder query vq w Hq) as Henc.
  set (w1 := logged (EvEmbedQuery query) w) in *.
  destruct (rerank_loop_total embedder vq cands [] w1) as (w' & Hloop & Hsc).
  { eapply Forall_impl; [exact Hall|]. intros r [Hr Hp]. split; [done|].
    by rewrite (passage_score_ext _ _ w1 w). }
  change ([] ++ cands)%list with cands in Hloop.
  destruct (keys_exist (passage_score embedder vq w) (score_in w') cands)
    as [keys Hkeys].
  { intros r Hr. rewrite Forall_forall in Hall. by apply Hall. }
  { intros r Hr. by rewrite (Hsc r Hr), (passage_score_ext _ _ w1 w). }
  exists keys, w'. cbv zeta.
  pose proof (Forall2_length _ _ _ Hkeys) as Hlen.
  assert (Hpool : pool_scores embedder vq w cands = keys).
  { apply omap_Forall2. eapply Forall2_impl; [exact Hkeys|].
    by intros r k [? _]. }
  rewrite Hpool in Hord.
  split; [|split; [|split; [done|split; [done|split; [|split]]]]].
  - subst cands. rewrite rerank_results_cons.
    rewrite (bind_return _ _ _ _ _ Henc).
    rewrite (bind_return _ _ _ (Arr1 (normalize_row vq)) w1 eq_refl).
    rewrite (bind_return _ _ _ _ _ Hloop).
    unfold sort_by_score_reverse. munfold.
    rewrite (mapM_sort_key_total (item :: pool) w' keys).
    + by rewrite py_slice_to_nonneg.
    + eapply Forall2_impl; [exact Hkeys|]. by intros r k [_ ?].
  - rewrite length_take, length_fmap.
    rewrite (Permutation_length (sort_desc_perm _)), length_zip. lia.
  - apply sort_desc_perm.
  - apply (sort_desc_sorted keys Hord). apply zip_keys_in.
  - intros k Hin. apply (sort_desc_stable keys Hord k); [done|].
    apply zip_keys_in.
Qed.

Lemma C4_rerank_sorted_stable_top_k_witness :
  exists res w',
    rerank_results (F:=Binary32.F32) "q" [0; 1; 2]%nat Binary32.toy_embedder
      2 Binary32.w3 = (Return res, w')
    /\ List.length res = 2%nat.
Proof.
  destruct (C4_rerank_sorted_stable_top_k (F:=Binary32.F32)
              "q" [0; 1; 2]%nat Binary32.toy_embedder 2 Binary32.w3
              [Binary32.b32_int 3; Binary32.b32_int 0])
    as (keys & w' & Hres & Hlen & _).
  - discriminate.
  - split; reflexivity.
  - repeat (constructor; [split; [repeat constructor | by eexists]|]).
    constructor.
  - vm_compute. reflexivity.
  - eexists _, w'. split; [exact Hres|]. exact Hlen.
Defined.

(** ** Order of binary32 numbers *)

(** Comparison of two numbers that are not NaN is comparison of their
    ranks. *)
Lemma SFltb_rank x y :
  Binary32.is_nan x = false -> Binary32.is_nan y = false ->
  SpecFloat.SFltb x y = true <-> Binary32.rank_lt (Binary32.rank x) (Binary32.rank y).
Proof.
  destruct x as [sx|sx| |sx mx ex], y as [sy|sy| |sy my ey];
    try discriminate; intros _ _;
    unfold SpecFloat.SFltb, SpecFloat.SFcompare, Binary32.rank, Binary32.rank_lt;
    try (destruct sx); try (destruct sy); simpl;
    try (split; [discriminate | lia]);
    try (split; [intros _; lia | reflexivity]).
  all: change (Pos.compare_cont Eq mx my) with (Pos.compare mx my).
  all: destruct (Z.compare_spec ex ey); destruct (Pos.compare_spec mx my); simpl;
    try (split; [discriminate | lia]);
    try (split; [intros _; lia | reflexivity]).
Qed.

(** Among binary32 numbers none of which is NaN, [<] is a strict weak
    order: the ordering condition of the ranking properties holds for every
    pool whose scores are numbers. *)
Lemma b32_strict_weak_on_not_nan (keys : list SpecFloat.spec_float) :
  Forall (fun x => Binary32.is_nan x = false) keys ->
  strict_weak_on (F:=Binary32.F32) keys = true.
Proof.
  intros Hk. rewrite Forall_forall in Hk.
  unfold strict_weak_on. apply andb_true_iff. split.
  - apply forallb_forall. intros x Hx%list_elem_of_In.
    apply negb_true_iff. simpl.
    destruct (SpecFloat.SFltb x x) eqn:E; [|done].
    apply SFltb_rank in E; auto. unfold Binary32.rank_lt in E. lia.
  - apply forallb_forall. intros x Hx%list_elem_of_In.
    apply forallb_forall. intros y Hy%list_elem_of_In.
    apply forallb_forall. intros z Hz%list_elem_of_In.
    simpl.
    pose proof (SFltb_rank x y (Hk _ Hx) (Hk _ Hy)) as Hxy.
    pose proof (SFltb_rank y z (Hk _ Hy) (Hk _ Hz)) as Hyz.
    pose proof (SFltb_rank x z (Hk _ Hx) (Hk _ Hz)) as Hxz.
    unfold Binary32.rank_lt in *.
    destruct (SpecFloat.SFltb x y), (SpecFloat.SFltb y z), (SpecFloat.SFltb x z);
      simpl; try reflexivity; exfalso;
      destruct (Binary32.rank x) as [[a1 a2] a3],
               (Binary32.rank y) as [[b1 b2] b3],
               (Binary32.rank z) as [[c1 c2] c3]; simpl in *.
    all: repeat match goal with
         | H : true = true <-> _ |- _ => pose proof (proj1 H eq_refl); clear H
         | H : false = true <-> ?P |- _ =>
             assert (~ P) by (intros HP; apply H in HP; discriminate); clear H
         end; lia.
Qed.

(** With a NaN among them the laws can fail: NaN is tied with 0.5 and with
    1, which are not tied. *)
Lemma b32_nan_breaks_order :
  strict_weak_on (F:=Binary32.F32)
    [SpecFloat.S754_nan; Binary32.half; Binary32.one] = false.
Proof. vm_compute. reflexivity. Qed.

(** ** Normalization of the returned rows *)

Section NormalizeLemmas.
Context {F : FloatOps}.



End NormalizeLemmas.







(** * Further properties of the retrieval code *)

(** ** Characters *)

Ltac by_cases_on_char c :=
  destruct c as [[] [] [] [] [] [] [] []]; vm_compute; try reflexivity;
  try discriminate.

Lemma alnum_not_space c : PyStr.is_alnum c = true -> PyStr.is_space c = false.
Proof. by_cases_on_char c. Qed.

Lemma lower_upper_char c :
  PyStr.to_lower_char (PyStr.to_upper_char c) = PyStr.to_lower_char c.
Proof. by_cases_on_char c. Qed.

Lemma lower_lower_char c :
  PyStr.to_lower_char (PyStr.to_lower_char c) = PyStr.to_lower_char c.
Proof. by_cases_on_char c. Qed.

Lemma upper_upper_char c :
  PyStr.to_upper_char (PyStr.to_upper_char c) = PyStr.to_upper_char c.
Proof. by_cases_on_char c. Qed.

Lemma cased_lower_char c :
  PyStr.is_cased (PyStr.to_lower_char c) = PyStr.is_cased c.
Proof. by_cases_on_char c. Qed.

Lemma cased_upper_char c :
  PyStr.is_cased (PyStr.to_upper_char c) = PyStr.is_cased c.
Proof. by_cases_on_char c. Qed.

Lemma blank_lower_char c :
  is_blank_char (PyStr.to_lower_char c) = is_blank_char c.
Proof. by_cases_on_char c. Qed.

Lemma token_char_not_blank c :
  PyStr.is_token_char c = true -> is_blank_char c = false.
Proof. by_cases_on_char c. Qed.

(** ** The tokenizer *)

Lemma sexists_app p s1 s2 :
  PyStr.sexists p (s1 ++ s2) = PyStr.sexists p s1 || PyStr.sexists p s2.
Proof.
  induction s1 as [|c s1 IH]; simpl; [done|]. by rewrite IH, orb_assoc.
Qed.

Lemma sall_app p s1 s2 : sall p (s1 ++ s2) = sall p s1 && sall p s2.
Proof. unfold sall. by rewrite sexists_app, negb_orb. Qed.

Lemma token_ok_snoc t c :
  token_ok t = true -> PyStr.is_token_char c = true ->
  token_ok (t ++ String c EmptyString) = true.
Proof.
  destruct t as [|c0 r]; simpl; [done|]. intros Ht Hc.
  apply andb_true_iff in Ht as [H0 Hr]. rewrite H0, sall_app, Hr. simpl.
  unfold sall. simpl. by rewrite Hc.
Qed.

Lemma findall_tokens_ok s cur :
  match cur with Some t => token_ok t = true | None => True end ->
  Forall (fun t => token_ok t = true) (findall_tokens cur s).
Proof.
  revert cur. induction s as [|c s IH]; intros cur Hcur; simpl.
  - destruct cur; repeat constructor; done.
  - destruct cur as [t|].
    + destruct (PyStr.is_token_char c) eqn:Hc.
      * apply IH. by apply token_ok_snoc.
      * constructor; [done|]. by apply IH.
    + destruct (PyStr.is_alnum c) eqn:Hc; apply IH; [|done].
      simpl. by rewrite Hc.
Qed.

Lemma token_ok_strip_truthy t : token_ok t = true -> PyStr.strip_truthy t = true.
Proof.
  destruct t as [|c r]; simpl; [done|]. intros Ht.
  apply andb_true_iff in Ht as [Hc _]. unfold PyStr.strip_truthy. simpl.
  by rewrite (alnum_not_space c Hc).
Qed.

Lemma filter_all {A} (P : A -> Prop) `{forall x, Decision (P x)} (l : list A) :
  Forall P l -> filter P l = l.
Proof.
  induction 1 as [|x l Hx _ IH]; [done|].
  by rewrite filter_cons, decide_True, IH.
Qed.

(** X1: every match of the token pattern is a non-empty run that starts
    with an alphanumeric character and continues with alphanumerics,
    hyphens and apostrophes; it holds no space and is not blank, so the
    blank filter of [_tokenize_bio] never removes anything. *)
Theorem X1_tokenize_bio_tokens (text : string) :
  _tokenize_bio text = findall_tokens None text
  /\ Forall (fun t => token_ok t = true
                      /\ PyStr.strip_truthy t = true
                      /\ PyStr.sexists is_blank_char t = false)
            (_tokenize_bio text).
Proof.
  pose proof (findall_tokens_ok text None I) as Hok.
  assert (Heq : _tokenize_bio text = findall_tokens None text).
  { unfold _tokenize_bio. apply filter_all.
    eapply Forall_impl; [exact Hok|]. intros t. apply token_ok_strip_truthy. }
  split; [done|]. rewrite Heq.
  eapply Forall_impl; [exact Hok|]. intros t Ht.
  split; [done|]. split; [by apply token_ok_strip_truthy|].
  destruct t as [|c r]; [done|]. simpl in Ht |- *.
  apply andb_true_iff in Ht as [Hc Hr].
  rewrite (token_char_not_blank c); [|unfold PyStr.is_token_char; by rewrite Hc].
  simpl. clear Hc. induction r as [|c' r IH]; [done|].
  unfold sall in Hr. simpl in Hr. apply negb_true_iff, orb_false_iff in Hr as [H1 H2].
  apply negb_false_iff in H1. simpl. rewrite (token_char_not_blank c' H1). simpl.
  apply IH. unfold sall. by rewrite H2.
Qed.

(** ** Candidate titles *)

Lemma dedup_formatted_fresh seen cands :
  NoDup (dedup_formatted seen cands)
  /\ (forall c, c ∈ dedup_formatted seen cands -> c ∉ seen).
Proof.
  revert seen. induction cands as [|x cands IH]; intros seen; simpl.
  - split; [constructor|]. intros c Hc. by apply elem_of_nil in Hc.
  - case_bool_decide as Hin; [apply IH|].
    destruct (IH ({[title_format x]} ∪ seen)) as [Hnd Hfresh].
    split.
    + constructor; [|done]. intros Hx. apply Hfresh in Hx.
      apply Hx, elem_of_union_l, elem_of_singleton. reflexivity.
    + intros c Hc. apply elem_of_cons in Hc as [->|Hc]; [done|].
      apply Hfresh in Hc. intros Hs. by apply Hc, elem_of_union_r.
Qed.

Lemma dedup_formatted_elem seen cands c :
  c ∈ dedup_formatted seen cands -> exists x, x ∈ cands /\ c = title_format x.
Proof.
  revert seen. induction cands as [|x cands IH]; intros seen; simpl.
  - intros Hc. by apply elem_of_nil in Hc.
  - case_bool_decide.
    + intros Hc. destruct (IH _ Hc) as (y & Hy & ->). exists y. split; [by right|done].
    + intros Hc. apply elem_of_cons in Hc as [->|Hc].
      * exists x. split; [by left|done].
      * destruct (IH _ Hc) as (y & Hy & ->). exists y. split; [by right|done].
Qed.

Lemma extract_candidate_titles_elem query max_candidates c :
  c ∈ extract_candidate_titles query max_candidates ->
  exists x, x ∈ (bigrams (_tokenize_bio query) ++ unigrams (_tokenize_bio query))%list
            /\ c = title_format x.
Proof.
  unfold extract_candidate_titles.
  destruct (_tokenize_bio query) as [|t ts] eqn:E.
  - intros Hc. by apply elem_of_nil in Hc.
  - intros Hc. apply py_slice_to_subseteq in Hc.
    by apply dedup_formatted_elem in Hc.
Qed.

Lemma NoDup_py_slice_to {A} (n : Z) (l : list A) :
  NoDup l -> NoDup (py_slice_to n l).
Proof.
  intros Hl. unfold py_slice_to.
  destruct (0 <=? n)%Z; eapply sublist_NoDup; try exact Hl; apply sublist_take.
Qed.

(** X2: for every query and bound the extracted titles are pairwise
    distinct, and with a bound that is not negative there are at most
    [max_candidates] of them (none for the bound 0). *)
Theorem X2_extract_distinct_bounded (query : string) (max_candidates : Z) :
  NoDup (extract_candidate_titles query max_candidates)
  /\ ((0 <= max_candidates)%Z ->
      (List.length (extract_candidate_titles query max_candidates)
       <= Z.to_nat max_candidates)%nat).
Proof.
  unfold extract_candidate_titles.
  destruct (_tokenize_bio query) as [|t ts].
  - split; [constructor|]. simpl. lia.
  - split.
    + apply NoDup_py_slice_to, dedup_formatted_fresh.
    + intros Hm. unfold py_slice_to. destruct (Z.leb_spec 0 max_candidates); [|lia].
      rewrite length_take. lia.
Qed.

Lemma X2_extract_distinct_bounded_witness :
  (0 <= 2)%Z
  /\ (List.length (extract_candidate_titles "EGFR mutation analysis" 2) <= 2)%nat.
Proof.
  split; [discriminate|].
  apply (X2_extract_distinct_bounded "EGFR mutation analysis" 2). discriminate.
Defined.

Lemma sexists_smap p f s :
  (forall c, p (f c) = p c) -> PyStr.sexists p (PyStr.smap f s) = PyStr.sexists p s.
Proof. intros Hf. induction s as [|c s IH]; simpl; [done|]. by rewrite Hf, IH. Qed.

Lemma lower_title_from b s : PyStr.lower (PyStr.title_from b s) = PyStr.lower s.
Proof.
  revert b. unfold PyStr.lower. induction s as [|c s IH]; intros b; simpl; [done|].
  rewrite IH. f_equal. destruct b; [apply lower_lower_char | apply lower_upper_char].
Qed.

Lemma lower_title_format c : PyStr.lower (title_format c) = PyStr.lower c.
Proof.
  unfold title_format. destruct (negb (PyStr.isupper c)); [|done].
  apply lower_title_from.
Qed.

Lemma title_from_idem b s :
  PyStr.title_from b (PyStr.title_from b s) = PyStr.title_from b s.
Proof.
  revert b. induction s as [|c s IH]; intros b; simpl; [done|].
  destruct b.
  - by rewrite lower_lower_char, cased_lower_char, IH.
  - by rewrite upper_upper_char, cased_upper_char, IH.
Qed.

Lemma title_format_idem c : title_format (title_format c) = title_format c.
Proof.
  unfold title_format at 2. destruct (negb (PyStr.isupper c)) eqn:E.
  - unfold title_format. rewrite E.
    destruct (negb (PyStr.isupper (PyStr.title c))); [|done].
    apply title_from_idem.
  - unfold title_format. by rewrite E.
Qed.

Lemma bigrams_blank tokens b :
  b ∈ bigrams tokens -> PyStr.sexists is_blank_char b = true.
Proof.
  induction tokens as [|t1 [|t2 rest] IH]; simpl.
  - intros Hb. by apply elem_of_nil in Hb.
  - intros Hb. by apply elem_of_nil in Hb.
  - set (bg := (t1 ++ " " ++ t2)%string).
    destruct (4 <? String.length bg)%nat.
    + intros Hb. apply elem_of_cons in Hb as [->|Hb]; [|by apply IH].
      unfold bg. rewrite !sexists_app. simpl. by rewrite orb_true_r.
    + apply IH.
Qed.

Lemma stopwords_no_blank w :
  w ∈ _STOPWORDS -> PyStr.sexists is_blank_char w = false.
Proof.
  unfold _STOPWORDS. rewrite elem_of_list_to_set. revert w.
  apply Forall_forall. repeat constructor.
Qed.

Lemma unigrams_not_stopword tokens t :
  t ∈ unigrams tokens -> PyStr.lower t ∉ _STOPWORDS.
Proof.
  unfold unigrams. intros Ht. apply list_elem_of_filter in Ht as [Hk _].
  unfold keep_unigram in Hk. case_bool_decide as Hin; [discriminate Hk|].
  exact Hin.
Qed.

(** X3: whatever the query and the bound, no extracted title is a stop
    word in any letter case: lower-casing it never gives a member of the
    stop-word set (a bigram holds a space, which no stop word does, and a
    unigram passed the stop-word test before it was formatted). *)
Theorem X3_extract_never_stop_word
    (query : string) (max_candidates : Z) (c : string) :
  c ∈ extract_candidate_titles query max_candidates ->
  PyStr.lower c ∉ _STOPWORDS.
Proof.
  intros Hc. apply extract_candidate_titles_elem in Hc as (x & Hx & ->).
  rewrite lower_title_format. apply elem_of_app in Hx as [Hx|Hx].
  - intros Hw. apply stopwords_no_blank in Hw.
    apply bigrams_blank in Hx.
    unfold PyStr.lower in Hw.
    rewrite (sexists_smap _ _ _ blank_lower_char) in Hw. congruence.
  - by eapply unigrams_not_stopword.
Qed.

Lemma X3_extract_never_stop_word_witness :
  "Role" ∈ extract_candidate_titles "What is the role of HER2" 20
  /\ PyStr.lower "Role" ∉ _STOPWORDS.
Proof.
  assert (H : "Role" ∈ extract_candidate_titles "What is the role of HER2" 20)
    by (apply (bool_decide_unpack _); vm_compute; exact I).
  split; [exact H|].
  exact (X3_extract_never_stop_word "What is the role of HER2" 20 "Role" H).
Defined.

(** X4: every extracted title is in normal form: formatting it once more
    (title case unless fully upper case) gives the same string, so the
    deduplication key and the returned title coincide. *)
Theorem X4_extract_titles_normal_form
    (query : string) (max_candidates : Z) (c : string) :
  c ∈ extract_candidate_titles query max_candidates ->
  title_format c = c.
Proof.
  intros Hc. apply extract_candidate_titles_elem in Hc as (x & _ & ->).
  apply title_format_idem.
Qed.

Lemma X4_extract_titles_normal_form_witness :
  "Her2 Inhibitor" ∈ extract_candidate_titles "HER2 inhibitor" 5
  /\ title_format "Her2 Inhibitor" = "Her2 Inhibitor".
Proof.
  assert (H : "Her2 Inhibitor" ∈ extract_candidate_titles "HER2 inhibitor" 5)
    by (apply (bool_decide_unpack _); vm_compute; exact I).
  split; [exact H|].
  exact (X4_extract_titles_normal_form "HER2 inhibitor" 5 "Her2 Inhibitor" H).
Defined.

Lemma findall_tokens_no_alnum s :
  PyStr.sexists PyStr.is_alnum s = false -> findall_tokens None s = [].
Proof.
  induction s as [|c s IH]; simpl; [done|]. intros H.
  apply orb_false_iff in H as [Hc Hs]. rewrite Hc. by apply IH.
Qed.

(** X5: a query without any letter or digit (empty, blank, punctuation
    only) has no tokens: no title is extracted, the encyclopedia lookup
    returns no passage without probing anything, and with no index loaded
    the context builder returns the sentinel without a single external
    call, even with the encyclopedia switched on. *)
Theorem X5_query_without_alnum {F : FloatOps}
    (wiki : Wikipedia) (query : string) (embedder : SolarEmbedder)
    (k : Z) (w : world) :
  PyStr.sexists PyStr.is_alnum query = false ->
  extract_candidate_titles query k = []
  /\ search_wikipedia_chunks wiki query k w = (Return [], w)
  /\ get_relevant_context wiki query embedder None true w
     = (Return no_documents, w).
Proof.
  intros Hq.
  assert (He : forall k', extract_candidate_titles query k' = []).
  { intros k'. unfold extract_candidate_titles, _tokenize_bio.
    by rewrite (findall_tokens_no_alnum _ Hq). }
  assert (Hs : forall k', search_wikipedia_chunks wiki query k' w = (Return [], w)).
  { intros k'. unfold search_wikipedia_chunks. by rewrite He. }
  split; [apply He|]. split; [apply Hs|].
  unfold get_relevant_context, collect_chunks. munfold. by rewrite Hs.
Qed.

Lemma X5_query_without_alnum_witness :
  PyStr.sexists PyStr.is_alnum " ?! " = false
  /\ get_relevant_context ZModel.toy_wiki " ?! " ZModel.toy_embedder None true
       ZModel.w0 = (Return no_documents, ZModel.w0).
Proof.
  split; [reflexivity|].
  apply (X5_query_without_alnum (F:=ZModel.ZFloat) ZModel.toy_wiki " ?! "
           ZModel.toy_embedder 2 ZModel.w0). reflexivity.
Defined.

(** ** The embedding provider on lists of texts *)

Section EncodeMore.
Context {F : FloatOps}.

Lemma mapM_call_embed_success self ts vs w :
  Forall2 (fun t v => embed_query self t = inr v) ts vs ->
  mapM (call_embed_query self) ts w
  = (Return vs, World (heap w) (trace w ++ (EvEmbedQuery <$> ts))%list).
Proof.
  intros H. revert w. induction H as [|t v ts vs Ht _ IH]; intros w.
  - simpl. rewrite app_nil_r. by destruct w.
  - simpl. unfold call_embed_query at 1. munfold. rewrite Ht. simpl.
    munfold. rewrite IH. simpl. by rewrite <- app_assoc.
Qed.

Lemma mapM_call_embed_failure self pre vs t e post w :
  Forall2 (fun t v => embed_query self t = inr v) pre vs ->
  embed_query self t = inl e ->
  mapM (call_embed_query self) (pre ++ t :: post)%list w
  = (Raise e,
     World (heap w) (trace w ++ (EvEmbedQuery <$> pre) ++ [EvEmbedQuery t])%list).
Proof.
  intros H He. revert w. induction H as [|t0 v pre vs Ht _ IH]; intros w.
  - simpl. unfold call_embed_query at 1. munfold. by rewrite He.
  - simpl. unfold call_embed_query at 1. munfold. rewrite Ht. simpl.
    munfold. rewrite IH. simpl. by rewrite <- app_assoc.
Qed.

Lemma np_array_rows vectors a w w' :
  np_array vectors w = (Return a, w') ->
  vectors <> [] ->
  exists d, a = Arr2 d vectors /\ Forall (fun r => List.length r = d) vectors.
Proof.
  unfold np_array. destruct vectors as [|v rest]; [done|]. intros H _.
  destruct (forallb _ rest) eqn:E; munfold; [|discriminate].
  inversion H; subst. exists (List.length v). split; [done|].
  constructor; [done|]. apply Forall_forall. intros r Hr.
  rewrite forallb_forall in E. apply Nat.eqb_eq, E. by apply list_elem_of_In.
Qed.

End EncodeMore.

(** X6: [encode] never raises, on a string or on a list of strings,
    whatever the provider does; it leaves the store alone; and what it
    returns is either the empty 1-d array or a 2-d array with one row per
    text that is not blank, all rows of one length. *)
Theorem X6_encode_never_raises {F : FloatOps}
    (self : SolarEmbedder) (texts : texts_arg) (w : world) :
  exists a w',
    encode self texts w = (Return a, w')
    /\ heap w' = heap w
    /\ (a = Arr1 []
        \/ exists d rows,
             a = Arr2 d rows
             /\ Forall (fun r => List.length r = d) rows
             /\ List.length rows
                = List.length
                    (filter (fun t => PyStr.strip_truthy t = true)
                       (match texts with Text s => [s] | Texts l => l end))).
Proof.
  pose proof (encode_heap self texts w) as Hheap.
  unfold encode in *.
  set (valid := filter _ _) in *.
  destruct valid as [|t l] eqn:E.
  { exists (Arr1 []), w. repeat split. by left. }
  unfold try_except in *. munfold.
  destruct (mapM (call_embed_query self) (t :: l) w) as [[vs|e] w1] eqn:Hm.
  - pose proof (mapM_length _ _ _ _ _ Hm) as Hlen.
    destruct (np_array vs w1) as [[a|e] w2] eqn:Ha.
    + destruct (np_array_rows _ _ _ _ Ha) as (d & -> & Hrows).
      { intros ->. simpl in Hlen. lia. }
      assert (w2 = w1) as ->.
      { unfold np_array in Ha. destruct vs as [|v rest]; munfold; [by inversion Ha|].
        destruct (forallb _ rest); by inversion Ha. }
      eexists _, _. split; [reflexivity|]. split; [exact Hheap|]. right.
      exists d, (normalize_row <$> vs). split; [done|]. split.
      * apply Forall_fmap. eapply Forall_impl; [exact Hrows|].
        intros r Hr. simpl. unfold normalize_row. by rewrite length_fmap.
      * by rewrite length_fmap.
    + eexists _, _. split; [reflexivity|]. split; [exact Hheap|]. by left.
  - eexists _, _. split; [reflexivity|]. split; [exact Hheap|]. by left.
Qed.

(** X7: when the provider embeds every text of the list that is not blank,
    in one common dimension, [encode] calls it once per such text, in
    order, and returns their normalized vectors as rows; blank entries get
    neither a call nor a row, so row i belongs to the i-th text that is not
    blank. *)
Theorem X7_encode_rows_follow_nonblank_texts {F : FloatOps}
    (self : SolarEmbedder) (texts : list string) (w : world)
    (t : string) (valid : list string) (v : list float)
    (vs : list (list float)) :
  filter (fun t => PyStr.strip_truthy t = true) texts = t :: valid ->
  Forall2 (fun t v => embed_query self t = inr v) (t :: valid) (v :: vs) ->
  Forall (fun r => List.length r = List.length v) vs ->
  encode self (Texts texts) w
  = (Return (Arr2 (List.length v) (normalize_row <$> v :: vs)),
     World (heap w) (trace w ++ (EvEmbedQuery <$> t :: valid))%list).
Proof.
  intros Hf Hemb Hlen. unfold encode. rewrite Hf.
  unfold try_except. munfold.
  rewrite (mapM_call_embed_success self _ _ w Hemb).
  unfold np_array.
  assert (Hall : forallb (fun r => (List.length r =? List.length v)%nat) vs = true).
  { apply forallb_forall. intros r Hr. apply Nat.eqb_eq.
    rewrite Forall_forall in Hlen. by apply Hlen, list_elem_of_In. }
  rewrite Hall. reflexivity.
Qed.

(** X8: one failing remote call spoils the whole batch: [encode] stops at
    the first text the provider refuses, prints the error and returns the
    empty array; the vectors already obtained are dropped and the texts
    after the failing one are never sent. *)
Theorem X8_encode_first_failure_empties_batch {F : FloatOps}
    (self : SolarEmbedder) (texts : list string) (w : world)
    (pre : list string) (vs : list (list float)) (t : string) (e : exn)
    (post : list string) :
  filter (fun t => PyStr.strip_truthy t = true) texts
    = (pre ++ t :: post)%list ->
  Forall2 (fun t v => embed_query self t = inr v) pre vs ->
  embed_query self t = inl e ->
  encode self (Texts texts) w
  = (Return (Arr1 []),
     World (heap w)
       (trace w ++ (EvEmbedQuery <$> pre)
          ++ [EvEmbedQuery t; EvPrintEmbeddingError e])%list).
Proof.
  intros Hf Hpre He. unfold encode. rewrite Hf.
  destruct (pre ++ t :: post)%list as [|t0 l] eqn:E.
  { by destruct pre. }
  rewrite <- E. unfold try_except. munfold.
  rewrite (mapM_call_embed_failure self pre vs t e post w Hpre He). simpl.
  by rewrite <- !app_assoc.
Qed.

Lemma X7_encode_rows_follow_nonblank_texts_witness :
  encode (F:=ZModel.ZFloat) ZModel.toy_embedder
    (Texts ["alpha"; " "; "beta"]) ZModel.w0
  = (Return (@Arr2 ZModel.ZFloat 2 (normalize_row <$> [[5; 0]; [0; 7]]%Z)),
     World [] [EvEmbedQuery "alpha"; EvEmbedQuery "beta"]).
Proof.
  apply (X7_encode_rows_follow_nonblank_texts (F:=ZModel.ZFloat)
           ZModel.toy_embedder ["alpha"; " "; "beta"] ZModel.w0
           "alpha" ["beta"] [5; 0]%Z [[0; 7]%Z]).
  - reflexivity.
  - repeat constructor.
  - repeat constructor.
Defined.

Lemma X8_encode_first_failure_empties_batch_witness :
  encode (F:=ZModel.ZFloat) ZModel.toy_embedder
    (Texts ["alpha"; "zzz"; "beta"]) ZModel.w0
  = (Return (Arr1 []),
     World [] [EvEmbedQuery "alpha"; EvEmbedQuery "zzz";
               EvPrintEmbeddingError (RemoteError "unavailable")]).
Proof.
  apply (X8_encode_first_failure_empties_batch (F:=ZModel.ZFloat)
           ZModel.toy_embedder ["alpha"; "zzz"; "beta"] ZModel.w0
           ["alpha"] [[5; 0]%Z] "zzz" (RemoteError "unavailable") ["beta"]).
  - reflexivity.
  - repeat constructor.
  - reflexivity.
Defined.

(** ** Slot ids below the sentinel, and the fields of a hit *)

Section SearchMore.
Context {F : FloatOps}.

Lemma hit_dict_text score (meta : dict) :
  hit_dict score meta !! "text" = Some (default (VStr "") (meta !! "text")).
Proof.
  unfold hit_dict. destruct (meta !! "text") as [v|] eqn:E.
  - by rewrite lookup_union_l', E.
  - rewrite lookup_union_r by done. by rewrite lookup_insert_eq.
Qed.

Lemma hit_dict_score score (meta : dict) :
  hit_dict score meta !! "score"
  = Some (default (VFloat score) (meta !! "score")).
Proof.
  unfold hit_dict. destruct (meta !! "score") as [v|] eqn:E.
  - by rewrite lookup_union_l', E.
  - rewrite lookup_union_r by done.
    rewrite lookup_insert_ne by done. by rewrite lookup_singleton_eq.
Qed.

Lemma hit_dict_other score (meta : dict) key :
  key <> "text" -> key <> "score" -> hit_dict score meta !! key = meta !! key.
Proof.
  intros H1 H2. unfold hit_dict. rewrite lookup_union_l; [done|].
  rewrite lookup_insert_ne by done. by rewrite lookup_singleton_ne.
Qed.

Lemma FaissIndex_search_return_inv self query_emb top_k w res w' :
  FaissIndex_search self query_emb top_k w = (Return res, w') ->
  exists hits w1,
    heap w1 = heap w /\ search_loop self hits [] w1 = (Return res, w').
Proof.
  unfold FaissIndex_search.
  assert (Hgen : forall n rows,
    (if negb (n =? index_d self)%nat
     then raise (DimensionError (index_d self) n)
     else '(scores, idxs) ← call_index_search self rows top_k;
          s0 ← row0 scores; i0 ← row0 idxs;
          search_loop self (zip s0 i0) []) w = (Return res, w') ->
    exists hits w1,
      heap w1 = heap w /\ search_loop self hits [] w1 = (Return res, w')).
  { intros n rows. destruct (negb _); [munfold; discriminate|].
    unfold call_index_search. munfold.
    destruct (index_search self rows top_k) as [e|[scores idxs]]; simpl;
      [discriminate|].
    destruct scores as [|s0 scores]; simpl; [discriminate|].
    destruct idxs as [|i0 idxs]; simpl; [discriminate|].
    intros H. eexists _, _. split; [|exact H]. done. }
  destruct query_emb as [x|v|n rows]; [munfold; discriminate| |]; apply Hgen.
Qed.

(** A search on a 1-d query that returns has passed the dimension check
    and looped over the first rows of the raw result. *)
Lemma FaissIndex_search_row_inv self v top_k w res w' :
  FaissIndex_search self (Arr1 v) top_k w = (Return res, w') ->
  List.length v = index_d self
  /\ exists s0 scores i0 idxs,
       index_search self [v] top_k = inr (s0 :: scores, i0 :: idxs)
       /\ search_loop self (zip s0 i0) []
            (logged (EvIndexSearch [v] top_k) w) = (Return res, w').
Proof.
  unfold FaissIndex_search.
  destruct (List.length v =? index_d self)%nat eqn:Hd; simpl;
    [|munfold; discriminate].
  intros H. apply Nat.eqb_eq in Hd. split; [done|].
  unfold call_index_search in H. munfold.
  destruct (index_search self [v] top_k) as [e|[scores idxs]]; simpl in H;
    [discriminate|].
  destruct scores as [|s0 scores]; simpl in H; [discriminate|].
  destruct idxs as [|i0 idxs]; simpl in H; [discriminate|].
  by exists s0, scores, i0, idxs.
Qed.

(** Tagging a block of freshly allocated dictionaries. *)
Lemma tag_all_fresh (h0 : list dict) (dicts : list dict) tag t :
  tag_all (seq (List.length h0) (List.length dicts)) tag
    (World (h0 ++ dicts)%list t)
  = (Return tt,
     World (h0 ++ ((fun d : dict => <["source" := VStr tag]> d) <$> dicts))%list t).
Proof.
  revert h0. induction dicts as [|d dicts IH]; intros h0; simpl; [done|].
  munfold. unfold setitem. simpl.
  rewrite alter_app_r_alt by done. rewrite Nat.sub_diag. simpl.
  specialize (IH (h0 ++ [<["source" := VStr tag]> d])%list).
  rewrite length_app in IH. simpl in IH. rewrite Nat.add_1_r in IH.
  rewrite <- !app_assoc in IH. simpl in IH. exact IH.
Qed.

End SearchMore.

(** X9: the guard of [search] covers the sentinel -1 and ids at or beyond
    the metadata length only.  A raw slot id below -1 is used as a Python
    index from the end: when it is below minus the metadata length the
    search raises [IndexError], otherwise the hit is resolved to the row
    that many places before the end. *)
Theorem X9_search_slot_below_sentinel {F : FloatOps}
    (self : FaissIndex) (query_emb : ndarray) (top_k : Z) (w : world)
    (scores : list (list float)) (idxs : list (list Z))
    (s : float) (s0 : list float) (idx : Z) (i0 : list Z) :
  query_dim query_emb = Some (index_d self) ->
  index_search self (query_rows query_emb) top_k
    = inr ((s :: s0) :: scores, (idx :: i0) :: idxs) ->
  (idx < -1)%Z ->
  let n := Z.of_nat (List.length (metadata self)) in
  let w1 := logged (EvIndexSearch (query_rows query_emb) top_k) w in
  ((idx < - n)%Z ->
     FaissIndex_search self query_emb top_k w = (Raise IndexError, w1))
  /\ ((- n <= idx)%Z ->
      exists meta,
        metadata self !! Z.to_nat (idx + n) = Some meta
        /\ FaissIndex_search self query_emb top_k w
           = search_loop self (zip s0 i0) [List.length (heap w)]
               (World (heap w ++ [hit_dict s meta])%list (trace w1))).
Proof.
  intros Hd Hs Hidx n w1.
  rewrite (search_unfold self query_emb top_k w _ _ _ _ Hd Hs). fold w1.
  simpl zip. rewrite search_loop_cons.
  assert (Hok : slot_ok self idx = true).
  { unfold slot_ok. apply negb_true_iff, orb_false_iff. split.
    - apply Z.eqb_neq. lia.
    - apply Z.leb_gt. lia. }
  rewrite Hok. unfold py_getitem. fold n.
  assert (Hneg : (idx <? 0)%Z = true) by (apply Z.ltb_lt; lia).
  rewrite Hneg. cbv zeta. split.
  - intros Hlow.
    assert (Hout : ((idx + n <? 0) || (n <=? idx + n))%Z = true).
    { apply orb_true_iff. left. apply Z.ltb_lt. lia. }
    by rewrite Hout.
  - intros Hin.
    assert (Hout : ((idx + n <? 0) || (n <=? idx + n))%Z = false).
    { apply orb_false_iff. split; [apply Z.ltb_ge | apply Z.leb_gt]; lia. }
    rewrite Hout.
    destruct (lookup_lt_is_Some_2 (metadata self) (Z.to_nat (idx + n)))
      as [meta Hm]; [unfold n; lia|].
    exists meta. split; [done|]. rewrite Hm. reflexivity.
Qed.

Lemma X9_search_slot_below_sentinel_witness :
  exists meta,
    metadata ZExamples.toy_index_low !! 0%nat = Some meta
    /\ FaissIndex_search ZExamples.toy_index_low ZModel.query_2d 2 ZModel.w0
       = search_loop ZExamples.toy_index_low [(8, -5)%Z] [0%nat]
           (World [hit_dict (F:=ZModel.ZFloat) 9%Z meta]
                  [EvIndexSearch (F:=ZModel.ZFloat) [[1; 0]%Z] 2]).
Proof.
  destruct (X9_search_slot_below_sentinel (F:=ZModel.ZFloat)
              ZExamples.toy_index_low ZModel.query_2d 2 ZModel.w0
              [] [] 9%Z [8%Z] (-2)%Z [(-5)%Z] eq_refl eq_refl eq_refl)
    as [_ H].
  destruct H as (meta & Hm & Hs); [discriminate|].
  exists meta. split; [exact Hm | exact Hs].
Defined.

(** X10: the passages [search_faiss_index] returns are freshly allocated
    dictionaries appended to the store (nothing already in the store is
    touched): exactly one per hit the raw search returned for the
    normalized query vector with a slot id that is neither -1 nor at or
    beyond the metadata length, in the order of the raw result.  The
    passage of a hit is the metadata row of its slot, in which "source" is
    the caller's tag even when the row has a source of its own; "text" is
    the row's text, or the empty string when the row has none; "score" is
    the row's own "score" field when it has one and the hit's search score
    otherwise; every other field is the row's.  The provider has been
    called once, on the query, and the index once. *)
Theorem X10_search_faiss_index_passages {F : FloatOps}
    (query : string) (embedder : SolarEmbedder) (index : FaissIndex)
    (top_k : Z) (tag : string) (w : world) (res : list loc) (w' : world) :
  search_faiss_index query embedder index top_k tag w = (Return res, w') ->
  exists vq s0 scores i0 idxs,
    embeds embedder query vq
    /\ List.length vq = index_d index
    /\ index_search index [normalize_row vq] top_k
       = inr (s0 :: scores, i0 :: idxs)
    /\ exists new : list dict,
         heap w' = (heap w ++ new)%list
         /\ res = seq (List.length (heap w)) (List.length new)
         /\ trace w'
            = (trace w ++ [EvEmbedQuery query;
                           EvIndexSearch [normalize_row vq] top_k])%list
         /\ Forall2 (fun (d : dict) (h : float * Z) =>
              exists meta,
                py_getitem (metadata index) h.2 = Some meta
                /\ d = <["source" := VStr tag]> (hit_dict h.1 meta)
                /\ d !! "source" = Some (VStr tag)
                /\ d !! "text" = Some (default (VStr "") (meta !! "text"))
                /\ d !! "score"
                   = Some (default (VFloat h.1) (meta !! "score"))
                /\ (forall key, key <> "source" -> key <> "text" ->
                      key <> "score" -> d !! key = meta !! key))
              new (kept_hits index (zip s0 i0)).
Proof.
  unfold search_faiss_index. intros H.
  apply bind_inv in H as (q & w1 & Hq & H).
  apply bind_inv in H as (q_emb & w2 & Hq0 & H).
  destruct (encode_first_inv _ _ _ _ _ _ _ Hq Hq0)
    as (vq & Hvq & -> & -> & -> & ->).
  apply bind_inv in H as (results & w3 & Hsearch & H).
  apply FaissIndex_search_row_inv in Hsearch
    as (Hd & s0 & scores & i0 & idxs & Hraw & Hloop).
  rewrite length_normalize_row in Hd.
  apply search_loop_return in Hloop as (dicts & Hh3 & Ht3 & Hres & Hf).
  simpl in Hres, Hh3, Ht3.
  apply bind_inv in H as ([] & w4 & Htag & H).
  munfold. injection H as <- <-.
  destruct w3 as [h3 t3]. simpl in Hh3, Ht3. subst h3 t3 results.
  rewrite tag_all_fresh in Htag. injection Htag as <-.
  exists vq, s0, scores, i0, idxs.
  split; [done|]. split; [done|]. split; [done|].
  exists ((fun d : dict => <["source" := VStr tag]> d) <$> dicts).
  simpl. rewrite length_fmap. split; [done|]. split; [done|].
  split; [by rewrite <- app_assoc|].
  apply Forall2_fmap_l. eapply Forall2_impl; [exact Hf|].
  intros d h (meta & Hm & ->). exists meta.
  split; [done|]. split; [done|]. split; [by rewrite lookup_insert_eq|].
  split; [by rewrite lookup_insert_ne, hit_dict_text|].
  split; [by rewrite lookup_insert_ne, hit_dict_score|].
  intros key H1 H2 H3. by rewrite lookup_insert_ne, hit_dict_other.
Qed.

(** The raw search yields the slots 1 and 0 with the scores 9 and 8: the
    two passages are those of the rows 1 and 0, in that order, the first
    keeping the score of its row. *)
Lemma X10_search_faiss_index_passages_witness :
  let out := search_faiss_index "q" ZModel.toy_embedder
               ZExamples.toy_index_own_fields 4 "Paper_DB" ZModel.w0 in
  out.1 = Return [0; 1]%nat
  /\ exists new : list dict,
       heap out.2 = new
       /\ [0; 1]%nat = seq 0 (List.length new)
       /\ exists s0 i0,
            Forall2 (fun (d : dict) (h : Z * Z) =>
                       exists meta,
                         py_getitem (metadata ZExamples.toy_index_own_fields)
                           h.2 = Some meta
                         /\ d = <["source" := VStr "Paper_DB"]>
                                  (hit_dict (F:=ZModel.ZFloat) h.1 meta))
                    new (kept_hits ZExamples.toy_index_own_fields (zip s0 i0)).
Proof.
  intros out.
  assert (H1 : out.1 = Return [0; 1]%nat) by (vm_compute; reflexivity).
  assert (H : out = (Return [0; 1]%nat, out.2)).
  { rewrite (surjective_pairing out) at 1. by rewrite H1. }
  split; [exact H1|].
  destruct (X10_search_faiss_index_passages (F:=ZModel.ZFloat) "q"
              ZModel.toy_embedder ZExamples.toy_index_own_fields 4 "Paper_DB"
              ZModel.w0 [0; 1]%nat out.2 H)
    as (vq & s0 & scores & i0 & idxs & _ & _ & _ & new & Hh & Hr & _ & Hf).
  exists new. split; [exact Hh|]. split; [exact Hr|].
  exists s0, i0. eapply Forall2_impl; [exact Hf|].
  intros d h (meta & Hm & Hd & _). exists meta. split; [exact Hm | exact Hd].
Defined.

(** ** The encyclopedia lookup *)

Section WikiLemmas.
Context {F : FloatOps}.

Lemma append_chunks_spec paragraphs title chunks w :
  append_chunks paragraphs title chunks w
  = (Return (chunks ++ seq (List.length (heap w)) (List.length paragraphs))%list,
     World (heap w ++ ((fun p => wiki_chunk p title) <$> paragraphs))%list
           (trace w)).
Proof.
  revert chunks w. induction paragraphs as [|p ps IH]; intros chunks w; simpl.
  - rewrite !app_nil_r. by destruct w.
  - munfold. unfold alloc. rewrite IH. simpl.
    rewrite length_app, Nat.add_1_r, <- !app_assoc. reflexivity.
Qed.

Lemma wiki_loop_return wiki cands chunks w out w' :
  wiki_loop wiki cands chunks w = (Return out, w') ->
  exists new : list dict,
    heap w' = (heap w ++ new)%list
    /\ out = (chunks ++ seq (List.length (heap w)) (List.length new))%list
    /\ (List.length new <= 3 * List.length cands)%nat
    /\ trace w' = (trace w ++ concat (wiki_events wiki <$> cands))%list
    /\ Forall (fun d => exists title, title ∈ cands /\ wiki_passage wiki title d)
              new.
Proof.
  revert chunks w. induction cands as [|title rest IH]; intros chunks w H.
  - simpl in H. munfold. injection H as <- <-. exists [].
    simpl. rewrite !app_nil_r. repeat split; try done; lia.
  - simpl in H. unfold call_page_exists, call_page_text in H. munfold.
    unfold wiki_events at 1. rewrite fmap_cons. simpl concat.
    destruct (page_exists wiki title) as [e|[|]] eqn:Hex; simpl in H;
      [discriminate| |].
    + destruct (page_text wiki title) as [e|text] eqn:Htx; simpl in H;
        [discriminate|].
      set (ps := take 3 (filter _ (PyStr.split_lines text))) in H.
      rewrite append_chunks_spec in H. simpl in H.
      apply IH in H as (new & Hh & Hout & Hlen & Htr & Hf). simpl in *.
      exists (((fun p => wiki_chunk p title) <$> ps) ++ new)%list.
      rewrite Hh, Hout, Htr, <- !app_assoc, !length_app, !length_fmap.
      split; [done|]. split.
      { f_equal. rewrite seq_app. done. }
      split.
      { assert (List.length ps <= 3)%nat by (unfold ps; rewrite length_take; lia).
        lia. }
      split; [done|].
      apply Forall_app. split.
      * apply Forall_fmap, Forall_forall. intros p Hp. simpl.
        exists title. split; [by left|]. exists text, p.
        unfold ps in Hp. apply elem_of_take in Hp as (i & Hp & _).
        apply list_elem_of_lookup_2, list_elem_of_filter in Hp as [Hlen' Hin].
        done.
      * eapply Forall_impl; [exact Hf|]. intros d (t & Ht & Hd).
        exists t. split; [by right|done].
    + apply IH in H as (new & Hh & Hout & Hlen & Htr & Hf). simpl in *.
      exists new. rewrite Htr, <- app_assoc. repeat split; try done; [lia|].
      eapply Forall_impl; [exact Hf|]. intros d (t & Ht & Hd).
      exists t. split; [by right|done].
Qed.

Lemma page_passages_length wiki title :
  (List.length (page_passages wiki title) <= 3)%nat.
Proof.
  unfold page_passages.
  destruct (page_exists wiki title) as [e|[|]]; simpl; try lia.
  destruct (page_text wiki title) as [e|text]; simpl; try lia.
  rewrite length_fmap, length_take. lia.
Qed.

Lemma page_passages_spec wiki title :
  Forall (wiki_passage wiki title) (page_passages wiki title).
Proof.
  unfold page_passages.
  destruct (page_exists wiki title) as [e|[|]] eqn:Hex; try constructor.
  destruct (page_text wiki title) as [e|text] eqn:Htx; try constructor.
  apply Forall_fmap, Forall_forall. intros p Hp. simpl.
  exists text, p.
  apply elem_of_take in Hp as (i & Hp & _).
  apply list_elem_of_lookup_2, list_elem_of_filter in Hp as [Hlen Hin].
  done.
Qed.

(** A lookup loop that returns has appended, candidate by candidate, the
    passages of the candidate's page. *)
Lemma wiki_loop_exact wiki cands chunks w out w' :
  wiki_loop wiki cands chunks w = (Return out, w') ->
  heap w' = (heap w ++ concat (page_passages wiki <$> cands))%list
  /\ out = (chunks ++ seq (List.length (heap w))
              (List.length (concat (page_passages wiki <$> cands))))%list.
Proof.
  revert chunks w. induction cands as [|title rest IH]; intros chunks w H.
  - simpl in H. munfold. injection H as <- <-. simpl.
    by rewrite !app_nil_r.
  - simpl in H. unfold call_page_exists, call_page_text in H. munfold.
    rewrite fmap_cons. simpl concat. unfold page_passages at 1 3.
    destruct (page_exists wiki title) as [e|[|]] eqn:Hex; simpl in H;
      [discriminate| |].
    + destruct (page_text wiki title) as [e|text] eqn:Htx; simpl in H;
        [discriminate|].
      set (ps := take 3 (filter _ (PyStr.split_lines text))) in *.
      rewrite append_chunks_spec in H. simpl in H.
      apply IH in H as (Hh & Hout). simpl in Hh, Hout.
      rewrite Hh, Hout, <- !app_assoc, !length_app, !length_fmap.
      split; [done|]. f_equal. by rewrite seq_app.
    + apply IH in H as (Hh & Hout). simpl in Hh, Hout. done.
Qed.

Lemma wiki_loop_all_missing wiki cands chunks w :
  Forall (fun t => page_exists wiki t = inr false) cands ->
  wiki_loop wiki cands chunks w
  = (Return chunks, World (heap w) (trace w ++ (EvWikiExists <$> cands))%list).
Proof.
  intros H. revert w. induction H as [|t cands Ht _ IH]; intros w; simpl.
  - rewrite app_nil_r. by destruct w.
  - unfold call_page_exists. munfold. rewrite Ht. simpl. rewrite IH. simpl.
    by rewrite <- app_assoc.
Qed.

Lemma extract_candidate_titles_length query max_candidates :
  (0 <= max_candidates)%Z ->
  (List.length (extract_candidate_titles query max_candidates)
   <= Z.to_nat max_candidates)%nat.
Proof.
  intros Hm. unfold extract_candidate_titles.
  destruct (_tokenize_bio query); [simpl; lia|].
  rewrite py_slice_to_nonneg by done. rewrite length_take. lia.
Qed.

End WikiLemmas.

(** X11: a lookup that returns has probed every candidate title exactly
    once, in order, and fetched the text of exactly those that exist.  The
    passages are freshly allocated dictionaries appended to the store:
    candidate by candidate, in order, the passages of that candidate's page
    (none for a topic that does not exist), which are the first three lines
    of the page longer than 50 characters once stripped, each with the
    candidate's title and the source "Wikipedia (<title>)".  So there are
    at most three per candidate, hence at most 3 * max_pages in all for a
    bound that is not negative. *)
Theorem X11_wikipedia_chunks_on_return {F : FloatOps}
    (wiki : Wikipedia) (query : string) (max_pages : Z)
    (w : world) (chunks : list loc) (w' : world) :
  search_wikipedia_chunks wiki query max_pages w = (Return chunks, w') ->
  let candidates := extract_candidate_titles query max_pages in
  let new := concat (page_passages wiki <$> candidates) in
  heap w' = (heap w ++ new)%list
  /\ chunks = seq (List.length (heap w)) (List.length new)
  /\ trace w' = (trace w ++ concat (wiki_events wiki <$> candidates))%list
  /\ Forall (fun title =>
       (List.length (page_passages wiki title) <= 3)%nat
       /\ Forall (wiki_passage wiki title) (page_passages wiki title))
       candidates
  /\ (List.length chunks <= 3 * List.length candidates)%nat
  /\ ((0 <= max_pages)%Z ->
      (List.length chunks <= 3 * Z.to_nat max_pages)%nat).
Proof.
  intros H candidates new. unfold search_wikipedia_chunks in H.
  fold candidates in H.
  assert (Hgen : wiki_loop wiki candidates [] w = (Return chunks, w')).
  { destruct candidates; [|done]. simpl. exact H. }
  pose proof (wiki_loop_exact _ _ _ _ _ _ Hgen) as (Hh & Hout).
  apply wiki_loop_return in Hgen as (new' & _ & _ & _ & Htr & _).
  simpl in Hout. fold new in Hh, Hout.
  assert (Hlen : (List.length new <= 3 * List.length candidates)%nat).
  { unfold new. clear. induction candidates as [|t l IH]; [done|].
    rewrite fmap_cons. simpl concat. rewrite length_app. simpl length.
    pose proof (page_passages_length wiki t). lia. }
  assert (Hl : List.length chunks = List.length new)
    by (by rewrite Hout, length_seq).
  split; [done|]. split; [done|]. split; [done|]. split.
  { apply Forall_forall. intros t _. split.
    - apply page_passages_length.
    - apply page_passages_spec. }
  split; [lia|].
  intros Hm.
  pose proof (extract_candidate_titles_length query max_pages Hm) as Hb.
  fold candidates in Hb. lia.
Qed.

(** Of the two candidates "Egfr Mutation" and "EGFR" only the second
    exists: the one passage is the one of its page. *)
Lemma X11_wikipedia_chunks_on_return_witness :
  let out := search_wikipedia_chunks ZModel.toy_wiki_missing
               "EGFR mutation" 2 ZModel.w0 in
  out.1 = Return [0%nat]
  /\ trace out.2
     = [EvWikiExists "Egfr Mutation"; EvWikiExists "EGFR"; EvWikiText "EGFR"]
  /\ heap out.2 = [wiki_chunk ZModel.egfr_text "EGFR"].
Proof.
  intros out.
  assert (H1 : out.1 = Return [0%nat]) by (vm_compute; reflexivity).
  assert (H : out = (Return [0%nat], out.2)).
  { rewrite (surjective_pairing out) at 1. by rewrite H1. }
  split; [exact H1|].
  destruct (X11_wikipedia_chunks_on_return (F:=ZModel.ZFloat)
              ZModel.toy_wiki_missing "EGFR mutation" 2 ZModel.w0
              [0%nat] out.2 H) as (Hh & _ & Htr & _).
  split; [exact Htr|]. rewrite Hh. reflexivity.
Defined.

(** X12: when none of the candidate topics exists the lookup returns no
    passage, allocates nothing, and has made exactly one existence probe
    per candidate title, in order, and no text fetch. *)
Theorem X12_wikipedia_all_missing {F : FloatOps}
    (wiki : Wikipedia) (query : string) (max_pages : Z) (w : world) :
  Forall (fun t => page_exists wiki t = inr false)
         (extract_candidate_titles query max_pages) ->
  search_wikipedia_chunks wiki query max_pages w
  = (Return [],
     World (heap w)
       (trace w ++ (EvWikiExists <$> extract_candidate_titles query max_pages))%list).
Proof.
  intros H. unfold search_wikipedia_chunks.
  destruct (extract_candidate_titles query max_pages) as [|t l] eqn:E.
  - simpl. rewrite app_nil_r. by destruct w.
  - by apply wiki_loop_all_missing.
Qed.

Lemma X12_wikipedia_all_missing_witness :
  search_wikipedia_chunks ZModel.toy_wiki_missing "mutation analysis" 2
    ZModel.w0
  = (Return [],
     World [] [EvWikiExists "Mutation Analysis"; EvWikiExists "Mutation"]).
Proof.
  apply (X12_wikipedia_all_missing (F:=ZModel.ZFloat) ZModel.toy_wiki_missing
           "mutation analysis" 2 ZModel.w0).
  repeat constructor.
Defined.

(** ** The reranker on any call that returns *)

Section RerankReturn.
Context {F : FloatOps}.

(** A call that returns has sorted the pool by the scores now in the store
    and cut the ranking. *)
Lemma rerank_results_return_inv query pool embedder top_k w res w' :
  rerank_results query pool embedder top_k w = (Return res, w') ->
  exists keys,
    Forall2 (fun r k => score_in w' r = Some k) pool keys
    /\ res = py_slice_to top_k ((sort_desc (zip keys pool)).*2).
Proof.
  intros H. unfold rerank_results in H.
  destruct pool as [|item pool].
  { munfold. injection H as <- <-. exists []. split; [constructor|].
    unfold py_slice_to. destruct (0 <=? top_k)%Z; symmetry; apply take_nil. }
  apply bind_inv in H as (q & w1 & _ & H).
  apply bind_inv in H as (q_emb & w2 & _ & H).
  apply bind_inv in H as (scored & w3 & Hloop & H).
  apply rerank_loop_return in Hloop as (Hsc & _).
  simpl in Hsc. subst scored.
  apply bind_inv in H as (sorted & w4 & Hsort & H).
  unfold sort_by_score_reverse in Hsort.
  apply bind_inv in Hsort as (keys & w5 & Hkeys & Hsort).
  apply mapM_sort_key_return in Hkeys as [-> Hkeys].
  munfold. injection Hsort as <- <-. injection H as <- <-.
  by exists keys.
Qed.

Lemma length_py_slice_to {A} (n : Z) (l : list A) :
  List.length (py_slice_to n l) = py_slice_length n (List.length l).
Proof.
  unfold py_slice_to, py_slice_length.
  destruct (0 <=? n)%Z; rewrite length_take; lia.
Qed.

Lemma zip_lookup_Forall2 {A B} (P : B -> A -> Prop) (ks : list A) (rs : list B) k r :
  Forall2 P rs ks -> (k, r) ∈ zip ks rs -> P r k.
Proof.
  intros H. revert k r. induction H as [|r0 k0 rs ks H0 _ IH]; intros k r Hin.
  - by apply elem_of_nil in Hin.
  - simpl in Hin. apply elem_of_cons in Hin as [Heq|Hin]; [|by apply IH].
    by injection Heq as -> ->.
Qed.

Lemma zip_elem_Forall2 {A B} (P : B -> A -> Prop) (ks : list A) (rs : list B) r :
  Forall2 P rs ks -> r ∈ rs -> exists k, (k, r) ∈ zip ks rs.
Proof.
  intros H. induction H as [|r0 k0 rs ks H0 _ IH]; intros Hin.
  - by apply elem_of_nil in Hin.
  - apply elem_of_cons in Hin as [->|Hin].
    + exists k0. by left.
    + destruct (IH Hin) as [k Hk]. exists k. by right.
Qed.

End RerankReturn.

(** X13: whenever a rerank call returns, it returns as many passages as the
    slice [scored_items[:top_k]] keeps of the pool: min(N, top_k) for a
    top_k that is not negative, N - |top_k| (at least 0) for a negative one;
    and when top_k is at least N the result is the whole pool, rearranged:
    nothing is lost or duplicated. *)
Theorem X13_rerank_result_size {F : FloatOps}
    (query : string) (pool : list loc) (embedder : SolarEmbedder)
    (top_k : Z) (w : world) (res : list loc) (w' : world) :
  rerank_results query pool embedder top_k w = (Return res, w') ->
  List.length res = py_slice_length top_k (List.length pool)
  /\ ((0 <= top_k)%Z ->
      List.length res = (List.length pool `min` Z.to_nat top_k)%nat)
  /\ ((Z.of_nat (List.length pool) <= top_k)%Z -> res ≡ₚ pool).
Proof.
  intros H. apply rerank_results_return_inv in H as (keys & Hkeys & ->).
  pose proof (Forall2_length _ _ _ Hkeys) as Hlen.
  pose proof (sorted_items_perm keys pool (eq_sym Hlen)) as Hperm.
  assert (Hl : List.length (py_slice_to top_k (sort_desc (zip keys pool)).*2)
               = py_slice_length top_k (List.length pool)).
  { by rewrite length_py_slice_to, (Permutation_length Hperm). }
  split; [done|]. split.
  - intros Hk. rewrite Hl. unfold py_slice_length.
    by destruct (Z.leb_spec 0 top_k); [|lia].
  - intros Hk. rewrite py_slice_to_nonneg by lia.
    rewrite take_ge; [done|]. rewrite (Permutation_length Hperm). lia.
Qed.

Lemma X13_rerank_result_size_witness :
  let out := rerank_results "q" [0; 1; 2]%nat ZModel.toy_embedder 5 ZModel.w3 in
  exists res, out.1 = Return res /\ res ≡ₚ [0; 1; 2]%nat.
Proof.
  intros out.
  assert (H1 : out.1 = Return [0; 2; 1]%nat) by (vm_compute; reflexivity).
  assert (H : out = (Return [0; 2; 1]%nat, out.2)).
  { rewrite (surjective_pairing out) at 1. by rewrite H1. }
  exists [0; 2; 1]%nat. split; [exact H1|].
  apply (X13_rerank_result_size (F:=ZModel.ZFloat) "q" [0; 1; 2]%nat
           ZModel.toy_embedder 5 ZModel.w3 [0; 2; 1]%nat out.2 H).
  discriminate.
Defined.

(** X14: whenever a rerank call returns a non-empty list and the scores it
    computes for the pool compare among themselves as a strict weak order
    (no NaN among them), the first passage returned has a maximal score:
    every passage of the pool carries its score in the store and none of
    them is greater than the score of the first. *)
Theorem X14_rerank_first_is_best {F : FloatOps}
    (query : string) (pool : list loc) (embedder : SolarEmbedder)
    (top_k : Z) (w : world) (best : loc) (rest : list loc) (w' : world) :
  rerank_results query pool embedder top_k w = (Return (best :: rest), w') ->
  strict_weak_on (omap (rerank_score embedder query w) pool) = true ->
  exists k0,
    score_in w' best = Some k0
    /\ rerank_score embedder query w best = Some k0
    /\ forall r, r ∈ pool ->
         exists k, score_in w' r = Some k
                   /\ rerank_score embedder query w r = Some k
                   /\ flt k0 k = false.
Proof.
  intros H Hord.
  pose proof (rerank_results_scores _ _ _ _ _ _ _ H) as Hscores.
  apply rerank_results_return_inv in H as (keys & Hkeys & Hres).
  assert (Hcomputed : forall r k, r ∈ pool -> score_in w' r = Some k ->
                        rerank_score embedder query w r = Some k).
  { intros r k Hr Hk. destruct (Hscores r Hr) as (x & Hx & Hx').
    congruence. }
  assert (Hpool : omap (rerank_score embedder query w) pool = keys).
  { apply omap_Forall2. clear Hres Hord Hscores.
    induction Hkeys as [|r k pool keys Hk _ IH]; constructor.
    - apply Hcomputed; [by left|done].
    - apply IH. intros r' k' Hr'. apply Hcomputed. by right. }
  rewrite Hpool in Hord.
  set (ranked := sort_desc (zip keys pool)) in *.
  assert (Hhead : exists k0 tl, ranked = (k0, best) :: tl).
  { assert (Ht : exists n, best :: rest = take n (ranked.*2)).
    { unfold py_slice_to in Hres. destruct (0 <=? top_k)%Z; eauto. }
    destruct Ht as [n Ht]. destruct ranked as [|[k0 r0] tl]; simpl in Ht.
    - by rewrite take_nil in Ht.
    - destruct n; simpl in Ht; [done|]. injection Ht as -> _. eauto. }
  destruct Hhead as (k0 & tl & Hranked).
  pose proof (sort_desc_sorted keys Hord (zip keys pool) (zip_keys_in _ _))
    as Hsorted.
  pose proof (sort_desc_perm (zip keys pool)) as Hperm.
  fold ranked in Hsorted, Hperm. rewrite Hranked in Hsorted, Hperm.
  apply StronglySorted_inv in Hsorted as [_ Htl].
  assert (Hbest : (k0, best) ∈ zip keys pool) by (rewrite <- Hperm; by left).
  pose proof (zip_lookup_Forall2 _ keys pool k0 best Hkeys Hbest) as Hk0.
  exists k0. split; [done|]. split.
  { apply Hcomputed; [|done]. by apply elem_of_zip_r in Hbest. }
  intros r Hr.
  destruct (zip_elem_Forall2 _ keys pool r Hkeys Hr) as [k Hk].
  pose proof (zip_lookup_Forall2 _ keys pool k r Hkeys Hk) as Hkr.
  exists k. split; [done|]. split; [by apply Hcomputed|].
  pose proof Hk as Hin. apply elem_of_zip_l in Hin.
  rewrite <- Hperm in Hk. apply elem_of_cons in Hk as [Heq|Hk].
  - injection Heq as -> _. by apply (flt_irrefl keys Hord).
  - rewrite Forall_forall in Htl. by apply (Htl (k, r)).
Qed.

Lemma X14_rerank_first_is_best_witness :
  let out := rerank_results (F:=Binary32.F32) "q" [1; 2; 0]%nat
               Binary32.toy_embedder 2 Binary32.w3 in
  out.1 = Return [2; 0]%nat
  /\ exists k0, score_in out.2 2%nat = Some k0.
Proof.
  intros out.
  assert (H1 : out.1 = Return [2; 0]%nat) by (vm_compute; reflexivity).
  assert (H : out = (Return [2; 0]%nat, out.2)).
  { rewrite (surjective_pairing out) at 1. by rewrite H1. }
  split; [exact H1|].
  destruct (X14_rerank_first_is_best (F:=Binary32.F32) "q" [1; 2; 0]%nat
              Binary32.toy_embedder 2 Binary32.w3 2%nat [0%nat] out.2 H)
    as (k0 & Hk0 & _).
  - vm_compute. reflexivity.
  - exists k0. exact Hk0.
Defined.

(** ** The reranker on a pool the provider embeds: calls and re-runs *)

Section RerankCalls.
Context {F : FloatOps}.

Lemma passage_score_text embedder vq w r x :
  passage_score embedder vq w r = Some x ->
  text_in w r = VStr (passage_text w r).
Proof.
  unfold passage_score, passage_text.
  by destruct (text_in w r).
Qed.

Lemma passage_text_ext w1 w r :
  field_in w1 r "text" = field_in w r "text" ->
  passage_text w1 r = passage_text w r.
Proof. unfold passage_text, text_in. by intros ->. Qed.

(** One round of the loop, with the call it makes. *)
Lemma rerank_loop_step_call embedder vq item rest acc w x :
  passage_score embedder vq w item = Some x ->
  rerank_loop embedder (Arr1 (normalize_row vq)) (item :: rest) acc w
  = rerank_loop embedder (Arr1 (normalize_row vq)) rest (acc ++ [item])%list
      (set_score item x (logged (EvEmbedQuery (passage_text w item)) w)).
Proof.
  intros Hx. pose proof (passage_score_text _ _ _ _ _ Hx) as Ht.
  unfold passage_score in Hx. rewrite Ht in Hx.
  set (s := passage_text w item) in *.
  destruct (PyStr.strip_truthy s) eqn:Hs; [|done].
  destruct (embed_query embedder s) as [e|v] eqn:He; [done|].
  destruct (List.length v =? List.length vq)%nat eqn:Hlen; [|done].
  injection Hx as <-. apply Nat.eqb_eq in Hlen.
  simpl.
  rewrite (bind_return _ _ _ _ _ (dict_get_spec item "text" (VStr "") w)).
  fold (text_in w item). rewrite Ht. simpl.
  rewrite (bind_return _ _ _ _ _ (encode_success embedder s v w (conj Hs He))).
  unfold getitem0 at 1. munfold. unfold np_mul.
  rewrite !length_normalize_row, Hlen, Nat.eqb_refl. reflexivity.
Qed.

Lemma rerank_loop_total_calls embedder vq cands acc w :
  Forall (fun r => (r < List.length (heap w))%nat
                   /\ is_Some (passage_score embedder vq w r)) cands ->
  exists w',
    rerank_loop embedder (Arr1 (normalize_row vq)) cands acc w
    = (Return (acc ++ cands)%list, w')
    /\ (forall r, r ∈ cands ->
                  score_in w' r = passage_score embedder vq w r)
    /\ trace w'
       = (trace w ++ (EvEmbedQuery <$> (passage_text w <$> cands)))%list.
Proof.
  revert acc w. induction cands as [|item rest IH]; intros acc w Hall.
  - exists w. rewrite !app_nil_r. split; [done|]. split; [|done].
    intros r Hr. by apply elem_of_nil in Hr.
  - apply Forall_cons in Hall as [[Hlt [x Hx]] Hall].
    pose proof (rerank_loop_step_call embedder vq item rest acc w x Hx) as Hstep.
    set (w1 := set_score item x (logged (EvEmbedQuery (passage_text w item)) w))
      in *.
    assert (Hfld : forall r, field_in w1 r "text" = field_in w r "text").
    { intros r. unfold w1. by rewrite field_in_set_score_other. }
    assert (Hps : forall r, passage_score embedder vq w1 r
                            = passage_score embedder vq w r).
    { intros r. by apply passage_score_ext. }
    destruct (IH (acc ++ [item])%list w1) as (w' & Hloop & Hsc & Htr).
    { eapply Forall_impl; [exact Hall|]. intros r [Hr Hp].
      unfold w1. by rewrite length_set_score, Hps. }
    exists w'. rewrite Hstep, Hloop, <- app_assoc. split; [done|]. split.
    + intros r Hr. destruct (decide (r ∈ rest)) as [Hin|Hnin].
      * by rewrite Hsc, Hps.
      * apply elem_of_cons in Hr as [->|Hr]; [|done].
        apply rerank_loop_return in Hloop as (_ & _ & _ & Hoth & _).
        unfold score_in, field_in. rewrite (Hoth _ Hnin).
        fold (field_in w1 item "score"). fold (score_in w1 item).
        unfold w1. by rewrite score_in_set_score.
    + rewrite Htr. unfold w1 at 1. simpl. rewrite <- app_assoc. simpl.
      do 3 f_equal. apply list_fmap_ext. intros i r _.
      by apply passage_text_ext.
Qed.

(** The whole call on a pool the provider embeds. *)
Lemma rerank_results_total query item pool embedder top_k w vq :
  (0 <= top_k)%Z ->
  embeds embedder query vq ->
  Forall (fun r => (r < List.length (heap w))%nat
                   /\ is_Some (passage_score embedder vq w r)) (item :: pool) ->
  exists keys w',
    rerank_results query (item :: pool) embedder top_k w
    = (Return (take (Z.to_nat top_k)
                 ((sort_desc (zip keys (item :: pool))).*2)), w')
    /\ Forall2 (fun r k => passage_score embedder vq w r = Some k
                           /\ score_in w' r = Some k) (item :: pool) keys
    /\ List.length (heap w') = List.length (heap w)
    /\ (forall r key, key <> "score" -> field_in w' r key = field_in w r key)
    /\ trace w'
       = (trace w ++ EvEmbedQuery query
            :: (EvEmbedQuery <$> (passage_text w <$> item :: pool)))%list.
Proof.
  intros Hk Hq Hall.
  pose proof (encode_success embedder query vq w Hq) as Henc.
  set (w1 := logged (EvEmbedQuery query) w) in *.
  destruct (rerank_loop_total_calls embedder vq (item :: pool) [] w1)
    as (w' & Hloop & Hsc & Htr).
  { eapply Forall_impl; [exact Hall|]. intros r [Hr Hp]. split; [done|].
    by rewrite (passage_score_ext _ _ w1 w). }
  change ([] ++ item :: pool)%list with (item :: pool) in Hloop.
  destruct (keys_exist (passage_score embedder vq w) (score_in w') (item :: pool))
    as [keys Hkeys].
  { intros r Hr. rewrite Forall_forall in Hall. by apply Hall. }
  { intros r Hr. by rewrite (Hsc r Hr), (passage_score_ext _ _ w1 w). }
  exists keys, w'.
  pose proof Hloop as Hret.
  apply rerank_loop_return in Hret as (_ & Hlen & Hfld & _ & _).
  split; [|split; [done|split; [done|split]]].
  - rewrite rerank_results_cons.
    rewrite (bind_return _ _ _ _ _ Henc).
    rewrite (bind_return _ _ _ (Arr1 (normalize_row vq)) w1 eq_refl).
    rewrite (bind_return _ _ _ _ _ Hloop).
    unfold sort_by_score_reverse. munfold.
    rewrite (mapM_sort_key_total (item :: pool) w' keys).
    + by rewrite py_slice_to_nonneg.
    + eapply Forall2_impl; [exact Hkeys|]. by intros r k [_ ?].
  - intros r key Hkey. by rewrite Hfld.
  - rewrite Htr. unfold w1. simpl. rewrite <- app_assoc. simpl.
    do 3 f_equal.
Qed.

End RerankCalls.

(** X15: on a non-empty pool the provider embeds (query and every passage
    text), a rerank call makes exactly N + 1 remote calls: one for the
    query, then one per candidate in pool order, each with the passage's
    text.  Nothing is cached: a text that occurs twice is sent twice. *)
Theorem X15_rerank_provider_calls {F : FloatOps}
    (query : string) (item : loc) (pool : list loc)
    (embedder : SolarEmbedder) (top_k : Z) (w : world) (vq : list float) :
  (0 <= top_k)%Z ->
  embeds embedder query vq ->
  Forall (fun r => (r < List.length (heap w))%nat
                   /\ is_Some (passage_score embedder vq w r)) (item :: pool) ->
  exists res w',
    rerank_results query (item :: pool) embedder top_k w = (Return res, w')
    /\ trace w'
       = (trace w ++ EvEmbedQuery query
            :: (EvEmbedQuery <$> (passage_text w <$> item :: pool)))%list.
Proof.
  intros Hk Hq Hall.
  destruct (rerank_results_total query item pool embedder top_k w vq Hk Hq Hall)
    as (keys & w' & Hres & _ & _ & _ & Htr).
  eauto.
Qed.

Lemma X15_rerank_provider_calls_witness :
  exists res w',
    rerank_results "q" [0; 0]%nat ZModel.toy_embedder 8 ZModel.w3
    = (Return res, w')
    /\ trace w'
       = [EvEmbedQuery "q"; EvEmbedQuery "gamma"; EvEmbedQuery "gamma"].
Proof.
  destruct (X15_rerank_provider_calls (F:=ZModel.ZFloat) "q" 0%nat [0%nat]
              ZModel.toy_embedder 8 ZModel.w3 [3; 0]%Z)
    as (res & w' & Hres & Htr).
  - discriminate.
  - split; reflexivity.
  - repeat (constructor; [split; [repeat constructor | by eexists]|]).
    constructor.
  - exists res, w'. split; [exact Hres | exact Htr].
Defined.

Section RerankAgain.
Context {F : FloatOps}.

Lemma sort_desc_sorted_id (l : list (float * loc)) :
  StronglySorted (fun a b : float * loc => flt a.1 b.1 = false) l ->
  sort_desc l = l.
Proof.
  induction 1 as [|x l Hl IH Hx]; simpl; [done|].
  fold (sort_desc l). rewrite IH. destruct l as [|y l']; [done|].
  simpl. apply Forall_cons in Hx as [Hxy _]. by rewrite Hxy.
Qed.

Lemma StronglySorted_take {A} (R : A -> A -> Prop) (l : list A) n :
  StronglySorted R l -> StronglySorted R (take n l).
Proof.
  intros H. revert n. induction H as [|x l Hl IH Hx]; intros [|n]; simpl;
    try constructor; [apply IH|]. by apply Forall_take.
Qed.

Lemma zip_of_graph (P : loc -> option float) (l : list (float * loc)) ks :
  Forall (fun p : float * loc => P p.2 = Some p.1) l ->
  Forall2 (fun r k => P r = Some k) (l.*2) ks ->
  zip ks (l.*2) = l.
Proof.
  intros Hl. revert ks. induction Hl as [|[k r] l Hp _ IH]; intros ks Hks.
  - by destruct ks.
  - simpl in *. apply Forall2_cons_inv_l in Hks as (k' & ks' & Hk' & Hks' & ->).
    simpl. rewrite IH by done. f_equal. f_equal. congruence.
Qed.

End RerankAgain.

(** X16: reranking is idempotent on a pool the provider embeds, as long as
    the provider answers the second call as it answered the first.  With
    the pool's scores comparing among themselves as a strict weak order (no
    NaN among them) and a top_k that is not negative, reranking the list a
    rerank call returned, with the same query and a provider that yields
    the same scores for the pool, returns that list again, in the same
    order. *)
Theorem X16_rerank_idempotent {F : FloatOps}
    (query : string) (item : loc) (pool : list loc)
    (embedder embedder2 : SolarEmbedder) (top_k : Z) (w : world)
    (vq vq2 : list float) :
  (0 <= top_k)%Z ->
  embeds embedder query vq ->
  Forall (fun r => (r < List.length (heap w))%nat
                   /\ is_Some (passage_score embedder vq w r)) (item :: pool) ->
  strict_weak_on (pool_scores embedder vq w (item :: pool)) = true ->
  embeds embedder2 query vq2 ->
  (forall r, r ∈ item :: pool ->
     passage_score embedder2 vq2 w r = passage_score embedder vq w r) ->
  exists res w' w'',
    rerank_results query (item :: pool) embedder top_k w = (Return res, w')
    /\ rerank_results query res embedder2 top_k w' = (Return res, w'').
Proof.
  intros Hk Hq Hall Hord Hq2 Hsame.
  destruct (rerank_results_total query item pool embedder top_k w vq Hk Hq Hall)
    as (keys & w' & Hres & Hkeys & Hlen & Hfld & _).
  set (cands := item :: pool) in *.
  assert (Hpool : pool_scores embedder vq w cands = keys).
  { apply omap_Forall2. eapply Forall2_impl; [exact Hkeys|].
    by intros r k [? _]. }
  rewrite Hpool in Hord.
  set (ranked := sort_desc (zip keys cands)) in *.
  set (k := Z.to_nat top_k) in *.
  set (res := take k (ranked.*2)) in *.
  exists res, w'.
  assert (Hps : forall r, r ∈ cands ->
                  passage_score embedder2 vq2 w' r
                  = passage_score embedder vq w r).
  { intros r Hr. rewrite <- (Hsame r Hr). apply passage_score_ext.
    by apply Hfld. }
  pose proof (sort_desc_perm (zip keys cands)) as Hperm. fold ranked in Hperm.
  assert (Hgraph : Forall (fun p : float * loc =>
                     passage_score embedder vq w p.2 = Some p.1) ranked).
  { apply Forall_forall. intros [k0 r0] Hin. rewrite Hperm in Hin. simpl.
    by destruct (zip_lookup_Forall2 _ keys cands k0 r0 Hkeys Hin). }
  assert (Hsub : forall r, r ∈ res -> r ∈ cands).
  { intros r Hr. unfold res in Hr.
    apply (sublist_subseteq _ _ (sublist_take _ _)) in Hr.
    unfold ranked in Hr. rewrite sorted_items_perm in Hr; [done|].
    symmetry. by eapply Forall2_length. }
  destruct res as [|r0 res'] eqn:Eres.
  { exists w'. split; [exact Hres|]. reflexivity. }
  rewrite <- Eres in *.
  destruct (rerank_results_total query r0 res' embedder2 top_k w' vq2 Hk Hq2)
    as (keys2 & w'' & Hres2 & Hkeys2 & _).
  { rewrite <- Eres. apply Forall_forall. intros r Hr.
    rewrite Hlen, (Hps r (Hsub r Hr)).
    rewrite Forall_forall in Hall. apply Hall. by apply Hsub. }
  rewrite <- Eres in Hres2, Hkeys2.
  exists w''. split; [exact Hres|].
  rewrite Hres2. f_equal. f_equal.
  assert (Hz : zip keys2 res = take k ranked).
  { unfold res. rewrite <- fmap_take.
    apply (zip_of_graph (passage_score embedder vq w)).
    - by apply Forall_take.
    - rewrite fmap_take. fold res.
      apply Forall2_same_length_lookup_2; [by eapply Forall2_length|].
      intros i r k2 Hr Hk2.
      destruct (Forall2_lookup_lr _ _ _ _ _ _ Hkeys2 Hr Hk2) as [Hp _].
      rewrite <- Hp. symmetry. apply Hps, Hsub.
      by eapply list_elem_of_lookup_2. }
  rewrite Hz, sort_desc_sorted_id.
  - rewrite fmap_take. fold res. apply take_ge.
    unfold res. rewrite length_take. lia.
  - apply StronglySorted_take.
    apply (sort_desc_sorted keys Hord). apply zip_keys_in.
Qed.

Lemma X16_rerank_idempotent_witness :
  exists res w' w'',
    rerank_results (F:=Binary32.F32) "q" [1; 2; 0]%nat Binary32.toy_embedder
      2 Binary32.w3 = (Return res, w')
    /\ rerank_results "q" res Binary32.toy_embedder 2 w' = (Return res, w'').
Proof.
  destruct (X16_rerank_idempotent (F:=Binary32.F32) "q" 1%nat [2; 0]%nat
              Binary32.toy_embedder Binary32.toy_embedder 2 Binary32.w3
              [Binary32.b32_int 3; Binary32.b32_int 0]
              [Binary32.b32_int 3; Binary32.b32_int 0])
    as (res & w' & w'' & H1 & H2).
  - discriminate.
  - split; reflexivity.
  - repeat (constructor; [split; [repeat constructor | by eexists]|]).
    constructor.
  - vm_compute. reflexivity.
  - split; reflexivity.
  - intros r _. reflexivity.
  - exists res, w', w''. split; [exact H1 | exact H2].
Defined.

(** ** The context builder *)

Section ContextMore.
Context {F : FloatOps}.

Lemma format_chunk_world chunk w : (format_chunk chunk w).2 = w.
Proof.
  unfold format_chunk. munfold. rewrite !dict_get_spec.
  by destruct (default (VStr "") (field_in w chunk "text")).
Qed.

Lemma format_chunk_bracket chunk w s w' :
  format_chunk chunk w = (Return s, w') -> exists rest, s = String "[" rest.
Proof.
  unfold format_chunk. intros H.
  apply bind_inv in H as (src & w1 & _ & H).
  apply bind_inv in H as (t & w2 & _ & H).
  apply bind_inv in H as (text & w3 & _ & H).
  munfold. injection H as <- _. eauto.
Qed.

Lemma mapM_format_chunk_world best w : (mapM format_chunk best w).2 = w.
Proof.
  induction best as [|b best IH]; simpl; [done|]. munfold.
  pose proof (format_chunk_world b w) as Hb.
  destruct (format_chunk b w) as [[y|e] w1]; simpl in Hb; subst w1; [|done].
  destruct (mapM format_chunk best w) as [[ys|e] w2]; simpl in IH; by subst w2.
Qed.

Lemma join_bracket_not_sentinel sep rest xs :
  PyStr.join sep (String "[" rest :: xs) <> no_documents.
Proof. destruct xs; simpl; discriminate. Qed.

Lemma format_context_return best w s w' :
  format_context best w = (Return s, w') ->
  w' = w /\ (s = no_documents <-> best = []).
Proof.
  unfold format_context. intros H.
  apply bind_inv in H as (fs & w1 & Hfs & H).
  pose proof (mapM_format_chunk_world best w) as Hw. rewrite Hfs in Hw.
  simpl in Hw. subst w1.
  pose proof (mapM_length _ _ _ _ _ Hfs) as Hlen.
  destruct best as [|b best].
  - destruct fs; [|done]. munfold. injection H as <- <-. done.
  - destruct fs as [|f fs]; [done|]. munfold. injection H as <- <-.
    split; [done|]. split; [|done]. intros Hs. exfalso.
    simpl in Hfs.
    apply (bind_inv (format_chunk b)) in Hfs as (y & w2 & Hy & Hfs).
    apply (bind_inv (mapM format_chunk best)) in Hfs as (ys & w3 & _ & Hfs).
    munfold. injection Hfs as -> ->.
    apply format_chunk_bracket in Hy as [rest ->].
    by apply join_bracket_not_sentinel in Hs.
Qed.

(** What the search driver adds to the store. *)
Lemma search_faiss_index_fresh query embedder index top_k tag w res w' :
  search_faiss_index query embedder index top_k tag w = (Return res, w') ->
  exists new : list dict,
    heap w' = (heap w ++ new)%list
    /\ res = seq (List.length (heap w)) (List.length new).
Proof.
  unfold search_faiss_index. intros H.
  apply bind_inv in H as (q & w1 & Hq & H).
  pose proof (encode_heap embedder (Text query) w) as Hh1.
  rewrite Hq in Hh1. simpl in Hh1.
  apply bind_inv in H as (q_emb & w2 & Hq0 & H).
  pose proof (getitem0_world q w1) as Hw2. rewrite Hq0 in Hw2.
  simpl in Hw2. subst w2.
  apply bind_inv in H as (results & w3 & Hsearch & H).
  apply FaissIndex_search_return_inv in Hsearch as (hits & w1' & Hh1' & Hloop).
  apply search_loop_return in Hloop as (dicts & Hh3 & _ & Hres & _).
  simpl in Hres. rewrite Hh1', Hh1 in Hh3, Hres.
  apply bind_inv in H as ([] & w4 & Htag & H).
  munfold. injection H as <- <-.
  destruct w3 as [h3 t3]. simpl in Hh3. subst h3 results.
  rewrite tag_all_fresh in Htag. injection Htag as <-.
  exists ((fun d : dict => <["source" := VStr tag]> d) <$> dicts).
  simpl. by rewrite length_fmap.
Qed.

(** The pool is a block of dictionaries appended to the store. *)
Lemma collect_chunks_fresh wiki query embedder vector_db use_wiki w pool w1 :
  collect_chunks wiki query embedder vector_db use_wiki w = (Return pool, w1) ->
  exists new : list dict,
    heap w1 = (heap w ++ new)%list
    /\ pool = seq (List.length (heap w)) (List.length new).
Proof.
  unfold collect_chunks. intros H.
  apply bind_inv in H as (gs & w2 & Hg & H).
  assert (Hg' : exists new1 : list dict,
             heap w2 = (heap w ++ new1)%list
             /\ gs = seq (List.length (heap w)) (List.length new1)).
  { destruct vector_db as [db|].
    - by eapply search_faiss_index_fresh.
    - munfold. injection Hg as <- <-. exists []. by rewrite app_nil_r. }
  destruct Hg' as (new1 & Hh2 & ->).
  apply bind_inv in H as (ws & w3 & Hw & H).
  assert (Hw' : exists new2 : list dict,
             heap w3 = (heap w2 ++ new2)%list
             /\ ws = seq (List.length (heap w2)) (List.length new2)).
  { destruct use_wiki.
    - unfold search_wikipedia_chunks in Hw.
      assert (Hl : wiki_loop wiki (extract_candidate_titles query 2) [] w2
                   = (Return ws, w3)).
      { destruct (extract_candidate_titles query 2); [|done]. exact Hw. }
      apply wiki_loop_return in Hl as (new2 & Hh & Hout & _). eauto.
    - munfold. injection Hw as <- <-. exists []. by rewrite app_nil_r. }
  destruct Hw' as (new2 & Hh3 & ->).
  munfold. injection H as <- <-.
  exists (new1 ++ new2)%list. rewrite Hh3, Hh2, <- app_assoc. split; [done|].
  rewrite !length_app, seq_app. done.
Qed.

(** A rerank call that returns leaves alone what is not in the pool. *)
Lemma rerank_results_frame query pool embedder top_k w res w' :
  rerank_results query pool embedder top_k w = (Return res, w') ->
  List.length (heap w') = List.length (heap w)
  /\ (forall r, r ∉ pool -> heap w' !! r = heap w !! r).
Proof.
  intros H. unfold rerank_results in H.
  destruct pool as [|item pool].
  { munfold. by injection H as <- <-. }
  apply bind_inv in H as (q & w1 & Hq & H).
  pose proof (encode_heap embedder (Text query) w) as Hh1.
  rewrite Hq in Hh1. simpl in Hh1.
  apply bind_inv in H as (q_emb & w2 & Hq0 & H).
  pose proof (getitem0_world q w1) as Hw2. rewrite Hq0 in Hw2.
  simpl in Hw2. subst w2.
  apply bind_inv in H as (scored & w3 & Hloop & H).
  apply rerank_loop_return in Hloop as (_ & Hlen & _ & Hoth & _).
  apply bind_inv in H as (sorted & w4 & Hsort & H).
  unfold sort_by_score_reverse in Hsort.
  apply bind_inv in Hsort as (keys & w5 & Hkeys & Hsort).
  apply mapM_sort_key_return in Hkeys as [-> Hkeys].
  munfold. injection Hsort as _ <-. injection H as _ <-.
  rewrite Hh1 in Hlen, Hoth. done.
Qed.

End ContextMore.

(** X17: a context that is returned is the sentinel exactly when no source
    contributed a passage: the result is "No relevant documents found." if
    the pool handed to the reranker is empty, and differs from it if the
    pool holds a passage. *)
Theorem X17_sentinel_iff_empty_pool {F : FloatOps}
    (wiki : Wikipedia) (query : string) (embedder : SolarEmbedder)
    (vector_db : option FaissIndex) (use_wiki : bool)
    (w : world) (s : string) (w' : world) :
  get_relevant_context wiki query embedder vector_db use_wiki w
    = (Return s, w') ->
  exists pool w1,
    collect_chunks wiki query embedder vector_db use_wiki w = (Return pool, w1)
    /\ (s = no_documents <-> pool = []).
Proof.
  unfold get_relevant_context. intros H.
  apply bind_inv in H as (pool & w1 & Hc & H).
  apply bind_inv in H as (best & w2 & Hr & H).
  exists pool, w1. split; [done|].
  apply format_context_return in H as [_ Hs]. rewrite Hs.
  apply rerank_results_return_inv in Hr as (keys & Hkeys & ->).
  pose proof (Forall2_length _ _ _ Hkeys) as Hlen.
  pose proof (sorted_items_perm keys pool (eq_sym Hlen)) as Hperm.
  rewrite py_slice_to_nonneg by done.
  split.
  - intros Hnil. apply (f_equal List.length) in Hnil.
    rewrite length_take, (Permutation_length Hperm) in Hnil. simpl in Hnil.
    destruct pool; [done|]. simpl in Hnil. lia.
  - intros ->. destruct keys; [|done]. reflexivity.
Qed.

Lemma X17_sentinel_iff_empty_pool_witness :
  let out := get_relevant_context ZModel.toy_wiki "q" ZModel.toy_embedder
               (Some ZModel.toy_index) false ZModel.w0 in
  exists s, out.1 = Return s /\ s <> no_documents.
Proof.
  intros out.
  set (s := ("[Paper_DB]" ++ nl ++ "alpha" ++ nl ++ nl
             ++ "[Paper_DB]" ++ nl ++ "beta")%string).
  assert (H1 : out.1 = Return s) by (vm_compute; reflexivity).
  assert (H : out = (Return s, out.2)).
  { rewrite (surjective_pairing out) at 1. by rewrite H1. }
  exists s. split; [exact H1|].
  destruct (X17_sentinel_iff_empty_pool (F:=ZModel.ZFloat) ZModel.toy_wiki "q"
              ZModel.toy_embedder (Some ZModel.toy_index) false ZModel.w0
              s out.2 H) as (pool & w1 & Hc & Hiff).
  intros Hs. apply Hiff in Hs. subst pool.
  assert (Hp : (collect_chunks ZModel.toy_wiki "q" ZModel.toy_embedder
                  (Some ZModel.toy_index) false ZModel.w0).1
               = Return [0; 1]%nat) by (vm_compute; reflexivity).
  rewrite Hc in Hp. discriminate.
Defined.

(** X18: the context builder only appends to the store: when it returns,
    every dictionary that was in the store before the call is still there,
    unchanged (the passages it scores and renders are its own). *)
Theorem X18_context_builder_appends_only {F : FloatOps}
    (wiki : Wikipedia) (query : string) (embedder : SolarEmbedder)
    (vector_db : option FaissIndex) (use_wiki : bool)
    (w : world) (s : string) (w' : world) :
  get_relevant_context wiki query embedder vector_db use_wiki w
    = (Return s, w') ->
  exists new : list dict, heap w' = (heap w ++ new)%list.
Proof.
  unfold get_relevant_context. intros H.
  apply bind_inv in H as (pool & w1 & Hc & H).
  apply bind_inv in H as (best & w2 & Hr & H).
  apply format_context_return in H as [-> _].
  apply collect_chunks_fresh in Hc as (new & Hh1 & Hpool).
  apply rerank_results_frame in Hr as [Hlen Hoth].
  exists (drop (List.length (heap w)) (heap w2)).
  rewrite <- (take_drop (List.length (heap w)) (heap w2)) at 1. f_equal.
  apply list_eq. intros i.
  destruct (decide (i < List.length (heap w))%nat) as [Hi|Hi].
  - rewrite lookup_take_lt by done. rewrite Hoth.
    + rewrite Hh1. by rewrite lookup_app_l.
    + rewrite Hpool. intros Hin. apply elem_of_seq in Hin. lia.
  - rewrite lookup_take_ge by lia. symmetry. apply lookup_ge_None. lia.
Qed.

Lemma X18_context_builder_appends_only_witness :
  let out := get_relevant_context ZModel.toy_wiki "q" ZModel.toy_embedder
               (Some ZModel.toy_index) false ZModel.w3 in
  exists new : list dict, heap out.2 = (heap ZModel.w3 ++ new)%list.
Proof.
  intros out.
  set (s := ("[Paper_DB]" ++ nl ++ "alpha" ++ nl ++ nl
             ++ "[Paper_DB]" ++ nl ++ "beta")%string).
  assert (H1 : out.1 = Return s) by (vm_compute; reflexivity).
  assert (H : out = (Return s, out.2)).
  { rewrite (surjective_pairing out) at 1. by rewrite H1. }
  exact (X18_context_builder_appends_only (F:=ZModel.ZFloat) ZModel.toy_wiki
           "q" ZModel.toy_embedder (Some ZModel.toy_index) false ZModel.w3
           s out.2 H).
Defined.

(** ** Loading the index *)

Section LoaderLemmas.
Context {F : FloatOps}.

Lemma load_metadata_rows disk lines acc :
  load_metadata disk lines acc
  = load_metadata disk
      (filter (fun line => PyStr.strip_truthy line = true) lines) acc.
Proof.
  revert acc. induction lines as [|line rest IH]; intros acc; [done|].
  rewrite filter_cons.
  destruct (decide (PyStr.strip_truthy line = true)) as [E|E]; simpl.
  - rewrite E. destruct (json_loads disk line); [done|]. apply IH.
  - apply not_true_is_false in E. rewrite E. apply IH.
Qed.

Lemma load_metadata_success disk lines acc rows :
  load_metadata disk lines acc = inr rows ->
  exists new,
    rows = (acc ++ new)%list
    /\ Forall2 (fun line row => json_loads disk line = inr row)
         (filter (fun line => PyStr.strip_truthy line = true) lines) new.
Proof.
  revert acc. induction lines as [|line rest IH]; intros acc H; simpl in H.
  - injection H as <-. exists []. rewrite app_nil_r. split; [done|constructor].
  - rewrite filter_cons.
    destruct (decide (PyStr.strip_truthy line = true)) as [E|E].
    + rewrite E in H.
      destruct (json_loads disk line) as [e|row] eqn:Hj; [done|].
      apply IH in H as (new & -> & Hf). exists (row :: new).
      rewrite <- app_assoc. split; [done|]. by constructor.
    + apply not_true_is_false in E. rewrite E in H. by apply IH.
Qed.

(** On lines that all hold a row. *)
Lemma load_metadata_good_then_bad disk pre rows bad e post acc :
  Forall (fun line => PyStr.strip_truthy line = true) (pre ++ [bad]) ->
  Forall2 (fun line row => json_loads disk line = inr row) pre rows ->
  json_loads disk bad = inl e ->
  load_metadata disk (pre ++ bad :: post) acc = inl e.
Proof.
  intros Hnb Hpre Hbad. revert acc.
  induction Hpre as [|line row pre rows Hj _ IH]; intros acc; simpl.
  - apply Forall_cons in Hnb as [Hb _]. by rewrite Hb, Hbad.
  - simpl in Hnb. apply Forall_cons in Hnb as [Hl Hnb].
    rewrite Hl, Hj. by apply IH.
Qed.

End LoaderLemmas.

(** X19: a load that succeeds has found both files, and its metadata list
    is the parsed lines of the metadata file that are not blank, in file
    order: blank lines are skipped and do not count, so metadata row i is
    the i-th line that holds a row, and the index has as many rows as the
    file has such lines. *)
Theorem X19_load_rows_are_nonblank_lines {F : FloatOps}
    (disk : Disk) (index_path meta_path : string) (index : FaissIndex) :
  FaissIndex_init disk index_path meta_path = inr index ->
  path_exists disk index_path = true
  /\ path_exists disk meta_path = true
  /\ read_index disk index_path = inr (index_d index, index_search index)
  /\ exists content,
       read_text disk meta_path = inr content
       /\ Forall2 (fun line row => json_loads disk line = inr row)
            (row_lines content) (metadata index)
       /\ List.length (metadata index) = List.length (row_lines content).
Proof.
  unfold FaissIndex_init. intros H.
  destruct (path_exists disk index_path); [|done].
  destruct (path_exists disk meta_path); [|done]. simpl in H.
  destruct (read_index disk index_path) as [e|[d search]]; [done|].
  destruct (read_text disk meta_path) as [e|content]; [done|].
  destruct (load_metadata disk (file_lines content) []) as [e|rows] eqn:Hl;
    [done|].
  injection H as <-. simpl.
  apply load_metadata_success in Hl as (new & -> & Hf). simpl.
  repeat split; try done. exists content. repeat split; try done.
  symmetry. by eapply Forall2_length.
Qed.

Lemma X19_load_rows_are_nonblank_lines_witness :
  exists index,
    FaissIndex_init ZExamples.toy_disk "db.faiss" "db.jsonl" = inr index
    /\ List.length (metadata index) = 2%nat
    /\ List.length (file_lines ZExamples.meta_text) = 3%nat.
Proof.
  assert (Hb : (match FaissIndex_init ZExamples.toy_disk "db.faiss" "db.jsonl"
                with inr _ => true | inl _ => false end) = true)
    by (vm_compute; reflexivity).
  destruct (FaissIndex_init ZExamples.toy_disk "db.faiss" "db.jsonl")
    as [e|index] eqn:E; [discriminate Hb|].
  exists index. split; [reflexivity|].
  destruct (X19_load_rows_are_nonblank_lines (F:=ZModel.ZFloat)
              ZExamples.toy_disk "db.faiss" "db.jsonl" index E)
    as (_ & _ & _ & content & Hc & _ & Hlen).
  split; [|reflexivity].
  rewrite Hlen. injection Hc as <-. reflexivity.
Defined.

(** X20: loading is all or nothing.  When a file is missing the load fails
    with the missing-resource error whatever the files hold; and when both
    files are there and the index is readable, one malformed line among the
    lines that hold a row makes the load fail with that line's error: no
    index is built from the rows before it. *)
Theorem X20_load_all_or_nothing {F : FloatOps}
    (disk : Disk) (index_path meta_path : string) :
  (path_exists disk index_path = false \/ path_exists disk meta_path = false ->
   FaissIndex_init disk index_path meta_path
   = inl (FileNotFoundError index_path meta_path))
  /\ (forall d search content pre rows bad e post,
        path_exists disk index_path = true ->
        path_exists disk meta_path = true ->
        read_index disk index_path = inr (d, search) ->
        read_text disk meta_path = inr content ->
        row_lines content = (pre ++ bad :: post)%list ->
        Forall2 (fun line row => json_loads disk line = inr row) pre rows ->
        json_loads disk bad = inl e ->
        FaissIndex_init disk index_path meta_path = inl e).
Proof.
  split.
  - intros [H|H]; unfold FaissIndex_init; rewrite H; [done|].
    by rewrite orb_true_r.
  - intros d search content pre rows bad e post Hi Hm Hr Ht Hrows Hpre Hbad.
    unfold FaissIndex_init. rewrite Hi, Hm, Hr, Ht. simpl.
    rewrite load_metadata_rows. fold (row_lines content). rewrite Hrows.
    rewrite (load_metadata_good_then_bad disk pre rows bad e post []); [done| |done..].
    assert (Hall : Forall (fun line => PyStr.strip_truthy line = true)
                     (row_lines content)).
    { apply Forall_forall. intros l Hl. unfold row_lines in Hl.
      by apply list_elem_of_filter in Hl as [? _]. }
    rewrite Hrows in Hall. apply Forall_app in Hall as [Hp Hb].
    apply Forall_app. split; [done|]. apply Forall_cons in Hb as [Hb _].
    by constructor.
Qed.

Lemma X20_load_all_or_nothing_witness :
  FaissIndex_init ZExamples.toy_disk "gone.faiss" "db.jsonl"
    = inl (FileNotFoundError "gone.faiss" "db.jsonl")
  /\ FaissIndex_init ZExamples.toy_disk "db.faiss" "bad.jsonl"
     = inl (LoadError "JSONDecodeError").
Proof.
  destruct (X20_load_all_or_nothing (F:=ZModel.ZFloat) ZExamples.toy_disk
              "gone.faiss" "db.jsonl") as [H1 _].
  destruct (X20_load_all_or_nothing (F:=ZModel.ZFloat) ZExamples.toy_disk
              "db.faiss" "bad.jsonl") as [_ H2].
  split.
  - apply H1. left. reflexivity.
  - apply (H2 2%nat (index_search ZModel.toy_index) ZExamples.meta_text_bad
             [("{alpha}" ++ nl)%string] [{["text" := VStr "alpha"]}]
             ("oops" ++ nl)%string (LoadError "JSONDecodeError")
             [("{beta}" ++ nl)%string]); try reflexivity.
    repeat constructor.
Defined.

(** ** The debate *)

Ltac sunfold :=
  unfold mbind, S_bind, mret, S_ret, sbind, sret, sraise, slift, slog in *.

Section DebateLemmas.
Variable AGENT_PROMPTS : gmap string string.
Variable str_format : string -> list (string * string) -> solver_exn + string.

Lemma sbind_inv {A B} (m : S A) (k : A -> S B) tr b tr' :
  (m ≫= k) tr = (inr b, tr') ->
  exists a tr1, m tr = (inr a, tr1) /\ k a tr1 = (inr b, tr').
Proof.
  sunfold. destruct (m tr) as [[e|a] tr1]; intros H; [discriminate|eauto].
Qed.

Lemma call_solar_with_key api key prompt max_tokens tr :
  UPSTAGE_API_KEY api = Some key ->
  call_solar api prompt tenth max_tokens tr
  = (inr (reply api prompt max_tokens),
     (tr ++ [SPost prompt tenth max_tokens])%list).
Proof.
  intros Hk. unfold call_solar, reply. rewrite Hk. sunfold. simpl.
  unfold tenth. by destruct (post_chat api prompt _ max_tokens).
Qed.

Lemma call_solar_no_key api prompt temperature max_tokens tr :
  UPSTAGE_API_KEY api = None ->
  call_solar api prompt temperature max_tokens tr
  = (inl (RuntimeError "UPSTAGE_API_KEY is not set. Check your .env file."),
     tr).
Proof. intros Hk. unfold call_solar. by rewrite Hk. Qed.

Lemma posts_app evs1 evs2 : posts (evs1 ++ evs2) = (posts evs1 ++ posts evs2)%list.
Proof. unfold posts. apply omap_app. Qed.

(** With a key and a [str.format] that fills the templates of the roles
    consulted, the loop returns, having sent one request per role with a
    usable template. *)
Lemma consult_total api key query context roles reports tr :
  UPSTAGE_API_KEY api = Some key ->
  (forall role t, role ∈ roles ->
     usable_template AGENT_PROMPTS role = Some t ->
     exists p, str_format t [("context", context); ("question", query)]
               = inr p) ->
  exists reports' evs,
    consult AGENT_PROMPTS str_format api query context roles reports tr
    = (inr reports', (tr ++ evs)%list)
    /\ List.length (posts evs)
       = List.length (omap (usable_template AGENT_PROMPTS) roles).
Proof.
  intros Hk Hfmt. revert reports tr.
  induction roles as [|role rest IH]; intros reports tr; simpl.
  - exists reports, []. by rewrite app_nil_r.
  - sunfold. simpl.
    assert (Hrest : forall role0 t0, role0 ∈ rest ->
              usable_template AGENT_PROMPTS role0 = Some t0 ->
              exists p, str_format t0 [("context", context); ("question", query)]
                        = inr p).
    { intros role0 t0 Hin. apply Hfmt. by right. }
    destruct (usable_template AGENT_PROMPTS role) as [t|] eqn:Ht.
    + destruct (Hfmt role t) as [p Hp]; [by left|done|].
      rewrite Hp. simpl. rewrite (call_solar_with_key api key) by done.
      destruct (IH Hrest (<[role := reply api p 1000]> reports)
                  ((tr ++ [SPrint ("   [Debate] Consulting "
                                   ++ py_capitalize role ++ " Specialist...")])
                   ++ [SPost p tenth 1000])%list)
        as (reports' & evs & Hc & Hlen).
      rewrite Hc. eexists _, (_ :: _ :: evs). split.
      * by rewrite <- !app_assoc.
      * simpl. by rewrite Hlen.
    + destruct (IH Hrest
                  (<[role := "Error: Prompt template not found."]> reports)
                  (tr ++ [SPrint ("   [Debate] Consulting "
                                  ++ py_capitalize role ++ " Specialist...")])%list)
        as (reports' & evs & Hc & Hlen).
      rewrite Hc. eexists _, (_ :: evs). split.
      * by rewrite <- !app_assoc.
      * simpl. by rewrite Hlen.
Qed.

(** Without a key the loop sends nothing, and gets through only when no
    role has a usable template. *)
Lemma consult_no_key api query context roles reports tr :
  UPSTAGE_API_KEY api = None ->
  exists evs,
    (consult AGENT_PROMPTS str_format api query context roles reports tr).2
    = (tr ++ evs)%list
    /\ posts evs = []
    /\ (forall reports',
          (consult AGENT_PROMPTS str_format api query context roles reports tr).1
          = inr reports' ->
          Forall (fun role => usable_template AGENT_PROMPTS role = None) roles).
Proof.
  intros Hk. revert reports tr.
  induction roles as [|role rest IH]; intros reports tr; simpl.
  - exists []. rewrite app_nil_r. repeat split. constructor.
  - sunfold. simpl.
    destruct (usable_template AGENT_PROMPTS role) as [t|] eqn:Ht.
    + destruct (str_format t _) as [e|p]; simpl.
      * eexists [_]. repeat split. intros r' Hr. discriminate.
      * rewrite call_solar_no_key by done.
        eexists [_]. repeat split. intros r' Hr. discriminate.
    + destruct (IH (<[role := "Error: Prompt template not found."]> reports)
                  (tr ++ [SPrint ("   [Debate] Consulting "
                                  ++ py_capitalize role ++ " Specialist...")])%list)
        as (evs & Htr & Hp & Hret).
      exists (SPrint ("   [Debate] Consulting " ++ py_capitalize role
                      ++ " Specialist...") :: evs).
      rewrite Htr, <- app_assoc. repeat split; [done|].
      intros r' Hr. constructor; [done|]. by eapply Hret.
Qed.

(** What the loop leaves in [reports] when it returns. *)
Lemma consult_return api query context roles reports tr reports' tr' :
  consult AGENT_PROMPTS str_format api query context roles reports tr
  = (inr reports', tr') ->
  NoDup roles ->
  (forall role, role ∈ roles ->
     exists v,
       reports' !! role = Some v
       /\ expected_report AGENT_PROMPTS str_format api query context role
          = Some v)
  /\ (forall role, role ∉ roles -> reports' !! role = reports !! role).
Proof.
  revert reports tr. induction roles as [|role rest IH]; intros reports tr H Hnd.
  - simpl in H. sunfold. injection H as <- <-. split; [|done].
    intros role Hr. by apply elem_of_nil in Hr.
  - apply NoDup_cons in Hnd as [Hnin Hnd]. simpl in H. sunfold. simpl in H.
    assert (Hgen : forall v tr1,
      consult AGENT_PROMPTS str_format api query context rest
        (<[role := v]> reports) tr1 = (inr reports', tr') ->
      expected_report AGENT_PROMPTS str_format api query context role = Some v ->
      (forall role0, role0 ∈ role :: rest ->
         exists v0,
           reports' !! role0 = Some v0
           /\ expected_report AGENT_PROMPTS str_format api query context role0
              = Some v0)
      /\ (forall role0, role0 ∉ role :: rest ->
            reports' !! role0 = reports !! role0)).
    { intros v tr1 Hc Hv. apply IH in Hc as [Hin Hout]; [|done]. split.
      - intros role0 Hr. apply elem_of_cons in Hr as [->|Hr]; [|by apply Hin].
        exists v. by rewrite Hout, lookup_insert_eq.
      - intros role0 Hr. apply not_elem_of_cons in Hr as [Hne Hr].
        by rewrite Hout, lookup_insert_ne. }
    unfold expected_report in Hgen.
    destruct (usable_template AGENT_PROMPTS role) as [t|] eqn:Ht.
    + destruct (str_format t [("context", context); ("question", query)])
        as [e|p] eqn:Hp; simpl in H; [discriminate|].
      unfold call_solar in H.
      destruct (UPSTAGE_API_KEY api); sunfold; simpl in H; [|discriminate].
      unfold tenth in H.
      destruct (post_chat api p (Decimal 1 (-1)) 1000) as [msg|content];
        by eapply Hgen.
    + by eapply Hgen.
Qed.

End DebateLemmas.

Lemma run_debate_after_consult AGENT_PROMPTS str_format api query context tr :
  run_multidisciplinary_debate AGENT_PROMPTS str_format api query context tr
  = match consult AGENT_PROMPTS str_format api query context
            ["mechanism"; "clinical"; "safety"] ∅
            (tr ++ [SPrint (nl ++ "   [Debate] Convening Tumor Board for: '"
                            ++ query ++ "'")])%list with
    | (inl e, tr1) => (inl e, tr1)
    | (inr reports, tr1) =>
        let tr2 := (tr1 ++ [SPrint
          "   [Debate] Chief Oncologist is synthesizing the final verdict..."])%list in
        let result v : gmap string string :=
          <["mechanism" := report_of reports "mechanism"]>
            (<["clinical" := report_of reports "clinical"]>
               (<["safety" := report_of reports "safety"]>
                  {["final_verdict" := v]})) in
        match usable_template AGENT_PROMPTS "moderator" with
        | None => (inr (result "Error: Moderator prompt not found."), tr2)
        | Some t =>
            match str_format t (moderator_args query reports) with
            | inl e => (inl e, tr2)
            | inr p =>
                match call_solar api p tenth 1500 tr2 with
                | (inl e, tr3) => (inl e, tr3)
                | (inr v, tr3) => (inr (result v), tr3)
                end
            end
        end
    end.
Proof.
  unfold run_multidisciplinary_debate. sunfold.
  destruct (consult _ _ _ _ _ _ _ _) as [[e|reports] tr1]; [done|].
  cbv zeta. destruct (usable_template AGENT_PROMPTS "moderator"); [|done].
  destruct (str_format _ _); [done|]. simpl.
  by destruct (call_solar _ _ _ _ _) as [[e|v] tr3].
Qed.

(** X21: with an API key set, and [str.format] able to fill the templates
    in use (the usable template of each specialist with the context and the
    question, the usable moderator template with the question and three
    reports, whatever the reports say), the debate always returns, whatever
    the chat service does (its failures become report texts): the result
    has exactly the four fields "mechanism", "clinical", "safety" and
    "final_verdict", and the service has been sent one request per role
    whose template is usable, at most four.  Nothing is asked of
    [str.format] on other templates or other fields. *)
Theorem X21_debate_returns_four_fields
    (AGENT_PROMPTS : gmap string string)
    (str_format : string -> list (string * string) -> solver_exn + string)
    (api : Upstage) (key query context : string) (tr : list solver_event) :
  UPSTAGE_API_KEY api = Some key ->
  (forall role t, role ∈ ["mechanism"; "clinical"; "safety"] ->
     usable_template AGENT_PROMPTS role = Some t ->
     exists p, str_format t [("context", context); ("question", query)]
               = inr p) ->
  (forall t m c s, usable_template AGENT_PROMPTS "moderator" = Some t ->
     exists p, str_format t [("question", query); ("mechanism_report", m);
                             ("clinical_report", c); ("safety_report", s)]
               = inr p) ->
  exists result evs,
    run_multidisciplinary_debate AGENT_PROMPTS str_format api query context tr
    = (inr result, (tr ++ evs)%list)
    /\ dom result
       = ({["mechanism"; "clinical"; "safety"; "final_verdict"]} : gset string)
    /\ List.length (posts evs)
       = List.length (omap (usable_template AGENT_PROMPTS)
                        ["mechanism"; "clinical"; "safety"; "moderator"])
    /\ (List.length (posts evs) <= 4)%nat.
Proof.
  intros Hk Hfmt Hmod. rewrite run_debate_after_consult.
  set (tr1 := (tr ++ [SPrint _])%list).
  destruct (consult_total AGENT_PROMPTS str_format api key query context
              ["mechanism"; "clinical"; "safety"] ∅ tr1 Hk Hfmt)
    as (reports & evs & Hc & Hlen).
  rewrite Hc. cbv zeta.
  assert (Hdom : forall v : string,
    dom (<["mechanism" := report_of reports "mechanism"]>
           (<["clinical" := report_of reports "clinical"]>
              (<["safety" := report_of reports "safety"]>
                 ({["final_verdict" := v]} : gmap string string))))
    = ({["mechanism"; "clinical"; "safety"; "final_verdict"]} : gset string)).
  { intros v. rewrite !dom_insert_L, dom_singleton_L. set_solver. }
  assert (Hfour : omap (usable_template AGENT_PROMPTS)
                    ["mechanism"; "clinical"; "safety"; "moderator"]
                  = (omap (usable_template AGENT_PROMPTS)
                       ["mechanism"; "clinical"; "safety"]
                     ++ omap (usable_template AGENT_PROMPTS) ["moderator"])%list).
  { by rewrite <- omap_app. }
  assert (Hle : (List.length (omap (usable_template AGENT_PROMPTS)
                    ["mechanism"; "clinical"; "safety"]) <= 3)%nat).
  { unfold omap, list_omap. repeat case_match; simpl; lia. }
  rewrite Hfour, length_app.
  set (n3 := List.length (omap (usable_template AGENT_PROMPTS)
                            ["mechanism"; "clinical"; "safety"])) in *.
  destruct (usable_template AGENT_PROMPTS "moderator") as [t|] eqn:Ht.
  - destruct (Hmod t (report_of reports "mechanism")
                (report_of reports "clinical") (report_of reports "safety")
                eq_refl) as [p Hp].
    change (str_format t (moderator_args query reports) = inr p) in Hp.
    rewrite Hp. rewrite (call_solar_with_key api key) by done.
    exists (<["mechanism" := report_of reports "mechanism"]>
              (<["clinical" := report_of reports "clinical"]>
                 (<["safety" := report_of reports "safety"]>
                    {["final_verdict" := reply api p 1500]}))),
           (SPrint (nl ++ "   [Debate] Convening Tumor Board for: '"
                    ++ query ++ "'")
            :: evs ++ [SPrint
                 "   [Debate] Chief Oncologist is synthesizing the final verdict...";
                 SPost p tenth 1500])%list.
    split.
    { unfold tr1. rewrite <- !app_assoc. reflexivity. }
    split; [apply Hdom|].
    assert (Hposts : List.length (posts (SPrint (nl ++ "   [Debate] Convening Tumor Board for: '"
                    ++ query ++ "'")
            :: evs ++ [SPrint
                 "   [Debate] Chief Oncologist is synthesizing the final verdict...";
                 SPost p tenth 1500])%list)
             = (List.length (posts evs) + 1)%nat).
    { change (posts (?a :: ?l)) with (posts l).
      rewrite posts_app, length_app. reflexivity. }
    rewrite Hposts, Hlen. simpl. rewrite Ht. simpl. lia.
  - exists (<["mechanism" := report_of reports "mechanism"]>
              (<["clinical" := report_of reports "clinical"]>
                 (<["safety" := report_of reports "safety"]>
                    {["final_verdict" := "Error: Moderator prompt not found."]}))),
           (SPrint (nl ++ "   [Debate] Convening Tumor Board for: '"
                    ++ query ++ "'")
            :: evs ++ [SPrint
                 "   [Debate] Chief Oncologist is synthesizing the final verdict..."])%list.
    split.
    { unfold tr1. rewrite <- !app_assoc. reflexivity. }
    split; [apply Hdom|].
    assert (Hposts : List.length (posts (SPrint (nl ++ "   [Debate] Convening Tumor Board for: '"
                    ++ query ++ "'")
            :: evs ++ [SPrint
                 "   [Debate] Chief Oncologist is synthesizing the final verdict..."])%list)
             = List.length (posts evs)).
    { change (posts (?a :: ?l)) with (posts l).
      rewrite posts_app, length_app. simpl. lia. }
    rewrite Hposts, Hlen. simpl. rewrite Ht. simpl. lia.
Qed.

(** [picky_format] refuses templates with a brace; none of the four in use
    has one. *)
Lemma X21_debate_returns_four_fields_witness :
  ZExamples.picky_format "{x}" [] = inl (FormatError "KeyError")
  /\ exists result evs,
       run_multidisciplinary_debate ZExamples.toy_prompts
         ZExamples.picky_format ZExamples.toy_api "Q" "ctx" []
       = (inr result, evs)
       /\ List.length (posts evs) = 4%nat.
Proof.
  split; [reflexivity|].
  destruct (X21_debate_returns_four_fields ZExamples.toy_prompts
              ZExamples.picky_format ZExamples.toy_api "key" "Q" "ctx" [])
    as (result & evs & Hrun & _ & Hlen & _).
  - reflexivity.
  - intros role t Hin Ht.
    repeat (apply elem_of_cons in Hin as [->|Hin];
            [vm_compute in Ht; injection Ht as <-; eexists; reflexivity|]).
    by apply elem_of_nil in Hin.
  - intros t m c s Ht. vm_compute in Ht. injection Ht as <-.
    eexists. reflexivity.
  - exists result, evs. split; [exact Hrun|]. rewrite Hlen. reflexivity.
Defined.

(** X22: without an API key the debate never contacts the chat service,
    however it ends; and it can only return when none of the four roles has
    a usable template (otherwise it ends in an error, [RuntimeError] at the
    first call unless [str.format] failed before). *)
Theorem X22_debate_without_key
    (AGENT_PROMPTS : gmap string string)
    (str_format : string -> list (string * string) -> solver_exn + string)
    (api : Upstage) (query context : string) (tr : list solver_event) :
  UPSTAGE_API_KEY api = None ->
  exists evs,
    (run_multidisciplinary_debate AGENT_PROMPTS str_format api query context
       tr).2 = (tr ++ evs)%list
    /\ posts evs = []
    /\ (forall result,
          (run_multidisciplinary_debate AGENT_PROMPTS str_format api query
             context tr).1 = inr result ->
          Forall (fun role => usable_template AGENT_PROMPTS role = None)
                 ["mechanism"; "clinical"; "safety"; "moderator"]).
Proof.
  intros Hk. rewrite run_debate_after_consult.
  set (p1 := SPrint _).
  destruct (consult_no_key AGENT_PROMPTS str_format api query context
              ["mechanism"; "clinical"; "safety"] ∅ (tr ++ [p1])%list Hk)
    as (evs & Htr & Hp & Hret).
  destruct (consult _ _ _ _ _ _ _ _) as [[e|reports] tr1]; simpl in Htr; subst tr1.
  - exists (p1 :: evs). rewrite <- app_assoc. repeat split; [done|].
    intros result Hr. discriminate.
  - specialize (Hret reports eq_refl). cbv zeta.
    set (p2 := SPrint _).
    assert (Hposts : posts (p1 :: evs ++ [p2]) = []).
    { change (posts (p1 :: evs ++ [p2])) with (posts (evs ++ [p2])).
      by rewrite posts_app, Hp. }
    assert (Htrace : (((tr ++ [p1]) ++ evs) ++ [p2] = tr ++ p1 :: evs ++ [p2])%list).
    { by rewrite <- !app_assoc. }
    destruct (usable_template AGENT_PROMPTS "moderator") as [t|] eqn:Ht.
    + destruct (str_format t (moderator_args query reports)) as [e|p].
      * exists (p1 :: evs ++ [p2])%list. simpl. repeat split; try done.
      * rewrite call_solar_no_key by done.
        exists (p1 :: evs ++ [p2])%list. simpl. repeat split; try done.
    + exists (p1 :: evs ++ [p2])%list. simpl. repeat split; try done.
      intros result _.
      change [("mechanism" : string); "clinical"; "safety"; "moderator"]
        with (["mechanism"; "clinical"; "safety"] ++ ["moderator"])%list.
      apply Forall_app. split; [done|]. by constructor.
Qed.

Lemma X22_debate_without_key_witness :
  exists evs,
    (run_multidisciplinary_debate ZExamples.toy_prompts ZExamples.toy_format
       ZExamples.toy_api_no_key "Q" "ctx" []).2 = evs
    /\ posts evs = [].
Proof.
  destruct (X22_debate_without_key ZExamples.toy_prompts ZExamples.toy_format
              ZExamples.toy_api_no_key "Q" "ctx" [] eq_refl)
    as (evs & Htr & Hp & _).
  exists evs. split; [exact Htr | exact Hp].
Defined.

(** X23: in a debate that returns, each specialist field is the fixed
    "template not found" message when the role has no usable template and
    otherwise what the chat service answered to the filled template, an
    "[API Error] ..." text when the request failed; and the final verdict is
    the answer to the moderator template filled with the question and
    exactly these three reports (a failed specialist is passed on as its
    error text, it does not stop the debate). *)
Theorem X23_debate_reports_and_verdict
    (AGENT_PROMPTS : gmap string string)
    (str_format : string -> list (string * string) -> solver_exn + string)
    (api : Upstage) (query context : string) (tr : list solver_event)
    (result : gmap string string) (tr' : list solver_event) :
  run_multidisciplinary_debate AGENT_PROMPTS str_format api query context tr
    = (inr result, tr') ->
  (forall role, role ∈ ["mechanism"; "clinical"; "safety"] ->
     result !! role
     = expected_report AGENT_PROMPTS str_format api query context role
     /\ is_Some (result !! role))
  /\ match usable_template AGENT_PROMPTS "moderator" with
     | None =>
         result !! "final_verdict" = Some "Error: Moderator prompt not found."
     | Some t =>
         exists p,
           str_format t
             [ ("question", query);
               ("mechanism_report", default "" (result !! "mechanism"));
               ("clinical_report", default "" (result !! "clinical"));
               ("safety_report", default "" (result !! "safety")) ] = inr p
           /\ result !! "final_verdict" = Some (reply api p 1500)
           /\ last (posts tr') = Some (p, 1500%Z)
     end.
Proof.
  rewrite run_debate_after_consult. intros H.
  destruct (consult _ _ _ _ _ _ _ _) as [[e|reports] tr1] eqn:Hc; [discriminate|].
  apply consult_return in Hc as [Hin _].
  2:{ apply (bool_decide_unpack _). vm_compute. exact I. }
  cbv zeta in H.
  assert (Hrep : forall role, role ∈ ["mechanism"; "clinical"; "safety"] ->
            expected_report AGENT_PROMPTS str_format api query context role
            = Some (report_of reports role)).
  { intros role Hr. destruct (Hin role Hr) as (v & Hv & He).
    unfold report_of. by rewrite Hv. }
  assert (Hfields : forall v : string,
    let res : gmap string string :=
      <["mechanism" := report_of reports "mechanism"]>
        (<["clinical" := report_of reports "clinical"]>
           (<["safety" := report_of reports "safety"]>
              {["final_verdict" := v]})) in
    (forall role, role ∈ ["mechanism"; "clinical"; "safety"] ->
       res !! role
       = expected_report AGENT_PROMPTS str_format api query context role
       /\ is_Some (res !! role))
    /\ res !! "final_verdict" = Some v
    /\ moderator_args query reports
       = [ ("question", query);
           ("mechanism_report", default "" (res !! "mechanism"));
           ("clinical_report", default "" (res !! "clinical"));
           ("safety_report", default "" (res !! "safety")) ]).
  { intros v res.
    assert (Hm : res !! "mechanism" = Some (report_of reports "mechanism"))
      by (unfold res; by simplify_map_eq).
    assert (Hcl : res !! "clinical" = Some (report_of reports "clinical"))
      by (unfold res; by simplify_map_eq).
    assert (Hs : res !! "safety" = Some (report_of reports "safety"))
      by (unfold res; by simplify_map_eq).
    split; [|split; [by unfold res; simplify_map_eq|]].
    - intros role Hr. rewrite (Hrep role Hr).
      rewrite !elem_of_cons, elem_of_nil in Hr.
      destruct Hr as [->|[->|[->|[]]]]; rewrite ?Hm, ?Hcl, ?Hs; eauto.
    - unfold moderator_args. by rewrite Hm, Hcl, Hs. }
  destruct (usable_template AGENT_PROMPTS "moderator") as [t|] eqn:Ht.
  - destruct (str_format t (moderator_args query reports)) as [e|p] eqn:Hp;
      [discriminate|].
    destruct (UPSTAGE_API_KEY api) as [key|] eqn:Hk.
    2:{ rewrite call_solar_no_key in H by done. discriminate. }
    rewrite (call_solar_with_key api key) in H by done.
    injection H as <- <-.
    set (v := reply api p 1500).
    assert (Hv : v = reply api p 1500) by done.
    destruct (Hfields v) as (Hroles & Hfinal & Hargs).
    split; [exact Hroles|]. exists p. rewrite <- Hargs. split; [done|].
    split; [by rewrite Hfinal, Hv|].
    rewrite posts_app. simpl. by rewrite last_snoc.
  - injection H as <- <-.
    destruct (Hfields "Error: Moderator prompt not found.") as (Hroles & Hfinal & _).
    split; [exact Hroles | exact Hfinal].
Qed.

Lemma X23_debate_reports_and_verdict_witness :
  let out := run_multidisciplinary_debate ZExamples.toy_prompts
               ZExamples.toy_format ZExamples.toy_api "Q" "ctx" [] in
  exists result,
    out.1 = inr result
    /\ result !! "clinical" = Some "[API Error] timeout".
Proof.
  intros out.
  assert (Hb : (match out.1 with inr _ => true | inl _ => false end) = true)
    by (vm_compute; reflexivity).
  destruct out as [[e|result] tr'] eqn:E; [discriminate Hb|].
  exists result. split; [reflexivity|].
  destruct (X23_debate_reports_and_verdict ZExamples.toy_prompts
              ZExamples.toy_format ZExamples.toy_api "Q" "ctx" [] result tr' E)
    as [Hroles _].
  destruct (Hroles "clinical") as [Hc _].
  - right. left.
  - rewrite Hc. reflexivity.
Defined.

(** ** The reranker when a passage cannot be embedded *)

Section RerankPartial.
Context {F : FloatOps}.

(** The loop over a prefix of passages the provider embeds. *)
Lemma rerank_loop_prefix embedder vq pre rest acc w :
  Forall (fun r => (r < List.length (heap w))%nat
                   /\ is_Some (passage_score embedder vq w r)) pre ->
  exists w1,
    rerank_loop embedder (Arr1 (normalize_row vq)) (pre ++ rest)%list acc w
    = rerank_loop embedder (Arr1 (normalize_row vq)) rest (acc ++ pre)%list w1
    /\ List.length (heap w1) = List.length (heap w)
    /\ (forall r key, key <> "score" -> field_in w1 r key = field_in w r key)
    /\ (forall r, r ∉ pre -> heap w1 !! r = heap w !! r)
    /\ (forall r, r ∈ pre -> score_in w1 r = passage_score embedder vq w r)
    /\ trace w1
       = (trace w ++ (EvEmbedQuery <$> (passage_text w <$> pre)))%list.
Proof.
  revert acc w. induction pre as [|item pre IH]; intros acc w Hall.
  - exists w. rewrite !app_nil_r. repeat split; try done.
    intros r Hr. by apply elem_of_nil in Hr.
  - apply Forall_cons in Hall as [[Hlt [x Hx]] Hall].
    pose proof (rerank_loop_step_call embedder vq item (pre ++ rest) acc w x Hx)
      as Hstep.
    set (w0 := set_score item x (logged (EvEmbedQuery (passage_text w item)) w))
      in *.
    assert (Hfld0 : forall r key, key <> "score" ->
              field_in w0 r key = field_in w r key).
    { intros r key Hk. unfold w0. by rewrite field_in_set_score_other. }
    assert (Hps : forall r, passage_score embedder vq w0 r
                            = passage_score embedder vq w r).
    { intros r. apply passage_score_ext. by apply Hfld0. }
    destruct (IH (acc ++ [item])%list w0)
      as (w1 & Hloop & Hlen & Hfld & Hoth & Hsc & Htr).
    { eapply Forall_impl; [exact Hall|]. intros r [Hr Hp].
      unfold w0. by rewrite length_set_score, Hps. }
    exists w1.
    change ((item :: pre) ++ rest)%list with (item :: (pre ++ rest))%list.
    rewrite Hstep, Hloop, <- app_assoc. split; [done|].
    split; [by rewrite Hlen; unfold w0; rewrite length_set_score|].
    split; [intros r key Hk; by rewrite Hfld, Hfld0|].
    split; [|split].
    + intros r Hr. apply not_elem_of_cons in Hr as [Hne Hr].
      rewrite (Hoth r Hr). unfold w0. by rewrite lookup_set_score_ne.
    + intros r Hr. destruct (decide (r ∈ pre)) as [Hin|Hnin].
      * by rewrite Hsc, Hps.
      * apply elem_of_cons in Hr as [->|Hr]; [|done].
        unfold score_in, field_in. rewrite (Hoth _ Hnin).
        fold (field_in w0 item "score"). fold (score_in w0 item).
        unfold w0. by rewrite score_in_set_score.
    + rewrite Htr. unfold w0 at 1. simpl. rewrite <- app_assoc. simpl.
      do 3 f_equal. apply list_fmap_ext. intros i r _.
      apply passage_text_ext. by apply Hfld0.
Qed.

(** A passage whose text is missing, blank or all white space stops the
    loop with [IndexError]. *)
Lemma rerank_loop_blank embedder q_emb bad rest acc w s :
  text_in w bad = VStr s ->
  PyStr.strip_truthy s = false ->
  rerank_loop embedder q_emb (bad :: rest) acc w = (Raise IndexError, w).
Proof.
  intros Ht Hs. simpl.
  rewrite (bind_return _ _ _ _ _ (dict_get_spec bad "text" (VStr "") w)).
  fold (text_in w bad). rewrite Ht. simpl.
  by rewrite (bind_return _ _ _ _ _ (encode_blank embedder s w Hs)).
Qed.

End RerankPartial.

(** X24: when the pool holds, after passages the provider embeds, a passage
    whose text is missing or blank, rerank raises [IndexError] at that
    passage; by then every passage before it has been given its score in
    the store (the caller's dictionaries are changed although the call
    failed), the provider has been called for the query and for those
    passages only, and the passages after it are neither scored nor sent. *)
Theorem X24_rerank_fails_midway_keeps_scores {F : FloatOps}
    (query : string) (pre : list loc) (bad : loc) (post : list loc)
    (embedder : SolarEmbedder) (top_k : Z) (w : world) (vq : list float)
    (s : string) :
  embeds embedder query vq ->
  Forall (fun r => (r < List.length (heap w))%nat
                   /\ is_Some (passage_score embedder vq w r)) pre ->
  text_in w bad = VStr s ->
  PyStr.strip_truthy s = false ->
  exists w',
    rerank_results query (pre ++ bad :: post) embedder top_k w
    = (Raise IndexError, w')
    /\ (forall r, r ∈ pre -> score_in w' r = passage_score embedder vq w r)
    /\ (forall r, r ∉ pre -> heap w' !! r = heap w !! r)
    /\ trace w'
       = (trace w ++ EvEmbedQuery query
            :: (EvEmbedQuery <$> (passage_text w <$> pre)))%list.
Proof.
  intros Hq Hall Ht Hs.
  pose proof (encode_success embedder query vq w Hq) as Henc.
  set (w0 := logged (EvEmbedQuery query) w) in *.
  destruct (rerank_loop_prefix embedder vq pre (bad :: post) [] w0)
    as (w1 & Hloop & Hlen & Hfld & Hoth & Hsc & Htr).
  { eapply Forall_impl; [exact Hall|]. intros r [Hr Hp]. split; [done|].
    by rewrite (passage_score_ext _ _ w0 w). }
  exists w1.
  assert (Ht1 : text_in w1 bad = VStr s).
  { unfold text_in. rewrite Hfld by done. exact Ht. }
  split; [|split; [|split]].
  - assert (Hne : exists item l, (pre ++ bad :: post)%list = item :: l).
    { destruct pre; simpl; eauto. }
    destruct Hne as (item & l & Hne). rewrite Hne, rerank_results_cons, <- Hne.
    rewrite (bind_return _ _ _ _ _ Henc).
    rewrite (bind_return _ _ _ (Arr1 (normalize_row vq)) w0 eq_refl).
    apply bind_raise. rewrite Hloop.
    by apply (rerank_loop_blank embedder _ bad post _ w1 s).
  - intros r Hr. by rewrite (Hsc r Hr), (passage_score_ext _ _ w0 w).
  - intros r Hr. by rewrite (Hoth r Hr).
  - rewrite Htr. unfold w0. simpl. rewrite <- app_assoc. simpl. do 3 f_equal.
Qed.

Lemma X24_rerank_fails_midway_keeps_scores_witness :
  exists w',
    rerank_results "q" [0; 1]%nat ZModel.toy_embedder 8 ZModel.w_blank
    = (Raise IndexError, w')
    /\ trace w' = [EvEmbedQuery "q"; EvEmbedQuery "alpha"].
Proof.
  destruct (X24_rerank_fails_midway_keeps_scores (F:=ZModel.ZFloat) "q"
              [0%nat] 1%nat [] ZModel.toy_embedder 8 ZModel.w_blank
              [3; 0]%Z "") as (w' & Hres & _ & _ & Htr).
  - split; reflexivity.
  - repeat (constructor; [split; [repeat constructor | by eexists]|]).
    constructor.
  - reflexivity.
  - reflexivity.
  - exists w'. split; [exact Hres | exact Htr].
Defined.
